(** * CollectorService: a shallow embedding of
      src/spaceone/inventory/service/collector_service.py

    The service methods are embedded over a small state-and-exception
    monad.  The state is the part of the outside world that the service
    reads and writes through its managers (collector, rules, job,
    job tasks, queue, in-process executions) together with a trace of the
    collaborator calls that were attempted.  Whether a collaborator call
    raises is decided by an oracle of the environment, indexed by the call
    site, so that every pattern of failures can be expressed. *)

From stdpp Require Import base option strings list gmap.

Open Scope string_scope.
Open Scope list_scope.

(* ===================================================================== *)
(** * Python values used by the service *)
(* ===================================================================== *)

(** Truthiness of an optional string: [None] and [''] are falsy. *)
Definition truthy (s : option string) : bool :=
  match s with
  | Some s => bool_decide (s ≠ "")
  | None => false
  end.

(** [str(x)] of an optional string inside an f-string. *)
Definition py_str (s : option string) : string :=
  match s with
  | Some s => s
  | None => "None"
  end.

(** [x in l] for an optional string and a list of strings. *)
Definition py_in (x : option string) (l : list string) : bool :=
  match x with
  | Some x => bool_decide (x ∈ l)
  | None => false
  end.

(** Truthiness of a list. *)
Definition nonempty {A} (l : list A) : bool :=
  match l with
  | [] => false
  | _ :: _ => true
  end.

(* ===================================================================== *)
(** * Data model *)
(* ===================================================================== *)

Inductive RuleType := MANAGED | CUSTOM.

#[global] Instance RuleType_eq_dec : EqDecision RuleType.
Proof. solve_decision. Defined.

(** An entry of [metadata['collector_rules']]: the condition/action payload
    is opaque to the service. *)
Record RuleParams := { rp_payload : string }.

(** A stored collector rule, with the three keys that
    [create_collector_rules_by_metadata] writes into the parameters. *)
Record Rule := {
  r_payload : string;
  r_domain_id : string;
  r_collector_id : string;
  r_rule_type : RuleType
}.

Record Metadata := { collector_rules : option (list RuleParams) }.

(** The [secret_filter] dict: keys 'secrets', 'service_accounts',
    'schemas', each holding a list of strings. *)
Abbreviation SecretFilter := (gmap string (list string)).

Record PluginInfo := {
  pi_plugin_id : string;
  pi_version : option string;
  pi_options : string;
  pi_upgrade_mode : option string;
  pi_metadata : option Metadata;
  pi_secret_filters : option SecretFilter
}.

Record Capability := { supported_providers : option (list string) }.

(** The plugin description returned by the repository. *)
Record RepoPlugin := {
  rpl_capability : option Capability;
  rpl_provider : option string
}.

Record Collector := {
  c_collector_id : string;
  c_domain_id : string;
  c_provider : option string;
  c_capability : option Capability;
  c_plugin_info : PluginInfo;
  c_last_collected : nat
}.

Inductive JobState := CREATED | IN_PROGRESS | SUCCESS | ERROR.

Inductive Exn :=
| ERROR_COLLECT_INITIALIZE (stage : string)
| ERROR_INVALID_PARAMETER (key reason : string)
| KeyError (key : string)
| ERROR_NOT_FOUND (key : string)
| ERROR_REQUIRED_PARAMETER (key : string)
| CollaboratorError (msg : string).

(** The request parameters of [collect]. *)
Record Params := {
  p_collector_id : string;
  p_domain_id : string;
  p_secret_id : option string;
  p_use_cache : bool
}.

(** The request parameters of [create]. *)
Record CreateParams := {
  cp_name : string;
  cp_plugin_info : PluginInfo;
  cp_provider : option string;
  cp_schedule : option string;
  cp_domain_id : string
}.

(** The [additional] argument of [add_error]: either the request
    parameters or [{'secret_id': secret_id}]. *)
Inductive Context :=
| CtxParams (p : Params)
| CtxSecret (secret_id : string).

Record ErrorEntry := {
  err_code : string;
  err_cause : Exn;
  err_context : Context
}.

Record Job := {
  job_id : string;
  j_collector_id : string;
  j_domain_id : string;
  j_state : JobState;
  total_tasks : nat;
  remained_tasks : nat;
  errors : list ErrorEntry;
  projects : gset string
}.

(** A secret as the secret service holds it. *)
Record Secret := {
  s_secret_id : string;
  s_domain_id : string;
  s_provider : option string;
  s_service_account_id : option string;
  s_project_id : option string;
  s_schema : option string;
  s_data : string
}.

(** The dict built by [_set_secret_info]. *)
Record SecretInfo := {
  si_secret_id : string;
  si_provider : option string;
  si_service_account_id : option string;
  si_project_id : option string
}.

Record JobTask := {
  jt_job_task_id : string;
  jt_job_id : string;
  jt_secret_info : SecretInfo;
  jt_domain_id : string
}.

(** The collecting parameters [req_params]. *)
Record ReqParams := {
  rq_plugin_info : PluginInfo;
  rq_secret_id : string;
  rq_secret_data : string;
  rq_domain_id : string;
  rq_job_id : string;
  rq_job_task_id : string;
  rq_use_cache : bool
}.

(** The task pipeline object wraps the collecting parameters. *)
Record Task := { t_params : ReqParams }.

(** One in-process call of [collecting_resources], with its arguments. *)
Record Execution := {
  x_plugin_info : PluginInfo;
  x_secret_data : string;
  x_domain_id : string;
  x_job_id : string;
  x_use_cache : bool
}.

(** A clause of the secret query. *)
Inductive FilterValue := VList (l : list string) | VStr (s : string).
Inductive FilterOp := OpIn | OpEq.
Record Clause := { k : string; v : FilterValue; o : FilterOp }.

(** The query passed to [list_secrets]: [{'filter': _filter}] or [{}]. *)
Record Query := { q_filter : option (list Clause) }.

(* ===================================================================== *)
(** * Collaborator calls *)
(* ===================================================================== *)

(** The steps of one iteration of the loop of [collect]. *)
Inductive Step :=
| IncreaseTotalTasks
| IncreaseRemainedTasks
| GetSecret
| CreateJobTask
| MakeCollectingParameters
| CreateTaskPipeline
| GetQueueName
| Validate
| JsonDumps
| QueuePut
| CollectingResources.

(** The call sites of the service.  A call inside the loop is indexed by
    the value of [count] and by the secret it works on; the creation of a
    rule by the position of the rule in the metadata. *)
Inductive Call :=
| GetPlugin
| IsSupportedSchedule
| CreateCollector
| GetCollector
| GetEndpoint
| InitPlugin
| UpdateCollector
| FilterCollectorRules
| DeleteRules
| CreateCollectorRule (index : nat)
| CreateJob
| ListSecrets
| MakeSuccess
| MakeError
| AddError
| MakeInprogress
| InLoop (count : nat) (secret_id : string) (step : Step)
| UpdateLastCollectedTime
| UpdateJob.

#[global] Instance Step_eq_dec : EqDecision Step.
Proof. solve_decision. Defined.

#[global] Instance Call_eq_dec : EqDecision Call.
Proof. solve_decision. Defined.

(* ===================================================================== *)
(** * The world and the environment *)
(* ===================================================================== *)

Record World := {
  w_collector : option Collector;
  w_rules : list Rule;
  w_job : option Job;
  w_job_tasks : list JobTask;
  w_queue : list (string * string);
  w_executions : list Execution;
  (** the local list [projects] of [collect], mutated inside the loop *)
  w_projects : list string;
  w_trace : list Call
}.

Record Env := {
  (** [e_fault c = Some msg]: the collaborator call [c] raises *)
  e_fault : Call -> option string;
  (** what the repository knows about the plugin *)
  e_repo_plugin : RepoPlugin;
  (** result of the endpoint resolution *)
  e_endpoint : string;
  e_updated_version : option string;
  (** response of [init_plugin]: its 'metadata' key, when present *)
  e_init_metadata : option Metadata;
  (** identifiers handed out by the stores *)
  e_new_collector_id : string;
  e_new_job_id : string;
  e_new_job_task_id : nat -> string;
  (** content of the secret service *)
  e_secrets : list Secret;
  (** [create_task_pipeline] builds a task, or gives [None] *)
  e_task_pipeline : ReqParams -> option Task;
  (** the configured name of the collect queue *)
  e_queue_name : option string;
  (** [json.dumps] *)
  e_json : Task -> string
}.

(** Field updates of the world. *)
Definition set_collector (c : option Collector) (w : World) : World :=
  {| w_collector := c; w_rules := w_rules w; w_job := w_job w;
     w_job_tasks := w_job_tasks w; w_queue := w_queue w;
     w_executions := w_executions w; w_projects := w_projects w;
     w_trace := w_trace w |}.

Definition set_rules (r : list Rule) (w : World) : World :=
  {| w_collector := w_collector w; w_rules := r; w_job := w_job w;
     w_job_tasks := w_job_tasks w; w_queue := w_queue w;
     w_executions := w_executions w; w_projects := w_projects w;
     w_trace := w_trace w |}.

Definition set_job (j : option Job) (w : World) : World :=
  {| w_collector := w_collector w; w_rules := w_rules w; w_job := j;
     w_job_tasks := w_job_tasks w; w_queue := w_queue w;
     w_executions := w_executions w; w_projects := w_projects w;
     w_trace := w_trace w |}.

Definition set_job_tasks (t : list JobTask) (w : World) : World :=
  {| w_collector := w_collector w; w_rules := w_rules w; w_job := w_job w;
     w_job_tasks := t; w_queue := w_queue w;
     w_executions := w_executions w; w_projects := w_projects w;
     w_trace := w_trace w |}.

Definition set_queue (q : list (string * string)) (w : World) : World :=
  {| w_collector := w_collector w; w_rules := w_rules w; w_job := w_job w;
     w_job_tasks := w_job_tasks w; w_queue := q;
     w_executions := w_executions w; w_projects := w_projects w;
     w_trace := w_trace w |}.

Definition set_executions (x : list Execution) (w : World) : World :=
  {| w_collector := w_collector w; w_rules := w_rules w; w_job := w_job w;
     w_job_tasks := w_job_tasks w; w_queue := w_queue w;
     w_executions := x; w_projects := w_projects w;
     w_trace := w_trace w |}.

Definition set_projects (p : list string) (w : World) : World :=
  {| w_collector := w_collector w; w_rules := w_rules w; w_job := w_job w;
     w_job_tasks := w_job_tasks w; w_queue := w_queue w;
     w_executions := w_executions w; w_projects := p;
     w_trace := w_trace w |}.

Definition set_trace (t : list Call) (w : World) : World :=
  {| w_collector := w_collector w; w_rules := w_rules w; w_job := w_job w;
     w_job_tasks := w_job_tasks w; w_queue := w_queue w;
     w_executions := w_executions w; w_projects := w_projects w;
     w_trace := t |}.

(** Field updates of the job. *)
Definition job_with_state (st : JobState) (j : Job) : Job :=
  {| job_id := job_id j; j_collector_id := j_collector_id j;
     j_domain_id := j_domain_id j; j_state := st;
     total_tasks := total_tasks j; remained_tasks := remained_tasks j;
     errors := errors j; projects := projects j |}.

Definition job_with_total (n : nat) (j : Job) : Job :=
  {| job_id := job_id j; j_collector_id := j_collector_id j;
     j_domain_id := j_domain_id j; j_state := j_state j;
     total_tasks := n; remained_tasks := remained_tasks j;
     errors := errors j; projects := projects j |}.

Definition job_with_remained (n : nat) (j : Job) : Job :=
  {| job_id := job_id j; j_collector_id := j_collector_id j;
     j_domain_id := j_domain_id j; j_state := j_state j;
     total_tasks := total_tasks j; remained_tasks := n;
     errors := errors j; projects := projects j |}.

Definition job_with_errors (l : list ErrorEntry) (j : Job) : Job :=
  {| job_id := job_id j; j_collector_id := j_collector_id j;
     j_domain_id := j_domain_id j; j_state := j_state j;
     total_tasks := total_tasks j; remained_tasks := remained_tasks j;
     errors := l; projects := projects j |}.

Definition job_with_projects (p : gset string) (j : Job) : Job :=
  {| job_id := job_id j; j_collector_id := j_collector_id j;
     j_domain_id := j_domain_id j; j_state := j_state j;
     total_tasks := total_tasks j; remained_tasks := remained_tasks j;
     errors := errors j; projects := p |}.

Definition plugin_info_with (version : option string) (metadata : option Metadata)
    (pi : PluginInfo) : PluginInfo :=
  {| pi_plugin_id := pi_plugin_id pi; pi_version := version;
     pi_options := pi_options pi; pi_upgrade_mode := pi_upgrade_mode pi;
     pi_metadata := metadata; pi_secret_filters := pi_secret_filters pi |}.

Definition collector_with_plugin_info (pi : PluginInfo) (c : Collector) : Collector :=
  {| c_collector_id := c_collector_id c; c_domain_id := c_domain_id c;
     c_provider := c_provider c; c_capability := c_capability c;
     c_plugin_info := pi; c_last_collected := c_last_collected c |}.

Definition collector_touch (c : Collector) : Collector :=
  {| c_collector_id := c_collector_id c; c_domain_id := c_domain_id c;
     c_provider := c_provider c; c_capability := c_capability c;
     c_plugin_info := c_plugin_info c;
     c_last_collected := S (c_last_collected c) |}.

(* ===================================================================== *)
(** * The monad: state passing with exceptions *)
(* ===================================================================== *)

Inductive Res (A : Type) :=
| Ok (a : A)
| Raise (e : Exn).

Arguments Ok {A} a.
Arguments Raise {A} e.

(** A computation runs in a world and ends in a world, either with a
    value or with a raised exception; the writes made before the
    exception was raised stay. *)
Definition M (A : Type) : Type := World -> Res A * World.

Definition ret {A} (a : A) : M A := fun w => (Ok a, w).

Definition raise {A} (e : Exn) : M A := fun w => (Raise e, w).

Definition bind {A B} (c : M A) (f : A -> M B) : M B :=
  fun w =>
    match c w with
    | (Ok a, w') => f a w'
    | (Raise e, w') => (Raise e, w')
    end.

(** [try: c except Exception as e: h e] *)
Definition try_except {A} (c : M A) (h : Exn -> M A) : M A :=
  fun w =>
    match c w with
    | (Ok a, w') => (Ok a, w')
    | (Raise e, w') => h e w'
    end.

Definition gets {A} (f : World -> A) : M A := fun w => (Ok (f w), w).

Definition modify (f : World -> World) : M unit := fun w => (Ok tt, f w).

Declare Scope service_scope.
Delimit Scope service_scope with service.

Notation "x <- c ;; f" := (bind c (fun x => f))
  (at level 100, c at next level, right associativity) : service_scope.
Notation "c ;; f" := (bind c (fun _ => f))
  (at level 100, right associativity) : service_scope.

Open Scope service_scope.

Definition log (c : Call) : M unit :=
  modify (fun w => set_trace (w_trace w ++ [c]) w).

Definition modify_job (f : Job -> Job) : M unit :=
  modify (fun w => set_job (f <$> w_job w) w).

(** The job record of this invocation, as the value object shows it. *)
Definition read_job : M Job :=
  fun w =>
    match w_job w with
    | Some j => (Ok j, w)
    | None => (Raise (ERROR_NOT_FOUND "job_id"), w)
    end.

(* ===================================================================== *)
(** * The managers *)
(* ===================================================================== *)

(** The manager classes (CollectorManager, JobManager, JobTaskManager,
    SecretManager, CollectorRuleManager, PluginManager,
    CollectorPluginManager, CollectingManager, RepositoryManager),
    [validate], [json.dumps] and [queue.put] are imported by the service
    and are not part of the source file.  Each is given the effect that
    sections 3, 4 and 6 of the specification describe.  A manager call
    first records itself in the trace and raises when the oracle says so;
    [add_error], of which the specification says that it never raises,
    records itself and goes through. *)

Section Managers.

Variable env : Env.

(** A collaborator call that may raise. *)
Definition call (c : Call) : M unit :=
  log c ;;
  match e_fault env c with
  | Some msg => raise (CollaboratorError msg)
  | None => ret tt
  end.

(** ** RepositoryManager *)

(** Modelled from the spec: [RepositoryManager.get_plugin] is not in the
    source file; it gives the repository's description of the plugin. *)
Definition get_plugin (plugin_id domain_id : string) : M RepoPlugin :=
  call GetPlugin ;;
  ret (e_repo_plugin env).

(** ** CollectorManager *)

(** Modelled from the spec: [CollectorManager.get_collector] is not in the
    source file; the collector store gives the collector with this id in
    this domain (section 6). *)
Definition get_collector (collector_id domain_id : string) : M Collector :=
  call GetCollector ;;
  c <- gets w_collector ;;
  match c with
  | Some c =>
      if bool_decide (c_collector_id c = collector_id ∧ c_domain_id c = domain_id)
      then ret c
      else raise (ERROR_NOT_FOUND "collector_id")
  | None => raise (ERROR_NOT_FOUND "collector_id")
  end.

(** Modelled from the spec: [CollectorManager.is_supported_schedule] is not
    in the source file; only whether it raises matters here. *)
Definition is_supported_schedule : M unit :=
  call IsSupportedSchedule.

(** Modelled from the spec: [CollectorManager.create_collector] is not in
    the source file; it stores the collector (section 6). *)
Definition create_collector (c : Collector) : M Collector :=
  call CreateCollector ;;
  modify (set_collector (Some c)) ;;
  ret c.

(** Modelled from the spec: the method [update] of the collector object is
    not in the source file; [collector_vo.update({'plugin_info': plugin_info})]
    stores the plugin information on the collector and gives the updated
    object (section 6). *)
Definition collector_vo_update (collector_vo : Collector) (plugin_info : PluginInfo)
    : M Collector :=
  call UpdateCollector ;;
  let c := collector_with_plugin_info plugin_info collector_vo in
  modify (set_collector (Some c)) ;;
  ret c.

(** Modelled from the spec: [CollectorManager.update_collector_by_vo] is not
    in the source file;
    [update_collector_by_vo(collector_vo, {'plugin_info': plugin_info})] does
    the same through the manager (section 6). *)
Definition update_collector_by_vo (collector_vo : Collector)
    (plugin_info : PluginInfo) : M Collector :=
  call UpdateCollector ;;
  let c := collector_with_plugin_info plugin_info collector_vo in
  modify (set_collector (Some c)) ;;
  ret c.

(** Modelled from the spec: [CollectorManager.update_last_collected_time]
    is not in the source file; it persists the last-collected timestamp on
    the collector (4.4, finalize). *)
Definition update_last_collected_time (collector_vo : Collector) : M unit :=
  call UpdateLastCollectedTime ;;
  modify (fun w => set_collector (collector_touch <$> w_collector w) w).

(** Modelled from the spec: the secret of the secret service with this id in
    this domain (section 6, secret store). *)
Definition find_secret (secret_id domain_id : string) : option Secret :=
  List.find
    (fun s => bool_decide (s_secret_id s = secret_id ∧ s_domain_id s = domain_id))
    (e_secrets env).

(** Modelled from the spec: [CollectorManager.make_collecting_parameters] is
    not in the source file; the payload holds the plugin reference, the
    secret data, the domain id, the job id, the job-task id and the cache
    flag (4.5 step 2, section 6). *)
Definition make_collecting_parameters (here : Step -> Call)
    (plugin_info : PluginInfo) (secret_id domain_id : string)
    (job_vo : string) (job_task_vo : JobTask) (params : Params) : M ReqParams :=
  call (here MakeCollectingParameters) ;;
  match find_secret secret_id domain_id with
  | Some s =>
      ret {| rq_plugin_info := plugin_info;
             rq_secret_id := secret_id;
             rq_secret_data := s_data s;
             rq_domain_id := domain_id;
             rq_job_id := job_vo;
             rq_job_task_id := jt_job_task_id job_task_vo;
             rq_use_cache := p_use_cache params |}
  | None => raise (ERROR_NOT_FOUND "secret_id")
  end.

(** Modelled from the spec: [CollectorManager.create_task_pipeline] is not
    in the source file; it gives the task pipeline object or nothing
    (4.5 step 3). *)
Definition create_task_pipeline (here : Step -> Call)
    (req_params : ReqParams) (domain_id : string) : M (option Task) :=
  call (here CreateTaskPipeline) ;;
  ret (e_task_pipeline env req_params).

(** Modelled from the spec: [CollectorManager.get_queue_name] is not in the
    source file; it gives the configured queue name, which may be absent
    (section 6). *)
Definition get_queue_name (here : Step -> Call) : M (option string) :=
  call (here GetQueueName) ;;
  ret (e_queue_name env).

(** ** PluginManager and CollectorPluginManager *)

(** Modelled from the spec: [PluginManager.get_endpoint] is not in the
    source file; it gives the endpoint and, on an upgrade, the new version
    (4.1). *)
Definition get_endpoint (plugin_id : string) (version : option string)
    (domain_id upgrade_mode : string) : M (string * option string) :=
  call GetEndpoint ;;
  ret (e_endpoint env, e_updated_version env).

(** Modelled from the spec: [CollectorPluginManager.init_plugin] is not in
    the source file; its response is reduced to the 'metadata' key, which
    may be missing (4.1). *)
Definition init_plugin (endpoint options : string) : M (option Metadata) :=
  call InitPlugin ;;
  ret (e_init_metadata env).

(** ** CollectorRuleManager *)

(** Modelled from the spec: the rules that
    [filter_collector_rules(collector_id, rule_type, domain_id)] selects
    (section 6, rule store). *)
Definition rule_selected (collector_id : string) (rule_type : RuleType)
    (domain_id : string) (r : Rule) : bool :=
  bool_decide (r_collector_id r = collector_id ∧ r_rule_type r = rule_type
               ∧ r_domain_id r = domain_id).

(** Modelled from the spec: [CollectorRuleManager.filter_collector_rules]
    is not in the source file; the query set it gives is the selection
    predicate. *)
Definition filter_collector_rules (collector_id : string) (rule_type : RuleType)
    (domain_id : string) : M (Rule -> bool) :=
  call FilterCollectorRules ;;
  ret (rule_selected collector_id rule_type domain_id).

(** Modelled from the spec: [delete] on the query set is not in the source
    file; it removes the selected rules (section 6, deleteAllManaged). *)
Definition delete_vos (selected : Rule -> bool) : M unit :=
  call DeleteRules ;;
  modify (fun w => set_rules (List.filter (fun r => negb (selected r)) (w_rules w)) w).

(** Modelled from the spec: [CollectorRuleManager.create_collector_rule] is
    not in the source file; it stores the rule (section 6). *)
Definition create_collector_rule (index : nat) (r : Rule) : M unit :=
  call (CreateCollectorRule index) ;;
  modify (fun w => set_rules (w_rules w ++ [r]) w).

(** ** JobManager *)

(** Modelled from the spec: [JobManager.create_job] is not in the source
    file; the job starts in state CREATED with counters 0, no error and no
    project (4.4, createJob). *)
Definition create_job (collector_vo : Collector) (params : Params) : M string :=
  call CreateJob ;;
  modify (set_job (Some {| job_id := e_new_job_id env;
                           j_collector_id := c_collector_id collector_vo;
                           j_domain_id := p_domain_id params;
                           j_state := CREATED;
                           total_tasks := 0;
                           remained_tasks := 0;
                           errors := [];
                           projects := ∅ |})) ;;
  ret (e_new_job_id env).

(** Modelled from the spec: [JobManager.make_success_by_vo] is not in the
    source file; it forces the terminal state (4.4, markSuccess).  Like
    the other writes to the job store it may fail: the specification
    says "never raises" of [addError] only. *)
Definition make_success_by_vo (job_vo : string) : M unit :=
  call MakeSuccess ;;
  modify_job (job_with_state SUCCESS).

(** Modelled from the spec: [JobManager.make_error_by_vo] is not in the
    source file; it forces the terminal state (4.4, markError), and may
    fail like [make_success_by_vo]. *)
Definition make_error_by_vo (job_vo : string) : M unit :=
  call MakeError ;;
  modify_job (job_with_state ERROR).

(** Modelled from the spec: [JobManager.add_error] is not in the source
    file; it appends to the error log and never raises (4.4, addError). *)
Definition add_error (job_id domain_id error_code : string) (msg : Exn)
    (additional : Context) : M unit :=
  log AddError ;;
  modify_job (fun j =>
    job_with_errors
      (errors j ++ [{| err_code := error_code; err_cause := msg;
                       err_context := additional |}]) j).

(** Modelled from the spec: [JobManager.make_inprogress_by_vo] is not in the
    source file; the transition may fail to persist (4.4, markInProgress). *)
Definition make_inprogress_by_vo (job_vo : string) : M unit :=
  call MakeInprogress ;;
  modify_job (job_with_state IN_PROGRESS).

(** Modelled from the spec: [JobManager.increase_total_tasks_by_vo] is not
    in the source file; it increments the total counter by 1 (4.4,
    registerTask). *)
Definition increase_total_tasks_by_vo (here : Step -> Call) (job_vo : string)
    : M unit :=
  call (here IncreaseTotalTasks) ;;
  modify_job (fun j => job_with_total (S (total_tasks j)) j).

(** Modelled from the spec: [JobManager.increase_remained_tasks_by_vo] is
    not in the source file; it increments the remaining counter by 1 (4.4,
    registerTask). *)
Definition increase_remained_tasks_by_vo (here : Step -> Call) (job_vo : string)
    : M unit :=
  call (here IncreaseRemainedTasks) ;;
  modify_job (fun j => job_with_remained (S (remained_tasks j)) j).

(** Modelled from the spec: [JobManager.update_job_by_vo] is not in the
    source file; [update_job_by_vo({'projects': list(set(projects))}, job_vo)]
    persists the deduplicated project set and gives the job (4.4,
    finalize). *)
Definition update_job_by_vo (projects : gset string) (job_vo : string) : M Job :=
  call UpdateJob ;;
  modify_job (job_with_projects projects) ;;
  read_job.

(** ** JobTaskManager *)

(** Modelled from the spec: [JobTaskManager.create_job_task] is not in the
    source file; it stores a job task of the job for the secret (section 3,
    JobTask). *)
Definition create_job_task (here : Step -> Call) (count : nat) (job_vo : string)
    (secret_info : SecretInfo) (domain_id : string) : M JobTask :=
  call (here CreateJobTask) ;;
  let t := {| jt_job_task_id := e_new_job_task_id env count;
              jt_job_id := job_vo;
              jt_secret_info := secret_info;
              jt_domain_id := domain_id |} in
  modify (fun w => set_job_tasks (w_job_tasks w ++ [t]) w) ;;
  ret t.

(** ** SecretManager *)

(** Modelled from the spec: [SecretManager.get_secret] is not in the source
    file; it gives the secret with this id in this domain (section 6). *)
Definition get_secret (here : Step -> Call) (secret_id domain_id : string)
    : M Secret :=
  call (here GetSecret) ;;
  match find_secret secret_id domain_id with
  | Some s => ret s
  | None => raise (ERROR_NOT_FOUND "secret_id")
  end.

(** Modelled from the spec: the value of the secret field that a clause
    key names (4.3). *)
Definition secret_field (key : string) (s : Secret) : option string :=
  if bool_decide (key = "secret_id") then Some (s_secret_id s)
  else if bool_decide (key = "service_account_id") then s_service_account_id s
  else if bool_decide (key = "schema") then s_schema s
  else None.

(** Modelled from the spec: a clause [{'k': key, 'v': value, 'o': 'in'}]
    asks for the field to be in the list, [{'o': 'eq'}] for it to be the
    value (4.3). *)
Definition clause_matches (c : Clause) (s : Secret) : bool :=
  match o c, v c with
  | OpIn, VList l => py_in (secret_field (k c) s) l
  | OpEq, VStr x => bool_decide (secret_field (k c) s = Some x)
  | _, _ => false
  end.

(** Modelled from the spec: the clauses of a query are combined with AND;
    an empty query selects every secret visible in the domain (4.3). *)
Definition query_matches (q : Query) (s : Secret) : bool :=
  forallb (fun c => clause_matches c s) (default [] (q_filter q)).

(** Modelled from the spec: the secrets of the domain that the query
    selects, in the order of the secret service (4.3). *)
Definition select_secrets (query : Query) (domain_id : string) : list Secret :=
  List.filter
    (fun s => bool_decide (s_domain_id s = domain_id) && query_matches query s)
    (e_secrets env).

(** Modelled from the spec: [SecretManager.list_secrets] is not in the
    source file; its 'results' are the selected secrets (4.3, section 6). *)
Definition list_secrets (query : Query) (domain_id : string) : M (list Secret) :=
  call ListSecrets ;;
  ret (select_secrets query domain_id).

(** ** CollectingManager, jsonschema, json and queue *)

(** Modelled from the spec: [CollectingManager.collecting_resources] is not
    in the source file; it is the in-process collection execution entry
    point (4.5 step 3); the execution is recorded with its arguments. *)
Definition collecting_resources (here : Step -> Call) (plugin_info : PluginInfo)
    (secret_data domain_id job_id : string) (use_cache : bool) : M unit :=
  call (here CollectingResources) ;;
  modify (fun w =>
    set_executions
      (w_executions w ++ [{| x_plugin_info := plugin_info;
                             x_secret_data := secret_data;
                             x_domain_id := domain_id;
                             x_job_id := job_id;
                             x_use_cache := use_cache |}]) w).

(** Modelled from the spec: [jsonschema.validate] against
    SPACEONE_TASK_SCHEMA, which is not in the source file; only whether it
    raises matters here (section 6). *)
Definition validate (here : Step -> Call) (task : Task) : M unit :=
  call (here Validate).

(** Modelled from the spec: [json.dumps], the serialization of the task
    (section 6). *)
Definition json_dumps (here : Step -> Call) (task : Task) : M string :=
  call (here JsonDumps) ;;
  ret (e_json env task).

(** Modelled from the spec: [queue.put] is not in the source file; it
    enqueues the serialized task under the queue name (section 6). *)
Definition queue_put (here : Step -> Call) (queue_name json_task : string)
    : M unit :=
  call (here QueuePut) ;;
  modify (fun w => set_queue (w_queue w ++ [(queue_name, json_task)]) w).

End Managers.

(* ===================================================================== *)
(** * CollectorService *)
(* ===================================================================== *)

(** ** Static methods *)

(** [_set_secret_filter(secret_filter, secret_id)], lines 440-452. *)
Definition _set_secret_filter (secret_filter : SecretFilter)
    (secret_id : option string) : list Clause :=
  let _filter := [] in
  let _filter :=
    match secret_filter !! "secrets" with
    | Some l => _filter ++ [{| k := "secret_id"; v := VList l; o := OpIn |}]
    | None => _filter
    end in
  let _filter :=
    match secret_filter !! "service_accounts" with
    | Some l => _filter ++ [{| k := "service_account_id"; v := VList l; o := OpIn |}]
    | None => _filter
    end in
  let _filter :=
    match secret_filter !! "schemas" with
    | Some l => _filter ++ [{| k := "schema"; v := VList l; o := OpIn |}]
    | None => _filter
    end in
  let _filter :=
    if truthy secret_id
    then _filter ++ [{| k := "secret_id"; v := VStr (py_str secret_id); o := OpEq |}]
    else _filter in
  _filter.

(** [_get_plugin_providers(provider, plugin_info)], lines 454-466. *)
Definition _get_plugin_providers (provider : option string)
    (plugin_info : RepoPlugin) : Res (option string) :=
  let supported_providers :=
    default []
      (supported_providers
         (default {| supported_providers := None |} (rpl_capability plugin_info))) in
  if nonempty supported_providers then
    if py_in provider supported_providers then Ok provider
    else Raise (ERROR_INVALID_PARAMETER "provider"
                  ("Not supported provider: " +:+ py_str provider))
  else
    Ok (if truthy provider then provider else rpl_provider plugin_info).

(** A pure result run inside the monad. *)
Definition lift {A} (r : Res A) : M A :=
  match r with
  | Ok a => ret a
  | Raise e => raise e
  end.

(** [secret.get(key)] kept only when truthy, as in
    [if provider := secret.get('provider')]. *)
Definition if_truthy (s : option string) : option string :=
  if truthy s then s else None.

Section Service.

Variable env : Env.

(** ** Rules: lines 405-423 *)

(** The loop of [create_collector_rules_by_metadata]; [index] counts the
    entries already handled. *)
Fixpoint create_collector_rules (collector_rules : list RuleParams) (index : nat)
    (domain_id collector_id : string) : M unit :=
  match collector_rules with
  | [] => ret tt
  | collector_rule_params :: rest =>
      create_collector_rule env index
        {| r_payload := rp_payload collector_rule_params;
           r_domain_id := domain_id;
           r_collector_id := collector_id;
           r_rule_type := MANAGED |} ;;
      create_collector_rules rest (S index) domain_id collector_id
  end.

(** The parameters are declared in the order
    [(plugin_metadata, domain_id, collector_id)]. *)
Definition create_collector_rules_by_metadata (plugin_metadata : Metadata)
    (domain_id collector_id : string) : M unit :=
  let collector_rules := default [] (collector_rules plugin_metadata) in
  create_collector_rules collector_rules 0 domain_id collector_id.

Definition delete_collector_rules (collector_id domain_id : string) : M unit :=
  old_collector_rule_vos <- filter_collector_rules env collector_id MANAGED domain_id ;;
  delete_vos env old_collector_rule_vos.

(** ** Secrets: lines 354-361 and 425-438 *)

Definition list_secret_from_secret_filter (secret_filter : SecretFilter)
    (secret_id : option string) (domain_id : string) : M (list string) :=
  let _filter := _set_secret_filter secret_filter secret_id in
  let query :=
    if nonempty _filter then {| q_filter := Some _filter |}
    else {| q_filter := None |} in
  response <- list_secrets env query domain_id ;;
  ret (s_secret_id <$> response).

Definition _set_secret_info (here : Step -> Call) (secret_id domain_id : string)
    : M SecretInfo :=
  secret <- get_secret env here secret_id domain_id ;;
  ret {| si_secret_id := secret_id;
         si_provider := if_truthy (s_provider secret);
         si_service_account_id := if_truthy (s_service_account_id secret);
         si_project_id := if_truthy (s_project_id secret) |}.

(** ** collect: lines 182-282 *)

(** Lines 262-273: the choice between the queue and the in-process
    execution. *)
Definition dispatch (here : Step -> Call) (task : option Task)
    (queue_name : option string) (req_params : ReqParams) : M unit :=
  match task with
  | Some task' =>
      if truthy queue_name then
        validate env here task' ;;
        json_task <- json_dumps env here task' ;;
        queue_put env here (py_str queue_name) json_task
      else
        collecting_resources env here (rq_plugin_info req_params)
          (rq_secret_data req_params) (rq_domain_id req_params)
          (rq_job_id req_params) (rq_use_cache req_params)
  | None =>
      collecting_resources env here (rq_plugin_info req_params)
        (rq_secret_data req_params) (rq_domain_id req_params)
        (rq_job_id req_params) (rq_use_cache req_params)
  end.

(** Lines 242-273: the body of the [try] of one iteration. *)
Definition collect_secret_body (params : Params) (plugin_info : PluginInfo)
    (created_job : string) (count : nat) (secret_id : string) : M unit :=
  let here := InLoop count secret_id in
  let domain_id := p_domain_id params in
  increase_total_tasks_by_vo env here created_job ;;
  increase_remained_tasks_by_vo env here created_job ;;
  secret_info <- _set_secret_info here secret_id domain_id ;;
  match si_project_id secret_info with
  | Some project_id => modify (fun w => set_projects (w_projects w ++ [project_id]) w)
  | None => ret tt
  end ;;
  job_task_vo <- create_job_task env here count created_job secret_info domain_id ;;
  req_params <- make_collecting_parameters env here plugin_info secret_id domain_id
                  created_job job_task_vo params ;;
  task <- create_task_pipeline env here req_params domain_id ;;
  queue_name <- get_queue_name env here ;;
  dispatch here task queue_name req_params.

(** Lines 241-278: one iteration, with its handler. *)
Definition collect_secret (params : Params) (plugin_info : PluginInfo)
    (created_job : string) (count : nat) (secret_id : string) : M unit :=
  try_except
    (collect_secret_body params plugin_info created_job count secret_id)
    (fun e =>
       add_error created_job (p_domain_id params) "ERROR_COLLECTOR_COLLECTING" e
         (CtxSecret secret_id)).

(** Lines 239-278: the loop; [count] is the number of secrets already
    handled. *)
Fixpoint collect_loop (params : Params) (plugin_info : PluginInfo)
    (created_job : string) (count : nat) (secret_ids : list string) : M unit :=
  match secret_ids with
  | [] => ret tt
  | secret_id :: rest =>
      let count := S count in
      collect_secret params plugin_info created_job count secret_id ;;
      collect_loop params plugin_info created_job count rest
  end.

(** Lines 190-210: loading the collector, resolving the endpoint and, on
    a version upgrade, updating the plugin and its rules.  Gives the
    collector and the plugin information as they are afterwards. *)
Definition collect_setup (params : Params) : M (Collector * PluginInfo) :=
  let collector_id := p_collector_id params in
  let domain_id := p_domain_id params in
  collector_vo <- get_collector env collector_id domain_id ;;
  let plugin_info := c_plugin_info collector_vo in
  let plugin_id := pi_plugin_id plugin_info in
  version <- match pi_version plugin_info with
             | Some version => ret version
             | None => raise (KeyError "version")
             end ;;
  let options := pi_options plugin_info in
  let upgrade_mode := default "AUTO" (pi_upgrade_mode plugin_info) in
  r <- get_endpoint env plugin_id (Some version) domain_id upgrade_mode ;;
  let endpoint := fst r in
  let updated_version := snd r in
  if truthy updated_version then
    response <- init_plugin env endpoint options ;;
    metadata <- match response with
                | Some metadata => ret metadata
                | None => raise (KeyError "metadata")
                end ;;
    let plugin_info := plugin_info_with updated_version (Some metadata) plugin_info in
    collector_vo <- collector_vo_update env collector_vo plugin_info ;;
    delete_collector_rules collector_id domain_id ;;
    create_collector_rules_by_metadata metadata collector_id domain_id ;;
    ret (collector_vo, plugin_info)
  else
    ret (collector_vo, plugin_info).

(** Lines 214-282: what [collect] does once the job exists.  The first
    [try] either leaves through [return created_job] ([inl]) or falls
    through with the secret ids ([inr]). *)
Definition collect_job (params : Params) (collector_vo : Collector)
    (plugin_info : PluginInfo) (created_job : string) : M Job :=
  let collector_id := p_collector_id params in
  let domain_id := p_domain_id params in
  r <- try_except
         (secret_ids <- list_secret_from_secret_filter
                          (default ∅ (pi_secret_filters plugin_info))
                          (p_secret_id params) domain_id ;;
          if nonempty secret_ids then ret (inr secret_ids)
          else
            make_success_by_vo env created_job ;;
            job <- read_job ;;
            ret (inl job))
         (fun e =>
            add_error created_job domain_id "ERROR_COLLECT_INITIALIZE" e
              (CtxParams params) ;;
            make_error_by_vo env created_job ;;
            raise (ERROR_COLLECT_INITIALIZE "Secret Patch")) ;;
  match r with
  | inl job => ret job
  | inr secret_ids =>
      try_except (make_inprogress_by_vo env created_job) (fun e => ret tt) ;;
      modify (set_projects []) ;;
      collect_loop params plugin_info created_job 0 secret_ids ;;
      update_last_collected_time env collector_vo ;;
      projects <- gets w_projects ;;
      update_job_by_vo env (list_to_set projects) created_job
  end.

Definition collect (params : Params) : M Job :=
  r <- collect_setup params ;;
  let collector_vo := fst r in
  let plugin_info := snd r in
  created_job <- create_job env collector_vo params ;;
  collect_job params collector_vo plugin_info created_job.

(** ** create: lines 35-88 *)

Definition _get_plugin_from_repository (plugin_info : PluginInfo)
    (domain_id : string) : M RepoPlugin :=
  get_plugin env (pi_plugin_id plugin_info) domain_id.

(** The conversion of the tags does not touch anything modelled here and
    is left out. *)
Definition create (params : CreateParams) : M Collector :=
  let plugin_info := cp_plugin_info params in
  let domain_id := cp_domain_id params in
  plugin_info_from_repository <- _get_plugin_from_repository plugin_info domain_id ;;
  provider <- lift (_get_plugin_providers (cp_provider params)
                      plugin_info_from_repository) ;;
  let capability :=
    default {| supported_providers := None |}
      (rpl_capability plugin_info_from_repository) in
  match cp_schedule params with
  | Some schedule => is_supported_schedule env
  | None => ret tt
  end ;;
  collector_vo <- create_collector env
                    {| c_collector_id := e_new_collector_id env;
                       c_domain_id := domain_id;
                       c_provider := provider;
                       c_capability := Some capability;
                       c_plugin_info := plugin_info;
                       c_last_collected := 0 |} ;;
  r <- get_endpoint env (pi_plugin_id plugin_info) (pi_version plugin_info) domain_id
         (default "AUTO" (pi_upgrade_mode plugin_info)) ;;
  let endpoint := fst r in
  let updated_version := snd r in
  plugin_response <- init_plugin env endpoint (pi_options plugin_info) ;;
  let version :=
    if truthy updated_version then updated_version else pi_version plugin_info in
  let metadata := default {| collector_rules := None |} plugin_response in
  let plugin_info := plugin_info_with version (Some metadata) plugin_info in
  collector_vo <- update_collector_by_vo env collector_vo plugin_info ;;
  create_collector_rules_by_metadata metadata (c_collector_id collector_vo)
    domain_id ;;
  ret collector_vo.

End Service.

(* ===================================================================== *)
(** * The specification's wording of two decisions *)
(* ===================================================================== *)

(** Section 4.3: the four clauses of the secret selection, each applying
    only when its key (or the requested secret id) is there, combined
    with AND. *)
Definition selected_by (secret_filter : SecretFilter) (secret_id : option string)
    (s : Secret) : bool :=
  match secret_filter !! "secrets" with
  | Some l => bool_decide (s_secret_id s ∈ l)
  | None => true
  end
  && match secret_filter !! "service_accounts" with
     | Some l => py_in (s_service_account_id s) l
     | None => true
     end
  && match secret_filter !! "schemas" with
     | Some l => py_in (s_schema s) l
     | None => true
     end
  && (if truthy secret_id then bool_decide (Some (s_secret_id s) = secret_id) else true).

(** Section 4.5, step 3: a queue is configured and a task pipeline was
    constructed. *)
Definition asynchronous (task : option Task) (queue_name : option string) : bool :=
  bool_decide (is_Some task) && truthy queue_name.

(** The arguments of the in-process execution, taken from the collecting
    parameters. *)
Definition execution_of (req_params : ReqParams) : Execution :=
  {| x_plugin_info := rq_plugin_info req_params;
     x_secret_data := rq_secret_data req_params;
     x_domain_id := rq_domain_id req_params;
     x_job_id := rq_job_id req_params;
     x_use_cache := rq_use_cache req_params |}.

(* ===================================================================== *)
(** * Observations of a run *)
(* ===================================================================== *)

(** What a caller can see of the job of the invocation. *)
Definition job_errors (w : World) : list ErrorEntry := default [] (errors <$> w_job w).
Definition job_total (w : World) : nat := default 0 (total_tasks <$> w_job w).
Definition job_remained (w : World) : nat := default 0 (remained_tasks <$> w_job w).
Definition job_state (w : World) : option JobState := j_state <$> w_job w.
Definition job_exists (w : World) : bool := bool_decide (is_Some (w_job w)).

(** The iterations of the loop that were entered, read off the trace: the
    first call of an iteration is the increment of the total of tasks. *)
Definition handled (trace : list Call) : list (nat * string) :=
  omap (fun c => match c with
                 | InLoop n s IncreaseTotalTasks => Some (n, s)
                 | _ => None
                 end) trace.

Definition empty_world : World :=
  {| w_collector := None; w_rules := []; w_job := None; w_job_tasks := [];
     w_queue := []; w_executions := []; w_projects := []; w_trace := [] |}.

(** A computation leaves an observation of the world as it was. *)
Definition preserves {A B} (f : World -> B) (c : M A) : Prop :=
  forall w, f (c w).2 = f w.

(** The value or exception of a computation does not depend on the world
    it starts from. *)
Definition pure_result {A} (c : M A) : Prop :=
  forall w1 w2, (c w1).1 = (c w2).1.

Section Outcomes.

Variable env : Env.
Variable params : Params.
Variable plugin_info : PluginInfo.
Variable created_job : string.

(** The exception that the body of the iteration for [secret_id] ends
    with, if any.  It is fixed by the environment ([body_pure] below),
    so it can be read off a run from the empty world. *)
Definition secret_failure (count : nat) (secret_id : string) : option Exn :=
  match (collect_secret_body env params plugin_info created_job count secret_id
           empty_world).1 with
  | Ok _ => None
  | Raise e => Some e
  end.

(** The entry that the handler of the iteration adds to the error log. *)
Definition failure_entries (count : nat) (secret_id : string) : list ErrorEntry :=
  match secret_failure count secret_id with
  | Some e => [{| err_code := "ERROR_COLLECTOR_COLLECTING"; err_cause := e;
                  err_context := CtxSecret secret_id |}]
  | None => []
  end.

(** 1 when the increment of the total of tasks goes through. *)
Definition registered (count : nat) (secret_id : string) : nat :=
  match e_fault env (InLoop count secret_id IncreaseTotalTasks) with
  | Some _ => 0
  | None => 1
  end.

(** 1 when the increment of the remaining tasks goes through, which
    takes the increment of the total before it. *)
Definition counted (count : nat) (secret_id : string) : nat :=
  let here := InLoop count secret_id in
  match e_fault env (here IncreaseTotalTasks), e_fault env (here IncreaseRemainedTasks) with
  | None, None => 1
  | _, _ => 0
  end.

(** 1 when the iteration gets as far as creating its job task: both
    increments, the resolution of the secret and the creation itself
    went through. *)
Definition task_created (count : nat) (secret_id : string) : nat :=
  let here := InLoop count secret_id in
  match e_fault env (here IncreaseTotalTasks), e_fault env (here IncreaseRemainedTasks),
        e_fault env (here GetSecret), find_secret env secret_id (p_domain_id params),
        e_fault env (here CreateJobTask) with
  | None, None, None, Some _, None => 1
  | _, _, _, _, _ => 0
  end.

(** The collecting parameters that the iteration builds once the secret
    [s] is resolved. *)
Definition body_request (count : nat) (secret_id : string) (s : Secret) : ReqParams :=
  {| rq_plugin_info := plugin_info;
     rq_secret_id := secret_id;
     rq_secret_data := s_data s;
     rq_domain_id := p_domain_id params;
     rq_job_id := created_job;
     rq_job_task_id := e_new_job_task_id env count;
     rq_use_cache := p_use_cache params |}.

(** The collaborator calls of the body, in the order of lines 242-273. *)
Definition body_steps (count : nat) (secret_id : string) (s : Secret) : list Step :=
  [IncreaseTotalTasks; IncreaseRemainedTasks; GetSecret; CreateJobTask;
   MakeCollectingParameters; CreateTaskPipeline; GetQueueName]
  ++ (if asynchronous (e_task_pipeline env (body_request count secret_id s))
           (e_queue_name env)
      then [Validate; JsonDumps; QueuePut]
      else [CollectingResources]).

(** The message of the first call, among [steps], that raises. *)
Fixpoint first_fault (here : Step -> Call) (steps : list Step) : option string :=
  match steps with
  | [] => None
  | step :: rest =>
      match e_fault env (here step) with
      | Some msg => Some msg
      | None => first_fault here rest
      end
  end.

(** The same, summed over the secrets of a loop that has already handled
    [count] secrets. *)
Fixpoint loop_errors (count : nat) (secret_ids : list string) : list ErrorEntry :=
  match secret_ids with
  | [] => []
  | secret_id :: rest =>
      failure_entries (S count) secret_id ++ loop_errors (S count) rest
  end.

Fixpoint numbered (count : nat) (secret_ids : list string) : list (nat * string) :=
  match secret_ids with
  | [] => []
  | secret_id :: rest => (S count, secret_id) :: numbered (S count) rest
  end.

Fixpoint loop_registered (count : nat) (secret_ids : list string) : nat :=
  match secret_ids with
  | [] => 0
  | secret_id :: rest => registered (S count) secret_id + loop_registered (S count) rest
  end.

Fixpoint loop_remained (count : nat) (secret_ids : list string) : nat :=
  match secret_ids with
  | [] => 0
  | secret_id :: rest => counted (S count) secret_id + loop_remained (S count) rest
  end.

Fixpoint loop_tasks (count : nat) (secret_ids : list string) : nat :=
  match secret_ids with
  | [] => 0
  | secret_id :: rest => task_created (S count) secret_id + loop_tasks (S count) rest
  end.

(** The secret ids that the selection of [collect] yields when the
    secret service answers. *)
Definition eligible : list string :=
  let _filter := _set_secret_filter (default ∅ (pi_secret_filters plugin_info))
                   (p_secret_id params) in
  s_secret_id <$>
    select_secrets env
      (if nonempty _filter then {| q_filter := Some _filter |}
       else {| q_filter := None |})
      (p_domain_id params).

(** The exception that the handler of the first [try] of [collect]
    (lines 224-228) catches, if any: that of the secret selection, or,
    when nothing is selected, that of marking the job SUCCESS. *)
Definition initialize_failure : option Exn :=
  match e_fault env ListSecrets with
  | Some msg => Some (CollaboratorError msg)
  | None =>
      if nonempty eligible then None
      else CollaboratorError <$> e_fault env MakeSuccess
  end.

(** The entry that this handler adds to the error log. *)
Definition initialize_errors : list ErrorEntry :=
  match initialize_failure with
  | Some e => [{| err_code := "ERROR_COLLECT_INITIALIZE"; err_cause := e;
                  err_context := CtxParams params |}]
  | None => []
  end.

(** What the handler ends with: the initialization error, or the
    exception of marking the job ERROR when that raises (line 227 is not
    guarded); and the state in which it leaves a job that was CREATED. *)
Definition initialize_abort : Exn :=
  match e_fault env MakeError with
  | Some msg => CollaboratorError msg
  | None => ERROR_COLLECT_INITIALIZE "Secret Patch"
  end.

Definition aborted_state : JobState :=
  match e_fault env MakeError with
  | Some _ => CREATED
  | None => ERROR
  end.

(** The world in which the loop starts, when [collect] begins in [w]
    with a selection that succeeds and is not empty (lines 230-237), and
    the world in which the loop ends. *)
Definition before_loop (w : World) : World :=
  set_projects []
    (try_except (make_inprogress_by_vo env created_job) (fun _ => ret tt)
       (set_trace (w_trace w ++ [ListSecrets]) w)).2.

Definition after_loop (w : World) : World :=
  (collect_loop env params plugin_info created_job 0 eligible (before_loop w)).2.

End Outcomes.

(** The job as [create_job] stores it. *)
Definition new_job (env : Env) (collector_vo : Collector) (params : Params) : Job :=
  {| job_id := e_new_job_id env;
     j_collector_id := c_collector_id collector_vo;
     j_domain_id := p_domain_id params;
     j_state := CREATED;
     total_tasks := 0;
     remained_tasks := 0;
     errors := [];
     projects := ∅ |}.

(** The world right after [create_job], when it starts in [w]. *)
Definition job_created (env : Env) (collector_vo : Collector) (params : Params)
    (w : World) : World :=
  set_job (Some (new_job env collector_vo params))
    (set_trace (w_trace w ++ [CreateJob]) w).

(** The keys that [create_collector_rules_by_metadata] writes, as a
    function of its own parameters. *)
Definition stamp (domain_id collector_id : string) (p : RuleParams) : Rule :=
  {| r_payload := rp_payload p;
     r_domain_id := domain_id;
     r_collector_id := collector_id;
     r_rule_type := MANAGED |}.

(** The collector after the update of line 207, and the world in which
    the rules are resynchronised (lines 209-210) when [collect] starts in
    [w], finds the collector [c] and upgrades it to [metadata]. *)
Definition upgraded_collector (env : Env) (c : Collector) (metadata : Metadata)
    : Collector :=
  collector_with_plugin_info
    (plugin_info_with (e_updated_version env) (Some metadata) (c_plugin_info c)) c.

Definition upgraded (env : Env) (c : Collector) (metadata : Metadata) (w : World)
    : World :=
  set_collector (Some (upgraded_collector env c metadata))
    (set_trace (w_trace w ++ [GetCollector; GetEndpoint; InitPlugin; UpdateCollector])
       w).

(** What [collect_setup] never touches. *)
Definition untouched_by_setup (w : World)
    : option Job * list JobTask * list (string * string) * list Execution :=
  (w_job w, w_job_tasks w, w_queue w, w_executions w).

(* ===================================================================== *)
(** * A small installation *)
(* ===================================================================== *)

Module Sample.

Definition plugin_info : PluginInfo :=
  {| pi_plugin_id := "plugin-aws-ec2";
     pi_version := Some "1.0";
     pi_options := "{}";
     pi_upgrade_mode := Some "AUTO";
     pi_metadata := None;
     pi_secret_filters := None |}.

Definition collector : Collector :=
  {| c_collector_id := "collector-1";
     c_domain_id := "domain-1";
     c_provider := Some "aws";
     c_capability := None;
     c_plugin_info := plugin_info;
     c_last_collected := 0 |}.

Definition secret (secret_id : string) (project_id : option string) : Secret :=
  {| s_secret_id := secret_id;
     s_domain_id := "domain-1";
     s_provider := Some "aws";
     s_service_account_id := Some "sa-1";
     s_project_id := project_id;
     s_schema := Some "aws_access_key";
     s_data := "key-of-" +:+ secret_id |}.

Definition custom_rule : Rule :=
  {| r_payload := "by-hand";
     r_domain_id := "domain-1";
     r_collector_id := "collector-1";
     r_rule_type := CUSTOM |}.

Definition old_rule : Rule :=
  {| r_payload := "from-1.0";
     r_domain_id := "domain-1";
     r_collector_id := "collector-1";
     r_rule_type := MANAGED |}.

Definition metadata : Metadata :=
  {| collector_rules := Some [ {| rp_payload := "from-1.1" |} ] |}.

Definition world : World :=
  {| w_collector := Some collector;
     w_rules := [custom_rule; old_rule];
     w_job := None;
     w_job_tasks := [];
     w_queue := [];
     w_executions := [];
     w_projects := [];
     w_trace := [] |}.

Definition params : Params :=
  {| p_collector_id := "collector-1";
     p_domain_id := "domain-1";
     p_secret_id := None;
     p_use_cache := true |}.

Definition no_fault : Call -> option string := fun _ => None.

Definition fault_at (c : Call) (msg : string) : Call -> option string :=
  fun c' => if decide (c' = c) then Some msg else None.

(** The calls of [faults] raise, with the message given there. *)
Definition fault_in (faults : list (Call * string)) : Call -> option string :=
  fun c => snd <$> List.find (fun p => bool_decide (fst p = c)) faults.

(** An installation with the given faults, endpoint answer, secrets and
    queue; the task pipeline is constructed when [pipeline] is set. *)
Definition environment (fault : Call -> option string)
    (updated_version : option string) (secrets : list Secret)
    (queue_name : option string) (pipeline : bool) : Env :=
  {| e_fault := fault;
     e_repo_plugin :=
       {| rpl_capability := Some {| supported_providers := Some ["aws"; "azure"] |};
          rpl_provider := Some "aws" |};
     e_endpoint := "grpc://plugin-aws-ec2:50051";
     e_updated_version := updated_version;
     e_init_metadata := Some metadata;
     e_new_collector_id := "collector-1";
     e_new_job_id := "job-1";
     e_new_job_task_id := fun count => "job-task";
     e_secrets := secrets;
     e_task_pipeline := fun r => if pipeline then Some {| t_params := r |} else None;
     e_queue_name := queue_name;
     e_json := fun t => "{task for " +:+ rq_secret_id (t_params t) +:+ "}" |}.

Definition two_secrets : list Secret :=
  [secret "secret-a" (Some "project-1"); secret "secret-b" None].

Definition create_params (provider : option string) : CreateParams :=
  {| cp_name := "ec2";
     cp_plugin_info := plugin_info;
     cp_provider := provider;
     cp_schedule := None;
     cp_domain_id := "domain-1" |}.

(** Installations used below. *)
Definition plain : Env :=
  environment no_fault None two_secrets None false.

Definition queued : Env :=
  environment no_fault None two_secrets (Some "collector_q") true.

Definition no_secrets : Env :=
  environment no_fault None [] None false.

Definition unresolved_first : Env :=
  environment (fault_at (InLoop 1 "secret-a" GetSecret) "timeout")
    None two_secrets None false.

Definition unresolved_only : Env :=
  environment (fault_at (InLoop 1 "secret-a" GetSecret) "timeout")
    None [secret "secret-a" None] None false.

Definition crashing_second : Env :=
  environment
    (fault_in [(MakeInprogress, "database is slow");
               (InLoop 2 "secret-b" CollectingResources, "plugin crashed")])
    None two_secrets None false.

Definition failing_selection : Env :=
  environment (fault_at ListSecrets "secret service is down")
    None two_secrets None false.

(** The secret service is down and the job cannot be marked ERROR. *)
Definition failing_marking : Env :=
  environment
    (fault_in [(ListSecrets, "secret service is down"); (MakeError, "database is down")])
    None two_secrets None false.

(** No secret, and the job cannot be marked SUCCESS. *)
Definition failing_success : Env :=
  environment (fault_at MakeSuccess "database is down") None [] None false.

Definition failing_timestamp : Env :=
  environment (fault_at UpdateLastCollectedTime "database is down")
    None two_secrets None false.

Definition failing_final_update : Env :=
  environment (fault_at UpdateJob "database is down")
    None two_secrets None false.

Definition upgrading : Env :=
  environment no_fault (Some "1.1") two_secrets None false.

Definition failing_resync : Env :=
  environment (fault_at DeleteRules "database is down")
    (Some "1.1") two_secrets None false.

Definition request : ReqParams :=
  {| rq_plugin_info := plugin_info;
     rq_secret_id := "secret-a";
     rq_secret_data := "key-of-secret-a";
     rq_domain_id := "domain-1";
     rq_job_id := "job-1";
     rq_job_task_id := "job-task";
     rq_use_cache := true |}.

Definition accounts_filter : SecretFilter := {[ "service_accounts" := ["sa-1"] ]}.

End Sample.

(* ===================================================================== *)
(** * CollectorService: the schedule query and the plugin verification *)
(* ===================================================================== *)

(** A clause of the collector query of [scheduled_collectors]. *)
Inductive QueryValue := QStr (s : string) | QInt (n : Z).
Inductive QueryOp := QEq | QContain | QGt.
Record CollectorClause := { ck : string; cv : QueryValue; co : QueryOp }.

(** The request parameters of [scheduled_collectors]: the 'schedule'
    dict and the key 'domain_id', each of them when it is there. *)
Record ScheduleParams := {
  sp_schedule : option (gmap string Z);
  sp_domain_id : option string
}.

(** Lines 383-397 of [scheduled_collectors]: the filter of the query. *)
Definition scheduled_collectors_filter (params : ScheduleParams)
    : list CollectorClause :=
  let filter_query := [{| ck := "collector.state"; cv := QStr "ENABLED"; co := QEq |}] in
  let filter_query :=
    match sp_domain_id params with
    | Some domain_id =>
        filter_query ++ [{| ck := "domain_id"; cv := QStr domain_id; co := QEq |}]
    | None => filter_query
    end in
  let schedule := default ∅ (sp_schedule params) in
  match schedule !! "hour" with
  | Some hour =>
      filter_query ++ [{| ck := "schedule.hours"; cv := QInt hour; co := QContain |}]
  | None =>
      match schedule !! "minute" with
      | Some minute =>
          filter_query
          ++ [{| ck := "schedule.minute"; cv := QInt minute; co := QContain |}]
      | None =>
          match schedule !! "interval" with
          | Some _ =>
              filter_query
              ++ [{| ck := "schedule.interval"; cv := QInt 0; co := QGt |}]
          | None => filter_query
          end
      end
  end.

Section ScheduledCollectors.

(** [CollectorManager.list_collectors] is not in the source file; it is
    taken as it comes, applied to the filter of the query. *)
Context {R : Type}.
Variable list_collectors : list CollectorClause -> R.

(** [scheduled_collectors(params)], lines 363-399.

    Modelled from the spec: the decorator [check_required] of line 363 is
    not in the source file; it refuses a request without 'schedule' with
    ERROR_REQUIRED_PARAMETER before the body runs. *)
Definition scheduled_collectors (params : ScheduleParams) : Res R :=
  match sp_schedule params with
  | None => Raise (ERROR_REQUIRED_PARAMETER "schedule")
  | Some _ => Ok (list_collectors (scheduled_collectors_filter params))
  end.

End ScheduledCollectors.

(** The schedule axis that a 'schedule' dict asks for. *)
Inductive Axis := AxisHour (hour : Z) | AxisMinute (minute : Z) | AxisInterval | NoAxis.

Definition axis_of (schedule : gmap string Z) : Axis :=
  match schedule !! "hour", schedule !! "minute", schedule !! "interval" with
  | Some hour, _, _ => AxisHour hour
  | None, Some minute, _ => AxisMinute minute
  | None, None, Some _ => AxisInterval
  | None, None, None => NoAxis
  end.

Section VerifyPlugin.

Variable env : Env.

(** What [verify_plugin] uses and the source file does not have: the
    value of the plugin information under the key 'secret_filter', the
    secret manager's [get_secret_data] reduced to the 'data' key of its
    answer, and the plugin manager's [verify_plugin]. *)
Variable secret_filter_of : PluginInfo -> option SecretFilter.
Variable get_secret_data : string -> string -> Res (option string).
Variable plugin_verify : string -> string -> option string -> Res unit.

(** [verify_plugin(params)], lines 328-352.  The secret data handed to the
    plugin is [None] for the default [{}]. *)
Definition verify_plugin (params : Params) : M unit :=
  let collector_id := p_collector_id params in
  let domain_id := p_domain_id params in
  collector_vo <- get_collector env collector_id domain_id ;;
  let plugin_info := c_plugin_info collector_vo in
  r <- get_endpoint env (pi_plugin_id plugin_info) (pi_version plugin_info) domain_id
         (default "AUTO" (pi_upgrade_mode plugin_info)) ;;
  let endpoint := fst r in
  secret_ids <- list_secret_from_secret_filter env
                  (default ∅ (secret_filter_of plugin_info))
                  (p_secret_id params) domain_id ;;
  match secret_ids with
  | secret_id :: _ =>
      secret_data <- lift (get_secret_data secret_id domain_id) ;;
      lift (plugin_verify endpoint (pi_options plugin_info) secret_data)
  | [] => ret tt
  end.

End VerifyPlugin.

(* ===================================================================== *)
(** * Further observations of a run of collect *)
(* ===================================================================== *)

(** The CUSTOM rules of the rule store, in its order. *)
Definition custom_rules (w : World) : list Rule :=
  List.filter (fun r => bool_decide (r_rule_type r = CUSTOM)) (w_rules w).

(** The number of tasks handed over so far, to the queue or to the
    in-process execution. *)
Definition dispatched (w : World) : nat :=
  length (w_queue w) + length (w_executions w).

(** What the plugin information and the rules of a collector look like. *)
Definition plugin_and_rules (w : World) : option PluginInfo * list Rule :=
  (c_plugin_info <$> w_collector w, w_rules w).

(** What is stored: the world without the record of the calls. *)
Definition stores (w : World) : World := set_trace [] w.

(** The contributions of the iterations of a loop that has already
    handled [count] secrets, one after the other. *)
Fixpoint over_loop {A} (g : nat -> string -> list A) (count : nat)
    (secret_ids : list string) : list A :=
  match secret_ids with
  | [] => []
  | secret_id :: rest => g (S count) secret_id ++ over_loop g (S count) rest
  end.

Section MoreOutcomes.

Variable env : Env.
Variable params : Params.
Variable plugin_info : PluginInfo.
Variable created_job : string.

(** The project that the iteration for [secret_id] adds to [projects]:
    that of the secret, when it is not empty and the iteration got through
    the two increments and the resolution of the secret. *)
Definition resolved_project (count : nat) (secret_id : string) : list string :=
  let here := InLoop count secret_id in
  match e_fault env (here IncreaseTotalTasks), e_fault env (here IncreaseRemainedTasks),
        e_fault env (here GetSecret), find_secret env secret_id (p_domain_id params) with
  | None, None, None, Some s =>
      match if_truthy (s_project_id s) with
      | Some project_id => [project_id]
      | None => []
      end
  | _, _, _, _ => []
  end.

(** The job task that the iteration for [secret_id] stores: one, when the
    iteration got through the two increments, the resolution of the
    secret and the creation itself. *)
Definition task_for (count : nat) (secret_id : string) : list JobTask :=
  let here := InLoop count secret_id in
  match e_fault env (here IncreaseTotalTasks), e_fault env (here IncreaseRemainedTasks),
        e_fault env (here GetSecret), find_secret env secret_id (p_domain_id params),
        e_fault env (here CreateJobTask) with
  | None, None, None, Some s, None =>
      [{| jt_job_task_id := e_new_job_task_id env count;
          jt_job_id := created_job;
          jt_secret_info :=
            {| si_secret_id := secret_id;
               si_provider := if_truthy (s_provider s);
               si_service_account_id := if_truthy (s_service_account_id s);
               si_project_id := if_truthy (s_project_id s) |};
          jt_domain_id := p_domain_id params |}]
  | _, _, _, _, _ => []
  end.

(** No call of the body of the iteration for [secret_id] raises. *)
Definition completes (count : nat) (secret_id : string) (s : Secret) : bool :=
  bool_decide (first_fault env (InLoop count secret_id)
                 (body_steps env params plugin_info created_job count secret_id s)
               = None).

(** The queue entry of the iteration for [secret_id]: the serialized task
    pipeline of its collecting parameters under the configured queue
    name, when the body completes in the asynchronous mode. *)
Definition enqueued_for (count : nat) (secret_id : string) : list (string * string) :=
  match find_secret env secret_id (p_domain_id params) with
  | Some s =>
      match e_task_pipeline env
              (body_request env params plugin_info created_job count secret_id s) with
      | Some task =>
          if completes count secret_id s && truthy (e_queue_name env)
          then [(py_str (e_queue_name env), e_json env task)]
          else []
      | None => []
      end
  | None => []
  end.

(** The in-process execution of the iteration for [secret_id]: one, with
    the data of that secret, when the body completes in the synchronous
    mode. *)
Definition execution_for (count : nat) (secret_id : string) : list Execution :=
  match find_secret env secret_id (p_domain_id params) with
  | Some s =>
      let req_params :=
        body_request env params plugin_info created_job count secret_id s in
      if completes count secret_id s
         && negb (asynchronous (e_task_pipeline env req_params) (e_queue_name env))
      then [{| x_plugin_info := plugin_info;
               x_secret_data := s_data s;
               x_domain_id := p_domain_id params;
               x_job_id := created_job;
               x_use_cache := p_use_cache params |}]
      else []
  | None => []
  end.

(** The steps among [steps] that are called: all of them up to the
    first one that raises, that one included. *)
Fixpoint attempted (here : Step -> Call) (steps : list Step) : list Step :=
  match steps with
  | [] => []
  | step :: rest =>
      step :: match e_fault env (here step) with
              | Some _ => []
              | None => attempted here rest
              end
  end.

(** The calls of the iteration for [secret_id], whose secret is [s]: the
    steps of the body that are called, then the handler's call when one
    of them raised. *)
Definition iteration_calls (count : nat) (secret_id : string) (s : Secret)
    : list Call :=
  let here := InLoop count secret_id in
  let steps := body_steps env params plugin_info created_job count secret_id s in
  (here <$> attempted here steps)
  ++ match first_fault env here steps with
     | Some _ => [AddError]
     | None => []
     end.

End MoreOutcomes.

(** The samples of the schedule query. *)
Module ScheduleSample.

Definition hour_and_minute : ScheduleParams :=
  {| sp_schedule := Some {[ "hour" := 3%Z; "minute" := 15%Z ]};
     sp_domain_id := Some "domain-1" |}.

Definition hour_only : ScheduleParams :=
  {| sp_schedule := Some {[ "hour" := 3%Z ]};
     sp_domain_id := Some "domain-1" |}.

Definition without_schedule : ScheduleParams :=
  {| sp_schedule := None; sp_domain_id := Some "domain-1" |}.

End ScheduleSample.

(** More installations. *)
Module MoreSample.

(** A collector whose plugin information has no version. *)
Definition unversioned_world : World :=
  {| w_collector :=
       Some (collector_with_plugin_info
               (plugin_info_with None None Sample.plugin_info) Sample.collector);
     w_rules := [Sample.custom_rule; Sample.old_rule];
     w_job := None;
     w_job_tasks := [];
     w_queue := [];
     w_executions := [];
     w_projects := [];
     w_trace := [] |}.

(** The plugin answers the initialisation without 'metadata'. *)
Definition without_metadata (updated_version : option string) : Env :=
  {| e_fault := Sample.no_fault;
     e_repo_plugin := {| rpl_capability := None; rpl_provider := Some "aws" |};
     e_endpoint := "grpc://plugin-aws-ec2:50051";
     e_updated_version := updated_version;
     e_init_metadata := None;
     e_new_collector_id := "collector-1";
     e_new_job_id := "job-1";
     e_new_job_task_id := fun count => "job-task";
     e_secrets := Sample.two_secrets;
     e_task_pipeline := fun r => None;
     e_queue_name := None;
     e_json := fun t => "" |}.

(** Every iteration fails at its first call, the increment of the total
    of tasks. *)
Definition all_failing : Env :=
  Sample.environment
    (Sample.fault_in [(InLoop 1 "secret-a" IncreaseTotalTasks, "database is down");
                      (InLoop 2 "secret-b" IncreaseTotalTasks, "database is down")])
    None Sample.two_secrets None false.

(** The first secret, which has a project, is resolved, and the creation
    of its job task fails. *)
Definition failing_after_resolution : Env :=
  Sample.environment (Sample.fault_at (InLoop 1 "secret-a" CreateJobTask) "database is down")
    None Sample.two_secrets None false.

(** A plugin information without the key 'secret_filter', the data of
    the sample secrets, and a plugin that accepts one credential only. *)
Definition no_secret_filter (plugin_info : PluginInfo) : option SecretFilter := None.

Definition secret_data_of (secret_id domain_id : string) : Res (option string) :=
  Ok (Some ("key-of-" +:+ secret_id)).

Definition accepts_only (good : string) (endpoint options : string)
    (secret_data : option string) : Res unit :=
  if bool_decide (secret_data = Some good) then Ok tt
  else Raise (CollaboratorError "invalid credentials").

End MoreSample.
(* ===================================================================== *)
(** * Reasoning about runs *)
(* ===================================================================== *)

Section Preserves.

Context {B : Type} (f : World -> B).

Lemma preserves_ret {A} (a : A) : preserves f (ret a).
Proof. intros w. reflexivity. Qed.

Lemma preserves_raise {A} (e : Exn) : preserves f (raise (A:=A) e).
Proof. intros w. reflexivity. Qed.

Lemma preserves_gets {A} (g : World -> A) : preserves f (gets g).
Proof. intros w. reflexivity. Qed.

Lemma preserves_lift {A} (r : Res A) : preserves f (lift r).
Proof. destruct r; intros w; reflexivity. Qed.

Lemma preserves_read_job : preserves f read_job.
Proof. intros w. unfold read_job. destruct (w_job w); reflexivity. Qed.

Lemma preserves_modify (g : World -> World) :
  (forall w, f (g w) = f w) -> preserves f (modify g).
Proof. intros Hg w. apply Hg. Qed.

Lemma preserves_bind {A C} (c : M A) (g : A -> M C) :
  preserves f c -> (forall a, preserves f (g a)) -> preserves f (bind c g).
Proof.
  intros Hc Hg w. unfold bind. specialize (Hc w).
  destruct (c w) as [[a|e] w']; cbn [fst snd] in *; [rewrite Hg|]; exact Hc.
Qed.

Lemma preserves_try_except {A} (c : M A) (h : Exn -> M A) :
  preserves f c -> (forall e, preserves f (h e)) -> preserves f (try_except c h).
Proof.
  intros Hc Hh w. unfold try_except. specialize (Hc w).
  destruct (c w) as [[a|e] w']; cbn [fst snd] in *; [|rewrite Hh]; exact Hc.
Qed.

(** What follows a step does not matter for an observation it keeps. *)
Lemma preserves_after {A C} (c : M A) (g : A -> M C) w :
  (forall a, preserves f (g a)) -> f (bind c g w).2 = f (c w).2.
Proof.
  intros Hg. unfold bind.
  destruct (c w) as [[a|e] w']; cbn [fst snd]; [apply Hg|reflexivity].
Qed.

End Preserves.

Lemma pure_ret {A} (a : A) : pure_result (ret a).
Proof. intros w1 w2. reflexivity. Qed.

Lemma pure_raise {A} (e : Exn) : pure_result (raise (A:=A) e).
Proof. intros w1 w2. reflexivity. Qed.

Lemma pure_modify (g : World -> World) : pure_result (modify g).
Proof. intros w1 w2. reflexivity. Qed.

Lemma pure_bind {A C} (c : M A) (g : A -> M C) :
  pure_result c -> (forall a, pure_result (g a)) -> pure_result (bind c g).
Proof.
  intros Hc Hg w1 w2. unfold bind. specialize (Hc w1 w2).
  destruct (c w1) as [[a1|e1] w1'], (c w2) as [[a2|e2] w2']; cbn [fst snd] in *;
    try congruence.
  inversion Hc; subst. apply Hg.
Qed.

Lemma pure_try_except {A} (c : M A) (h : Exn -> M A) :
  pure_result c -> (forall e, pure_result (h e)) -> pure_result (try_except c h).
Proof.
  intros Hc Hh w1 w2. unfold try_except. specialize (Hc w1 w2).
  destruct (c w1) as [[a1|e1] w1'], (c w2) as [[a2|e2] w2']; cbn [fst snd] in *;
    try congruence.
  inversion Hc; subst. apply Hh.
Qed.

(** A [try] whose handler returns always returns. *)
Lemma try_except_returns (c : M unit) (h : Exn -> M unit) w :
  (forall e w', (h e w').1 = Ok tt) -> (try_except c h w).1 = Ok tt.
Proof.
  intros Hh. unfold try_except.
  destruct (c w) as [[[]|e] w']; cbn [fst snd]; [reflexivity|apply Hh].
Qed.

Lemma bind_raises {A C} (c : M A) (g : A -> M C) w e w' :
  c w = (Raise e, w') -> bind c g w = (Raise e, w').
Proof. intros H. unfold bind. rewrite H. reflexivity. Qed.

Lemma bind_returns {A C} (c : M A) (g : A -> M C) w a w' :
  c w = (Ok a, w') -> bind c g w = g a w'.
Proof. intros H. unfold bind. rewrite H. reflexivity. Qed.

(** Unfolding of the managers down to [bind], [modify], [ret], [raise]. *)
Ltac unfold_managers :=
  unfold get_plugin, get_collector, is_supported_schedule, create_collector,
    collector_vo_update, update_collector_by_vo, update_last_collected_time, make_collecting_parameters,
    create_task_pipeline, get_queue_name, get_endpoint, init_plugin,
    filter_collector_rules, delete_vos, create_collector_rule, create_job,
    make_success_by_vo, make_error_by_vo, add_error, make_inprogress_by_vo,
    increase_total_tasks_by_vo, increase_remained_tasks_by_vo, update_job_by_vo,
    create_job_task, get_secret, list_secrets, collecting_resources, validate,
    json_dumps, queue_put, call, log, modify_job.

(** Evaluation of a run on a world that is given field by field. *)
Ltac run_cbv :=
  cbv [bind ret raise modify gets try_except lift read_job
       set_collector set_rules set_job set_job_tasks set_queue set_executions
       set_projects set_trace
       w_collector w_rules w_job w_job_tasks w_queue w_executions w_projects w_trace
       fst snd fmap option_fmap option_map
       si_secret_id si_provider si_service_account_id si_project_id].

Tactic Notation "run_cbv" "in" hyp(H) :=
  cbv [bind ret raise modify gets try_except lift read_job
       set_collector set_rules set_job set_job_tasks set_queue set_executions
       set_projects set_trace
       w_collector w_rules w_job w_job_tasks w_queue w_executions w_projects w_trace
       fst snd fmap option_fmap option_map
       si_secret_id si_provider si_service_account_id si_project_id] in H.

(** The side condition of [preserves_modify]. *)
Ltac frame_side :=
  let w := fresh "w" in
  intros w;
  unfold job_errors, job_total, job_remained, job_state, job_exists, handled;
  cbn [w_collector w_rules w_job w_job_tasks w_queue w_executions w_projects w_trace
       set_collector set_rules set_job set_job_tasks set_queue set_executions
       set_projects set_trace];
  rewrite ?omap_app; cbn [omap list_omap app];
  rewrite ?app_nil_r;
  try reflexivity;
  try (destruct (w_job w); reflexivity).

Ltac frame_step :=
  match goal with
  | |- preserves _ (bind _ _) => apply preserves_bind; [|intros ?]
  | |- pure_result (bind _ _) => apply pure_bind; [|intros ?]
  | |- preserves _ (try_except _ _) => apply preserves_try_except; [|intros ?]
  | |- pure_result (try_except _ _) => apply pure_try_except; [|intros ?]
  | |- preserves _ (ret _) => apply preserves_ret
  | |- preserves _ (raise _) => apply preserves_raise
  | |- preserves _ (gets _) => apply preserves_gets
  | |- preserves _ (lift _) => apply preserves_lift
  | |- preserves _ read_job => apply preserves_read_job
  | |- pure_result (ret _) => apply pure_ret
  | |- pure_result (raise _) => apply pure_raise
  | |- pure_result (modify _) => apply pure_modify
  | |- preserves _ (modify _) => apply preserves_modify; frame_side
  | |- preserves _ (match ?x with _ => _ end) => destruct x
  | |- pure_result (match ?x with _ => _ end) => destruct x
  end.

Ltac frame := unfold_managers; repeat frame_step.

(* ===================================================================== *)
(** * One iteration of the loop *)
(* ===================================================================== *)

Section Iteration.

Variable env : Env.
Variable params : Params.
Variable plugin_info : PluginInfo.
Variable created_job : string.

Abbreviation body := (collect_secret_body env params plugin_info created_job).
Abbreviation iteration := (collect_secret env params plugin_info created_job).

Ltac open_body := unfold collect_secret_body, dispatch, _set_secret_info.
Ltac open_iteration := unfold collect_secret; open_body.

(** Every call of the body consults the oracle and the environment
    only. *)
Lemma body_pure count secret_id : pure_result (body count secret_id).
Proof. open_body. frame. Qed.

Lemma body_preserves_errors count secret_id :
  preserves job_errors (body count secret_id).
Proof. open_body. frame. Qed.

Lemma body_preserves_exists count secret_id :
  preserves job_exists (body count secret_id).
Proof. open_body. frame. Qed.

Lemma iteration_preserves_exists count secret_id :
  preserves job_exists (iteration count secret_id).
Proof. open_iteration. frame. Qed.

Lemma iteration_preserves_state count secret_id :
  preserves job_state (iteration count secret_id).
Proof. open_iteration. frame. Qed.

Lemma iteration_preserves_collector count secret_id :
  preserves w_collector (iteration count secret_id).
Proof. open_iteration. frame. Qed.

Lemma iteration_preserves_rules count secret_id :
  preserves w_rules (iteration count secret_id).
Proof. open_iteration. frame. Qed.

Lemma iteration_returns count secret_id w :
  (iteration count secret_id w).1 = Ok tt.
Proof. apply try_except_returns. intros e w'. reflexivity. Qed.

Lemma add_error_handled job domain code e ctx :
  preserves (fun w => handled (w_trace w)) (add_error job domain code e ctx).
Proof. frame. Qed.

Lemma add_error_total job domain code e ctx :
  preserves job_total (add_error job domain code e ctx).
Proof. frame. Qed.

Lemma add_error_tasks job domain code e ctx :
  preserves (fun w => length (w_job_tasks w)) (add_error job domain code e ctx).
Proof. frame. Qed.

Lemma add_error_errors job domain code e ctx w :
  job_exists w = true ->
  job_errors (add_error job domain code e ctx w).2
  = job_errors w ++ [{| err_code := code; err_cause := e; err_context := ctx |}].
Proof.
  unfold job_exists, job_errors, add_error, log, modify_job, modify, bind.
  cbn [fst snd w_job set_job set_trace].
  destruct (w_job w); [reflexivity|]. intros H.
  apply bool_decide_eq_true in H. destruct H as [? H]. discriminate.
Qed.

(** The handler adds the entry of the secret exactly when the body
    raised. *)
Lemma iteration_errors count secret_id w :
  job_exists w = true ->
  job_errors (iteration count secret_id w).2
  = job_errors w ++ failure_entries env params plugin_info created_job count secret_id.
Proof.
  intros Hj. unfold failure_entries, secret_failure, collect_secret, try_except.
  pose proof (body_pure count secret_id w empty_world) as Hpure.
  pose proof (body_preserves_errors count secret_id w) as Herr.
  pose proof (body_preserves_exists count secret_id w) as Hex.
  rewrite <- Hpure.
  destruct (body count secret_id w) as [[[]|e] w']; cbn [fst snd] in *.
  - rewrite app_nil_r. exact Herr.
  - rewrite add_error_errors by congruence. rewrite Herr. reflexivity.
Qed.

(** The exception of the body is that of the first of its calls that
    raises. *)
Lemma secret_failure_first_fault count secret_id s :
  find_secret env secret_id (p_domain_id params) = Some s ->
  secret_failure env params plugin_info created_job count secret_id
  = CollaboratorError
      <$> first_fault env (InLoop count secret_id)
            (body_steps env params plugin_info created_job count secret_id s).
Proof.
  intros Hs. unfold secret_failure, body_steps, body_request, asynchronous.
  open_body. unfold_managers. unfold empty_world. run_cbv. rewrite Hs.
  cbn [first_fault app].
  repeat match goal with
         | |- context [match e_fault env (InLoop count secret_id ?x) with _ => _ end] =>
             destruct (e_fault env (InLoop count secret_id x)); [reflexivity|]
         | |- context [match if_truthy ?x with _ => _ end] =>
             destruct (if_truthy x)
         | |- context [match e_task_pipeline env ?r with _ => _ end] =>
             destruct (e_task_pipeline env r);
             [rewrite bool_decide_eq_true_2 by (eexists; reflexivity)
             |rewrite bool_decide_eq_false_2 by (intros [? H]; discriminate)];
             cbn [andb]
         | |- context [truthy (e_queue_name env)] =>
             destruct (truthy (e_queue_name env))
         | _ => progress (run_cbv; cbn [jt_job_task_id first_fault])
         end;
    reflexivity.
Qed.

Lemma iteration_handled count secret_id w :
  handled (w_trace (iteration count secret_id w).2)
  = handled (w_trace w) ++ [(count, secret_id)].
Proof.
  unfold collect_secret, try_except.
  assert (handled (w_trace (body count secret_id w).2)
          = handled (w_trace w) ++ [(count, secret_id)]) as Hb.
  { unfold collect_secret_body.
    rewrite (preserves_after (fun w => handled (w_trace w))).
    - unfold increase_total_tasks_by_vo, call, log, modify_job, modify, bind, ret, raise.
      cbn [fst snd]. destruct (e_fault env _); cbn [fst snd w_trace set_trace set_job];
        unfold handled; rewrite omap_app; reflexivity.
    - intros _. open_body. frame. }
  destruct (body count secret_id w) as [[[]|e] w']; cbn [fst snd] in *; [exact Hb|].
  rewrite <- Hb. apply add_error_handled.
Qed.

Lemma iteration_total count secret_id w :
  job_exists w = true ->
  job_total (iteration count secret_id w).2
  = job_total w + registered env count secret_id.
Proof.
  intros Hj. unfold collect_secret, try_except.
  assert (job_total (body count secret_id w).2
          = job_total w + registered env count secret_id) as Hb.
  { unfold collect_secret_body.
    rewrite (preserves_after job_total).
    - unfold registered, increase_total_tasks_by_vo, call, log, modify_job, modify,
        bind, ret, raise, job_total, job_exists in *.
      apply bool_decide_eq_true in Hj. destruct Hj as [j Hj].
      cbn [fst snd]. destruct (e_fault env _); cbn [fst snd w_job set_trace set_job];
        rewrite Hj; simpl; lia.
    - intros _. open_body. frame. }
  destruct (body count secret_id w) as [[[]|e] w']; cbn [fst snd] in *; [exact Hb|].
  rewrite <- Hb. apply add_error_total.
Qed.

(** The two increments, followed by anything that leaves the counter of
    the remaining tasks alone. *)
Lemma counting_remained count secret_id (rest : M unit) w :
  preserves job_remained rest ->
  job_exists w = true ->
  let here := InLoop count secret_id in
  job_remained
    ((increase_total_tasks_by_vo env here created_job ;;
      increase_remained_tasks_by_vo env here created_job ;;
      rest) w).2
  = job_remained w + counted env count secret_id.
Proof.
  intros Hrest Hj here. unfold counted. fold here.
  unfold increase_total_tasks_by_vo, increase_remained_tasks_by_vo, call, log,
    modify_job.
  unfold preserves in Hrest. apply bool_decide_eq_true in Hj. destruct Hj as [j Hj].
  destruct w as [wc wr wj wt wq wx wp wtr]. cbn [w_job] in Hj. subst wj.
  run_cbv. run_cbv in Hrest.
  destruct (e_fault env (here IncreaseTotalTasks));
    [run_cbv; unfold job_remained; cbn; lia|].
  destruct (e_fault env (here IncreaseRemainedTasks));
    [run_cbv; unfold job_remained; cbn; lia|].
  rewrite Hrest. unfold job_remained. cbn. lia.
Qed.

Lemma iteration_remained count secret_id w :
  job_exists w = true ->
  job_remained (iteration count secret_id w).2
  = job_remained w + counted env count secret_id.
Proof.
  intros Hj. unfold collect_secret, try_except.
  assert (job_remained (body count secret_id w).2
          = job_remained w + counted env count secret_id) as Hb.
  { unfold collect_secret_body. apply counting_remained; [|exact Hj].
    open_body. frame. }
  destruct (body count secret_id w) as [[[]|e] w']; cbn [fst snd] in *; [exact Hb|].
  rewrite <- Hb.
  assert (preserves job_remained
            (add_error created_job (p_domain_id params) "ERROR_COLLECTOR_COLLECTING" e
               (CtxSecret secret_id))) as Hadd by frame.
  apply Hadd.
Qed.

(** The steps up to the creation of the job task, followed by anything
    that creates no job task. *)
Lemma registration_tasks count secret_id (rest : JobTask -> M unit) w :
  (forall t, preserves (fun w => length (w_job_tasks w)) (rest t)) ->
  let here := InLoop count secret_id in
  length (w_job_tasks
    ((increase_total_tasks_by_vo env here created_job ;;
      increase_remained_tasks_by_vo env here created_job ;;
      secret_info <- _set_secret_info env here secret_id (p_domain_id params) ;;
      match si_project_id secret_info with
      | Some project_id =>
          modify (fun w => set_projects (w_projects w ++ [project_id]) w)
      | None => ret tt
      end ;;
      job_task_vo <- create_job_task env here count created_job secret_info
                       (p_domain_id params) ;;
      rest job_task_vo) w).2)
  = length (w_job_tasks w) + task_created env params count secret_id.
Proof.
  intros Hrest here. unfold task_created. fold here.
  unfold _set_secret_info. unfold_managers.
  unfold preserves in Hrest.
  destruct w as [wc wr wj wt wq wx wp wtr]. run_cbv. run_cbv in Hrest.
  destruct (e_fault env (here IncreaseTotalTasks)); [run_cbv; lia|].
  destruct (e_fault env (here IncreaseRemainedTasks)); [run_cbv; lia|].
  destruct (e_fault env (here GetSecret)); [run_cbv; lia|].
  destruct (find_secret env secret_id (p_domain_id params)); [|run_cbv; lia].
  run_cbv.
  destruct (if_truthy (s_project_id s));
    (destruct (e_fault env (here CreateJobTask)); [run_cbv; lia|]);
    rewrite Hrest; rewrite length_app; reflexivity.
Qed.

Lemma iteration_tasks count secret_id w :
  length (w_job_tasks (iteration count secret_id w).2)
  = length (w_job_tasks w) + task_created env params count secret_id.
Proof.
  unfold collect_secret, try_except.
  assert (length (w_job_tasks (body count secret_id w).2)
          = length (w_job_tasks w) + task_created env params count secret_id) as Hb.
  { unfold collect_secret_body. apply registration_tasks.
    intros t. unfold dispatch. frame. }
  destruct (body count secret_id w) as [[[]|e] w']; cbn [fst snd] in *; [exact Hb|].
  rewrite <- Hb. apply add_error_tasks.
Qed.

End Iteration.

(* ===================================================================== *)
(** * The loop *)
(* ===================================================================== *)

Section Loop.

Variable env : Env.
Variable params : Params.
Variable plugin_info : PluginInfo.
Variable created_job : string.

Abbreviation loop := (collect_loop env params plugin_info created_job).

Lemma loop_cons count secret_id rest w :
  loop count (secret_id :: rest) w
  = loop (S count) rest
      (collect_secret env params plugin_info created_job (S count) secret_id w).2.
Proof.
  cbn [collect_loop]. unfold bind.
  pose proof (iteration_returns env params plugin_info created_job (S count)
                secret_id w) as Hr.
  destruct (collect_secret _ _ _ _ _ _ w) as [[[]|e] w']; cbn [fst snd] in *;
    [reflexivity|discriminate].
Qed.

(** The loop never raises, enters the iteration of every secret in
    order, and leaves in the job what the iterations add up to. *)
Lemma loop_run secret_ids : forall count w,
  job_exists w = true ->
  (loop count secret_ids w).1 = Ok tt
  /\ job_exists (loop count secret_ids w).2 = true
  /\ job_errors (loop count secret_ids w).2
     = job_errors w ++ loop_errors env params plugin_info created_job count secret_ids
  /\ handled (w_trace (loop count secret_ids w).2)
     = handled (w_trace w) ++ numbered count secret_ids
  /\ job_total (loop count secret_ids w).2
     = job_total w + loop_registered env count secret_ids
  /\ length (w_job_tasks (loop count secret_ids w).2)
     = length (w_job_tasks w) + loop_tasks env params count secret_ids
  /\ job_state (loop count secret_ids w).2 = job_state w
  /\ w_collector (loop count secret_ids w).2 = w_collector w
  /\ w_rules (loop count secret_ids w).2 = w_rules w.
Proof.
  induction secret_ids as [|secret_id rest IH]; intros count w Hj.
  - cbn [collect_loop loop_errors numbered loop_registered loop_tasks].
    unfold ret; cbn [fst snd]. rewrite !app_nil_r, !Nat.add_0_r. tauto.
  - rewrite loop_cons.
    cbn [loop_errors numbered loop_registered loop_tasks].
    set (w1 := (collect_secret env params plugin_info created_job (S count)
                  secret_id w).2).
    assert (job_exists w1 = true) as Hj1.
    { unfold w1. rewrite iteration_preserves_exists. exact Hj. }
    destruct (IH (S count) w1 Hj1) as (Hr & He & Herr & Hh & Ht & Hl & Hs & Hc & Hru).
    repeat split; try assumption.
    + rewrite Herr. unfold w1. rewrite iteration_errors by exact Hj.
      rewrite app_assoc. reflexivity.
    + rewrite Hh. unfold w1. rewrite iteration_handled.
      rewrite <- app_assoc. reflexivity.
    + rewrite Ht. unfold w1. rewrite iteration_total by exact Hj. lia.
    + rewrite Hl. unfold w1. rewrite iteration_tasks. lia.
    + rewrite Hs. unfold w1. apply iteration_preserves_state.
    + rewrite Hc. unfold w1. apply iteration_preserves_collector.
    + rewrite Hru. unfold w1. apply iteration_preserves_rules.
Qed.

Lemma loop_remained_run secret_ids : forall count w,
  job_exists w = true ->
  job_remained (loop count secret_ids w).2
  = job_remained w + loop_remained env count secret_ids.
Proof.
  induction secret_ids as [|secret_id rest IH]; intros count w Hj.
  - cbn. lia.
  - rewrite loop_cons. cbn [loop_remained].
    rewrite IH by (rewrite iteration_preserves_exists; exact Hj).
    rewrite iteration_remained by exact Hj. lia.
Qed.

(** The remaining tasks are counted after the total, and the job task is
    created after both. *)
Lemma loop_remained_le secret_ids : forall count,
  loop_tasks env params count secret_ids <= loop_remained env count secret_ids
  /\ loop_remained env count secret_ids <= loop_registered env count secret_ids.
Proof.
  induction secret_ids as [|secret_id rest IH]; intros count;
    cbn [loop_tasks loop_remained loop_registered]; [lia|].
  specialize (IH (S count)).
  assert (task_created env params (S count) secret_id <= counted env (S count) secret_id
          /\ counted env (S count) secret_id <= registered env (S count) secret_id) as H.
  { unfold task_created, counted, registered. repeat (case_match; try lia). }
  lia.
Qed.

Lemma loop_remained_all secret_ids : forall count,
  (forall i secret_id, secret_ids !! i = Some secret_id ->
     e_fault env (InLoop (count + S i) secret_id IncreaseTotalTasks) = None
     /\ e_fault env (InLoop (count + S i) secret_id IncreaseRemainedTasks) = None) ->
  loop_remained env count secret_ids = length secret_ids.
Proof.
  induction secret_ids as [|secret_id rest IH]; intros count H; cbn; [reflexivity|].
  unfold counted. destruct (H 0 secret_id eq_refl) as [H0 H1].
  rewrite Nat.add_1_r in H0, H1. rewrite H0, H1. rewrite IH; [reflexivity|].
  intros i s Hi. specialize (H (S i) s Hi).
  replace (S count + S i) with (count + S (S i)) by lia. exact H.
Qed.

Lemma loop_registered_le secret_ids : forall count,
  loop_registered env count secret_ids <= length secret_ids.
Proof.
  induction secret_ids as [|secret_id rest IH]; intros count; cbn; [lia|].
  specialize (IH (S count)). unfold registered.
  destruct (e_fault env _); lia.
Qed.

Lemma loop_tasks_le secret_ids : forall count,
  loop_tasks env params count secret_ids <= length secret_ids.
Proof.
  induction secret_ids as [|secret_id rest IH]; intros count;
    cbn [loop_tasks length]; [lia|].
  specialize (IH (S count)).
  assert (task_created env params (S count) secret_id <= 1) as H.
  { unfold task_created. repeat (case_match; try lia). }
  lia.
Qed.

Lemma loop_registered_all secret_ids : forall count,
  (forall i secret_id, secret_ids !! i = Some secret_id ->
     e_fault env (InLoop (count + S i) secret_id IncreaseTotalTasks) = None) ->
  loop_registered env count secret_ids = length secret_ids.
Proof.
  induction secret_ids as [|secret_id rest IH]; intros count H; cbn; [reflexivity|].
  unfold registered. pose proof (H 0 secret_id eq_refl) as H0.
  rewrite Nat.add_1_r in H0. rewrite H0. rewrite IH; [reflexivity|].
  intros i s Hi. specialize (H (S i) s Hi).
  replace (S count + S i) with (count + S (S i)) by lia. exact H.
Qed.

Lemma numbered_length secret_ids : forall count,
  length (numbered count secret_ids) = length secret_ids.
Proof.
  induction secret_ids as [|secret_id rest IH]; intros count; cbn; [reflexivity|].
  rewrite IH. reflexivity.
Qed.

Lemma numbered_lookup secret_ids : forall count i secret_id,
  secret_ids !! i = Some secret_id ->
  (count + S i, secret_id) ∈ numbered count secret_ids.
Proof.
  induction secret_ids as [|s rest IH]; intros count i secret_id Hi; [discriminate|].
  destruct i as [|i]; cbn in Hi.
  - inversion Hi; subst. rewrite Nat.add_1_r. cbn. apply list_elem_of_here.
  - cbn [numbered]. apply list_elem_of_further.
    replace (count + S (S i)) with (S count + S i) by lia. apply IH. exact Hi.
Qed.

Lemma loop_errors_lookup secret_ids : forall count i secret_id e,
  secret_ids !! i = Some secret_id ->
  secret_failure env params plugin_info created_job (count + S i) secret_id = Some e ->
  {| err_code := "ERROR_COLLECTOR_COLLECTING"; err_cause := e;
     err_context := CtxSecret secret_id |}
  ∈ loop_errors env params plugin_info created_job count secret_ids.
Proof.
  induction secret_ids as [|s rest IH]; intros count i secret_id e Hi He;
    [discriminate|].
  cbn [loop_errors]. apply elem_of_app.
  destruct i as [|i]; cbn in Hi.
  - inversion Hi; subst. left. rewrite Nat.add_1_r in He.
    unfold failure_entries. rewrite He. apply list_elem_of_here.
  - right. apply (IH (S count) i); [exact Hi|].
    replace (S count + S i) with (count + S (S i)) by lia. exact He.
Qed.

End Loop.

(* ===================================================================== *)
(** * collect, once the job exists *)
(* ===================================================================== *)

Section CollectJob.

Variable env : Env.
Variable params : Params.
Variable collector_vo : Collector.
Variable plugin_info : PluginInfo.
Variable created_job : string.

Abbreviation secret_ids := (eligible env params plugin_info).
Abbreviation run_job := (collect_job env params collector_vo plugin_info created_job).

(** Lines 281-282. *)
Abbreviation finish :=
  (update_last_collected_time env collector_vo ;;
   projects <- gets w_projects ;;
   update_job_by_vo env (list_to_set projects) created_job).

Lemma selection_run w :
  list_secret_from_secret_filter env (default ∅ (pi_secret_filters plugin_info))
    (p_secret_id params) (p_domain_id params) w
  = (match e_fault env ListSecrets with
     | Some msg => Raise (CollaboratorError msg)
     | None => Ok secret_ids
     end, set_trace (w_trace w ++ [ListSecrets]) w).
Proof.
  unfold eligible, list_secret_from_secret_filter, list_secrets, call, log, modify,
    bind, ret, raise.
  destruct (e_fault env ListSecrets); reflexivity.
Qed.

Lemma before_loop_facts w :
  job_exists (before_loop env created_job w) = job_exists w
  /\ job_errors (before_loop env created_job w) = job_errors w
  /\ handled (w_trace (before_loop env created_job w)) = handled (w_trace w)
  /\ job_total (before_loop env created_job w) = job_total w
  /\ w_job_tasks (before_loop env created_job w) = w_job_tasks w.
Proof.
  unfold before_loop, make_inprogress_by_vo, call, log, modify_job, modify, bind,
    try_except, ret, raise.
  destruct w as [wc wr wj wt wq wx wp wtr].
  unfold job_exists, job_errors, job_total, handled.
  destruct (e_fault env MakeInprogress); run_cbv;
    rewrite ?omap_app; cbn [omap list_omap app]; rewrite ?app_nil_r;
    destruct wj; repeat split; reflexivity.
Qed.

Lemma finish_preserves_errors : preserves job_errors finish.
Proof. frame. Qed.

Lemma finish_preserves_total : preserves job_total finish.
Proof. frame. Qed.

Lemma finish_preserves_exists : preserves job_exists finish.
Proof. frame. Qed.

Lemma finish_preserves_handled : preserves (fun w => handled (w_trace w)) finish.
Proof. frame. Qed.

Lemma finish_preserves_tasks : preserves w_job_tasks finish.
Proof. frame. Qed.

(** The result of the last two calls: the first fault among them, else
    the job. *)
Lemma finish_result w :
  job_exists w = true ->
  match e_fault env UpdateLastCollectedTime, e_fault env UpdateJob with
  | Some msg, _ => (finish w).1 = Raise (CollaboratorError msg)
  | None, Some msg => (finish w).1 = Raise (CollaboratorError msg)
  | None, None => exists job, (finish w).1 = Ok job /\ w_job (finish w).2 = Some job
  end.
Proof.
  intros Hj. apply bool_decide_eq_true in Hj. destruct Hj as [j Hj].
  unfold_managers. destruct w as [wc wr wj wt wq wx wp wtr].
  cbn [w_job] in Hj. subst wj.
  destruct (e_fault env UpdateLastCollectedTime); [reflexivity|].
  destruct (e_fault env UpdateJob); [reflexivity|].
  eexists. run_cbv. split; reflexivity.
Qed.

(** With a non-empty selection [collect] goes through the loop and ends
    with the last two calls. *)
Lemma collect_job_nonempty w :
  e_fault env ListSecrets = None ->
  nonempty secret_ids = true ->
  job_exists w = true ->
  run_job w = finish (after_loop env params plugin_info created_job w).
Proof.
  intros Hf Hne Hj.
  unfold collect_job. unfold bind at 1. unfold try_except at 1. unfold bind at 1.
  rewrite selection_run, Hf, Hne.
  unfold ret at 1. cbn iota beta.
  unfold bind at 1.
  pose proof (try_except_returns (make_inprogress_by_vo env created_job)
                (fun _ => ret tt) (set_trace (w_trace w ++ [ListSecrets]) w)
                (fun _ _ => eq_refl)) as Hip.
  destruct (try_except _ _ _) as [[[]|e] w2] eqn:Ew2; cbn [fst snd] in Hip;
    [|discriminate].
  unfold bind at 1. unfold modify at 1.
  unfold bind at 1.
  assert (before_loop env created_job w = set_projects [] w2) as Hb.
  { unfold before_loop. rewrite Ew2. reflexivity. }
  rewrite <- Hb.
  pose proof (loop_run env params plugin_info created_job secret_ids 0 (before_loop env created_job w))
    as Hl.
  destruct Hl as (Hr & _).
  { destruct (before_loop_facts w) as (-> & _). exact Hj. }
  unfold after_loop.
  destruct (collect_loop _ _ _ _ _ _ _) as [[[]|e] w4]; cbn [fst snd] in *;
    [reflexivity|discriminate].
Qed.

Lemma after_loop_facts w :
  job_exists w = true ->
  job_exists (after_loop env params plugin_info created_job w) = true
  /\ job_errors (after_loop env params plugin_info created_job w)
     = job_errors w ++ loop_errors env params plugin_info created_job 0 secret_ids
  /\ handled (w_trace (after_loop env params plugin_info created_job w)) = handled (w_trace w) ++ numbered 0 secret_ids
  /\ job_total (after_loop env params plugin_info created_job w) = job_total w + loop_registered env 0 secret_ids
  /\ length (w_job_tasks (after_loop env params plugin_info created_job w))
     = length (w_job_tasks w) + loop_tasks env params 0 secret_ids.
Proof.
  intros Hj. destruct (before_loop_facts w) as (He & Herr & Hh & Ht & Hk).
  unfold after_loop.
  destruct (loop_run env params plugin_info created_job secret_ids 0 (before_loop env created_job w))
    as (_ & He' & Herr' & Hh' & Ht' & Hk' & _).
  { rewrite He. exact Hj. }
  rewrite He', Herr', Hh', Ht', Hk', Herr, Hh, Ht, Hk. tauto.
Qed.

(** When the handler of the first [try] is entered (lines 224-228): the
    entry is added to the error log, the job is marked ERROR unless that
    raises, and the initialization error, or the exception of the
    marking, goes to the caller. *)
Lemma collect_job_aborts w j e :
  initialize_failure env params plugin_info = Some e ->
  w_job w = Some j ->
  exists trace,
    run_job w
    = (Raise (initialize_abort env),
       set_job
         (Some (job_with_state
                  (match e_fault env MakeError with
                   | Some _ => j_state j
                   | None => ERROR
                   end)
                  (job_with_errors
                     (errors j ++ [{| err_code := "ERROR_COLLECT_INITIALIZE";
                                      err_cause := e;
                                      err_context := CtxParams params |}]) j)))
         (set_trace trace w))
    /\ handled trace = handled (w_trace w).
Proof.
  intros He Hj. unfold initialize_failure, initialize_abort in *.
  remember (run_job w) as r eqn:Hr.
  unfold collect_job in Hr. unfold bind at 1 in Hr. unfold try_except at 1 in Hr.
  unfold bind at 1 in Hr. rewrite selection_run in Hr.
  destruct w as [wc wr wj wt wq wx wp wtr]. cbn [w_job] in Hj. subst wj.
  destruct (e_fault env ListSecrets) as [m|].
  - inversion He; subst e.
    unfold add_error, make_error_by_vo, make_success_by_vo, call, log, modify_job in Hr.
    run_cbv in Hr.
    exists (((wtr ++ [ListSecrets]) ++ [AddError]) ++ [MakeError]).
    destruct (e_fault env MakeError); run_cbv in Hr; subst r;
      (split; [destruct j; reflexivity|]);
      unfold handled; cbn [w_trace]; rewrite ?omap_app; cbn [omap list_omap];
      rewrite ?app_nil_r; reflexivity.
  - destruct (nonempty secret_ids); [discriminate|].
    destruct (e_fault env MakeSuccess) as [m|] eqn:Hs; [|discriminate].
    inversion He; subst e.
    unfold add_error, make_error_by_vo, make_success_by_vo, call, log, modify_job in Hr.
    run_cbv in Hr. rewrite Hs in Hr. run_cbv in Hr.
    exists ((((wtr ++ [ListSecrets]) ++ [MakeSuccess]) ++ [AddError]) ++ [MakeError]).
    destruct (e_fault env MakeError); run_cbv in Hr; subst r;
      (split; [destruct j; reflexivity|]);
      unfold handled; cbn [w_trace]; rewrite ?omap_app; cbn [omap list_omap];
      rewrite ?app_nil_r; reflexivity.
Qed.

(** When nothing is selected and the job can be marked: lines 219-222. *)
Lemma collect_job_nothing w j :
  e_fault env ListSecrets = None ->
  secret_ids = [] ->
  e_fault env MakeSuccess = None ->
  w_job w = Some j ->
  run_job w
  = (Ok (job_with_state SUCCESS j),
     set_job (Some (job_with_state SUCCESS j))
       (set_trace (w_trace w ++ [ListSecrets; MakeSuccess]) w)).
Proof.
  intros Hf He Hs Hj.
  unfold collect_job. unfold bind at 1. unfold try_except at 1. unfold bind at 1.
  rewrite selection_run, Hf, He.
  unfold_managers. destruct w as [wc wr wj wt wq wx wp wtr].
  cbn [w_job] in Hj. subst wj.
  cbn [nonempty]. run_cbv. rewrite Hs. run_cbv. rewrite <- !app_assoc. reflexivity.
Qed.

End CollectJob.

(* ===================================================================== *)
(** * The rules and the first part of collect *)
(* ===================================================================== *)

Section Setup.

Variable env : Env.

Lemma create_collector_rules_untouched rules : forall index domain_id collector_id,
  preserves untouched_by_setup
    (create_collector_rules env rules index domain_id collector_id).
Proof.
  induction rules as [|p rest IH]; intros index domain_id collector_id;
    cbn [create_collector_rules].
  - apply preserves_ret.
  - apply preserves_bind; [frame|intros _; apply IH].
Qed.

Lemma create_collector_rules_handled rules : forall index domain_id collector_id,
  preserves (fun w => handled (w_trace w))
    (create_collector_rules env rules index domain_id collector_id).
Proof.
  induction rules as [|p rest IH]; intros index domain_id collector_id;
    cbn [create_collector_rules].
  - apply preserves_ret.
  - apply preserves_bind; [frame|intros _; apply IH].
Qed.

Ltac open_setup :=
  unfold collect_setup, delete_collector_rules, create_collector_rules_by_metadata.

Lemma collect_setup_untouched params :
  preserves untouched_by_setup (collect_setup env params).
Proof. open_setup. frame; apply create_collector_rules_untouched. Qed.

Lemma collect_setup_handled params :
  preserves (fun w => handled (w_trace w)) (collect_setup env params).
Proof. open_setup. frame; apply create_collector_rules_handled. Qed.

(** A successful run of the loop of rule creation has appended one rule
    per entry, stamped with the two ids as the function received them. *)
Lemma create_collector_rules_ok rules :
  forall index domain_id collector_id w w',
    create_collector_rules env rules index domain_id collector_id w = (Ok tt, w') ->
    w_rules w' = w_rules w ++ (stamp domain_id collector_id <$> rules).
Proof.
  induction rules as [|p rest IH]; intros index domain_id collector_id w w' H;
    cbn [create_collector_rules] in H.
  - inversion H; subst. cbn. rewrite app_nil_r. reflexivity.
  - unfold create_collector_rule, call, log, modify, bind, ret, raise in H.
    cbn [fst snd] in H.
    destruct (e_fault env (CreateCollectorRule index)); [discriminate|].
    apply IH in H. rewrite H. cbn [w_rules set_rules set_trace fmap list_fmap].
    rewrite <- app_assoc. reflexivity.
Qed.

(** A fault at one of the entries makes the loop of rule creation
    raise. *)
Lemma create_collector_rules_fault rules :
  forall index domain_id collector_id w i,
    i < length rules ->
    is_Some (e_fault env (CreateCollectorRule (index + i))) ->
    exists msg,
      (create_collector_rules env rules index domain_id collector_id w).1
      = Raise (CollaboratorError msg).
Proof.
  induction rules as [|p rest IH]; intros index domain_id collector_id w i Hi Hf;
    cbn [length] in Hi; [lia|].
  cbn [create_collector_rules].
  unfold create_collector_rule, call, log, modify, bind, ret, raise. cbn [fst snd].
  destruct (e_fault env (CreateCollectorRule index)) as [msg|] eqn:E.
  - exists msg. reflexivity.
  - destruct i as [|i].
    + rewrite Nat.add_0_r, E in Hf. destruct Hf as [? Hf]. discriminate.
    + apply (IH (S index) _ _ _ i); [lia|].
      replace (S index + i) with (index + S i) by lia. exact Hf.
Qed.

(** [collect] stops where its first part stops. *)
Lemma collect_setup_raises params w e w' :
  collect_setup env params w = (Raise e, w') ->
  collect env params w = (Raise e, w').
Proof. intros H. unfold collect. apply bind_raises. exact H. Qed.

(** After its first part [collect] creates the job and goes on with it. *)
Lemma collect_after_setup params w collector_vo plugin_info w1 :
  collect_setup env params w = (Ok (collector_vo, plugin_info), w1) ->
  e_fault env CreateJob = None ->
  collect env params w
  = collect_job env params collector_vo plugin_info (e_new_job_id env)
      (job_created env collector_vo params w1).
Proof.
  intros H Hf. unfold collect. rewrite (bind_returns _ _ _ _ _ H).
  cbn [fst snd]. unfold create_job, call, log, modify, bind, ret. rewrite Hf.
  reflexivity.
Qed.

Lemma job_created_exists collector_vo params w :
  job_exists (job_created env collector_vo params w) = true.
Proof. reflexivity. Qed.

End Setup.

(* ===================================================================== *)
(** * The upgrade of the plugin version *)
(* ===================================================================== *)

Section Upgrade.

Variable env : Env.
Variable params : Params.
Variable w : World.
Variable c : Collector.
Variable version : string.
Variable metadata : Metadata.

(** The collector is found, the endpoint resolver reports a new version,
    the plugin answers with its metadata and the collector is updated. *)
Hypothesis Hcollector : w_collector w = Some c.
Hypothesis Hcollector_id : c_collector_id c = p_collector_id params.
Hypothesis Hdomain_id : c_domain_id c = p_domain_id params.
Hypothesis Hversion : pi_version (c_plugin_info c) = Some version.
Hypothesis Hupgrade : truthy (e_updated_version env) = true.
Hypothesis Hmetadata : e_init_metadata env = Some metadata.
Hypothesis Hget : e_fault env GetCollector = None.
Hypothesis Hendpoint : e_fault env GetEndpoint = None.
Hypothesis Hinit : e_fault env InitPlugin = None.
Hypothesis Hupdate : e_fault env UpdateCollector = None.

(** [collect_setup] then comes down to lines 209-210, run in the world
    [upgraded]. *)
Lemma collect_setup_upgrade :
  collect_setup env params w
  = (delete_collector_rules env (p_collector_id params) (p_domain_id params) ;;
     create_collector_rules_by_metadata env metadata (p_collector_id params)
       (p_domain_id params) ;;
     ret (upgraded_collector env c metadata,
          plugin_info_with (e_updated_version env) (Some metadata) (c_plugin_info c)))
      (upgraded env c metadata w).
Proof.
  unfold collect_setup, upgraded, upgraded_collector.
  unfold get_collector, get_endpoint, init_plugin, collector_vo_update, call, log.
  destruct w as [wc wr wj wt wq wx wp wtr]. cbn [w_collector] in Hcollector.
  subst wc. run_cbv.
  rewrite Hget. run_cbv.
  rewrite bool_decide_eq_true_2 by (split; assumption).
  rewrite Hversion. run_cbv. rewrite Hendpoint. run_cbv. rewrite Hupgrade.
  rewrite Hinit. run_cbv. rewrite Hmetadata. run_cbv. rewrite Hupdate. run_cbv.
  rewrite <- !app_assoc. reflexivity.
Qed.

(** When nothing fails in the resynchronisation either, the rules of the
    collector are the old ones without its MANAGED rules, followed by one
    rule per entry of the new metadata. *)
Lemma collect_setup_upgrade_rules :
  e_fault env FilterCollectorRules = None ->
  e_fault env DeleteRules = None ->
  (forall w', (create_collector_rules env (default [] (collector_rules metadata)) 0
                 (p_collector_id params) (p_domain_id params) w').1 = Ok tt) ->
  w_rules (collect_setup env params w).2
  = List.filter
      (fun r => negb (rule_selected (p_collector_id params) MANAGED
                        (p_domain_id params) r)) (w_rules w)
    ++ (stamp (p_collector_id params) (p_domain_id params)
          <$> default [] (collector_rules metadata)).
Proof.
  intros Hfilter Hdelete Hcreate. rewrite collect_setup_upgrade.
  unfold delete_collector_rules, create_collector_rules_by_metadata,
    filter_collector_rules, delete_vos, call, log.
  rewrite Hfilter, Hdelete. unfold upgraded.
  destruct w as [wc wr wj wt wq wx wp wtr]. run_cbv.
  match goal with
  | |- context [create_collector_rules ?e ?l ?i ?d ?k ?x] =>
      pose proof (Hcreate x) as Hc;
      pose proof (create_collector_rules_ok e l i d k x) as Hok;
      destruct (create_collector_rules e l i d k x) as [[[]|err] w'];
      cbn [fst] in Hc; [|discriminate]
  end.
  specialize (Hok w' eq_refl). run_cbv in Hok. run_cbv. exact Hok.
Qed.

(** A fault in the removal of the old rules or in the creation of a new
    one stops [collect_setup]. *)
Lemma collect_setup_resync_fault :
  is_Some (e_fault env FilterCollectorRules)
  \/ is_Some (e_fault env DeleteRules)
  \/ (exists i, i < length (default [] (collector_rules metadata))
                /\ is_Some (e_fault env (CreateCollectorRule i))) ->
  exists msg, (collect_setup env params w).1 = Raise (CollaboratorError msg).
Proof.
  intros Hfail. rewrite collect_setup_upgrade.
  unfold delete_collector_rules, create_collector_rules_by_metadata,
    filter_collector_rules, delete_vos, call, log.
  destruct (e_fault env FilterCollectorRules) as [m1|] eqn:E1.
  { exists m1. reflexivity. }
  destruct (e_fault env DeleteRules) as [m2|] eqn:E2.
  { exists m2. reflexivity. }
  destruct Hfail as [[? H]|[[? H]|(i & Hi & Hf)]]; try discriminate.
  unfold bind, modify, ret, raise. cbn [fst snd].
  match goal with
  | |- context [create_collector_rules ?e ?l ?n ?d ?k ?x] =>
      destruct (create_collector_rules_fault e l n d k x i Hi Hf) as (msg & Hc);
      destruct (create_collector_rules e l n d k x) as [[[]|err] w'];
      cbn [fst] in Hc; [discriminate|]
  end.
  exists msg. cbn [fst]. congruence.
Qed.

End Upgrade.

(** Without faults the loop of rule creation returns. *)
Lemma create_collector_rules_returns env rules :
  forall index domain_id collector_id w,
    (forall i, i < length rules -> e_fault env (CreateCollectorRule (index + i)) = None) ->
    (create_collector_rules env rules index domain_id collector_id w).1 = Ok tt.
Proof.
  induction rules as [|p rest IH]; intros index domain_id collector_id w H;
    cbn [create_collector_rules]; [reflexivity|].
  unfold create_collector_rule, call, log, modify, bind, ret, raise. cbn [fst snd].
  pose proof (H 0 ltac:(cbn; lia)) as H0. rewrite Nat.add_0_r in H0. rewrite H0.
  apply IH. intros i Hi. replace (S index + i) with (index + S i) by lia.
  apply H. cbn. lia.
Qed.

(* ===================================================================== *)
(** * The secret query *)
(* ===================================================================== *)

(** A secret that the selection of [collect] yields can be resolved. *)
Lemma eligible_found env params plugin_info secret_id :
  secret_id ∈ eligible env params plugin_info ->
  is_Some (find_secret env secret_id (p_domain_id params)).
Proof.
  unfold eligible, select_secrets. intros H.
  apply list_elem_of_fmap in H as (s & -> & Hs).
  apply list_elem_of_In in Hs. apply List.filter_In in Hs as [Hin Hb].
  apply andb_true_iff in Hb as [Hd _]. apply bool_decide_eq_true in Hd.
  unfold find_secret. destruct (List.find _ _) eqn:E; [eexists; reflexivity|].
  pose proof (List.find_none _ _ E s Hin) as Hn. cbn beta in Hn.
  apply bool_decide_eq_false in Hn. exfalso. apply Hn. split; [reflexivity|exact Hd].
Qed.

Lemma secret_field_secret_id s : secret_field "secret_id" s = Some (s_secret_id s).
Proof. reflexivity. Qed.

Lemma secret_field_service_account_id s :
  secret_field "service_account_id" s = s_service_account_id s.
Proof. reflexivity. Qed.

Lemma secret_field_schema s : secret_field "schema" s = s_schema s.
Proof. reflexivity. Qed.

(** The query that [list_secret_from_secret_filter] builds selects what
    the four clauses of the specification select. *)
Lemma query_matches_selected_by secret_filter secret_id s :
  let _filter := _set_secret_filter secret_filter secret_id in
  query_matches
    (if nonempty _filter then {| q_filter := Some _filter |} else {| q_filter := None |})
    s
  = selected_by secret_filter secret_id s.
Proof.
  cbv zeta.
  assert (forall l : list Clause,
            query_matches (if nonempty l then {| q_filter := Some l |}
                           else {| q_filter := None |}) s
            = forallb (fun c => clause_matches c s) l) as ->.
  { intros [|c l]; reflexivity. }
  unfold _set_secret_filter, selected_by.
  destruct (secret_filter !! "secrets") as [l1|],
           (secret_filter !! "service_accounts") as [l2|],
           (secret_filter !! "schemas") as [l3|],
           secret_id as [x|]; cbn [truthy app forallb];
    try destruct (bool_decide (x ≠ "")); cbn [app forallb];
    unfold clause_matches; cbn [k v o py_str py_in];
    rewrite ?secret_field_secret_id, ?secret_field_service_account_id,
      ?secret_field_schema; cbn [py_in];
    rewrite ?andb_true_r, ?andb_assoc; reflexivity.
Qed.

(* ===================================================================== *)
(** * collect, from the creation of the job on *)
(* ===================================================================== *)

Section AfterSetup.

Variable env : Env.
Variable params : Params.
Variable w w1 : World.
Variable collector_vo : Collector.
Variable plugin_info : PluginInfo.

(** The first part of [collect] went through and the job was created. *)
Hypothesis Hsetup : collect_setup env params w = (Ok (collector_vo, plugin_info), w1).
Hypothesis Hjob : e_fault env CreateJob = None.

Abbreviation secret_ids := (eligible env params plugin_info).
Abbreviation created_job := (e_new_job_id env).
Abbreviation started := (job_created env collector_vo params w1).

Lemma collect_run : collect env params w
                    = collect_job env params collector_vo plugin_info created_job started.
Proof. apply collect_after_setup; assumption. Qed.

Lemma setup_handled : handled (w_trace w1) = handled (w_trace w).
Proof.
  pose proof (collect_setup_handled env params w) as H. rewrite Hsetup in H. exact H.
Qed.

Lemma setup_tasks : w_job_tasks w1 = w_job_tasks w.
Proof.
  pose proof (collect_setup_untouched env params w) as H. rewrite Hsetup in H.
  unfold untouched_by_setup in H. cbn [snd] in H. congruence.
Qed.

Lemma started_handled : handled (w_trace started) = handled (w_trace w).
Proof.
  unfold job_created, handled. cbn [w_trace set_job set_trace].
  rewrite omap_app. cbn [omap list_omap]. rewrite app_nil_r. apply setup_handled.
Qed.

(** What the job and the trace hold when [collect] ends, whether it
    returns or raises, provided the secret service answered. *)
Lemma collect_facts :
  e_fault env ListSecrets = None ->
  job_exists (collect env params w).2 = true
  /\ job_errors (collect env params w).2
     = initialize_errors env params plugin_info
       ++ loop_errors env params plugin_info created_job 0 secret_ids
  /\ handled (w_trace (collect env params w).2)
     = handled (w_trace w) ++ numbered 0 secret_ids
  /\ job_total (collect env params w).2 = loop_registered env 0 secret_ids
  /\ length (w_job_tasks (collect env params w).2)
     = length (w_job_tasks w) + loop_tasks env params 0 secret_ids
  /\ job_remained (collect env params w).2 = loop_remained env 0 secret_ids.
Proof.
  intros Hsel. rewrite collect_run.
  unfold initialize_errors, initialize_failure. rewrite Hsel.
  destruct (nonempty secret_ids) eqn:Hne.
  - rewrite collect_job_nonempty by (assumption || reflexivity).
    rewrite finish_preserves_exists, finish_preserves_errors, finish_preserves_total,
      finish_preserves_tasks.
    rewrite (finish_preserves_handled env collector_vo created_job).
    assert (forall w0, job_remained
              ((update_last_collected_time env collector_vo ;;
                projects <- gets w_projects ;;
                update_job_by_vo env (list_to_set projects) created_job) w0).2
            = job_remained w0) as Hfinish.
    { change (preserves job_remained
                (update_last_collected_time env collector_vo ;;
                 projects <- gets w_projects ;;
                 update_job_by_vo env (list_to_set projects) created_job)).
      frame. }
    rewrite Hfinish.
    assert (job_remained (after_loop env params plugin_info created_job started)
            = loop_remained env 0 secret_ids) as ->.
    { unfold after_loop. rewrite loop_remained_run.
      - unfold before_loop, job_created, make_inprogress_by_vo, call, log, modify_job,
          job_remained.
        destruct w1 as [wc wr wj wt wq wx wp wtr]. run_cbv.
        destruct (e_fault env MakeInprogress); reflexivity.
      - destruct (before_loop_facts env created_job started) as (-> & _). reflexivity. }
    destruct (after_loop_facts env params plugin_info created_job started eq_refl)
      as (-> & -> & -> & -> & ->).
    rewrite started_handled. cbn [job_created w_job_tasks set_job set_trace].
    rewrite setup_tasks. repeat split; reflexivity.
  - destruct secret_ids as [|s l] eqn:Hids; [|discriminate].
    cbn [loop_errors numbered loop_registered loop_tasks loop_remained].
    rewrite !app_nil_r, Nat.add_0_r.
    destruct (e_fault env MakeSuccess) as [m|] eqn:Hms.
    + destruct (collect_job_aborts env params collector_vo plugin_info created_job
                  started (new_job env collector_vo params) (CollaboratorError m))
        as (trace & -> & Hh).
      { unfold initialize_failure. rewrite Hsel, Hids, Hms. reflexivity. }
      { reflexivity. }
      cbn [snd]. unfold job_exists, job_errors, job_total, job_remained.
      cbn [w_job w_trace w_job_tasks set_job set_trace job_created].
      rewrite Hh, started_handled, setup_tasks. repeat split; reflexivity.
    + rewrite (collect_job_nothing env params collector_vo plugin_info created_job started
                 (new_job env collector_vo params) Hsel Hids Hms eq_refl).
      cbn [snd]. unfold job_exists, job_errors, job_total, job_remained.
      cbn [w_job w_trace w_job_tasks set_job set_trace job_created].
      rewrite setup_tasks.
      repeat split; try reflexivity.
      unfold handled. rewrite !omap_app. cbn [omap list_omap]. rewrite !app_nil_r.
      apply setup_handled.
Qed.

(** When the handler of the first [try] is entered, [collect] ends with
    what the handler ends with. *)
Lemma collect_aborts e :
  initialize_failure env params plugin_info = Some e ->
  (collect env params w).1 = Raise (initialize_abort env)
  /\ job_state (collect env params w).2 = Some (aborted_state env)
  /\ job_errors (collect env params w).2
     = [{| err_code := "ERROR_COLLECT_INITIALIZE";
           err_cause := e;
           err_context := CtxParams params |}]
  /\ job_total (collect env params w).2 = 0
  /\ w_job_tasks (collect env params w).2 = w_job_tasks w.
Proof.
  intros He. rewrite collect_run.
  destruct (collect_job_aborts env params collector_vo plugin_info created_job started
              (new_job env collector_vo params) e He eq_refl) as (trace & -> & _).
  cbn [fst snd]. unfold job_state, job_errors, job_total, aborted_state.
  cbn [w_job w_job_tasks job_created set_job set_trace].
  rewrite setup_tasks.
  destruct (e_fault env MakeError); repeat split; reflexivity.
Qed.

(** When nothing is selected, [collect] writes to the job and to nothing
    else, whether the job can be marked SUCCESS or not. *)
Lemma collect_nothing_world :
  e_fault env ListSecrets = None ->
  secret_ids = [] ->
  exists job trace, (collect env params w).2 = set_job job (set_trace trace w1).
Proof.
  intros Hsel Hids. rewrite collect_run.
  destruct (e_fault env MakeSuccess) as [m|] eqn:Hms.
  - destruct (collect_job_aborts env params collector_vo plugin_info created_job
                started (new_job env collector_vo params) (CollaboratorError m))
      as (trace & -> & _).
    { unfold initialize_failure. rewrite Hsel, Hids, Hms. reflexivity. }
    { reflexivity. }
    eexists. exists trace. reflexivity.
  - rewrite (collect_job_nothing env params collector_vo plugin_info created_job started
               (new_job env collector_vo params) Hsel Hids Hms eq_refl).
    eexists. eexists. reflexivity.
Qed.

(** With a non-empty selection, the result of [collect] is that of its
    last two calls. *)
Lemma collect_result :
  e_fault env ListSecrets = None ->
  nonempty secret_ids = true ->
  match e_fault env UpdateLastCollectedTime, e_fault env UpdateJob with
  | Some msg, _ => (collect env params w).1 = Raise (CollaboratorError msg)
  | None, Some msg => (collect env params w).1 = Raise (CollaboratorError msg)
  | None, None =>
      exists job, (collect env params w).1 = Ok job
                  /\ w_job (collect env params w).2 = Some job
  end.
Proof.
  intros Hsel Hne. rewrite collect_run.
  rewrite collect_job_nonempty by (assumption || reflexivity).
  apply finish_result.
  apply (after_loop_facts env params plugin_info created_job started eq_refl).
Qed.

(** C1.  In [collect], whatever the list of eligible secrets, the iteration
    of every secret is entered, in the order of the list (the loop goes on
    after a failure), and the error log of the job ends up holding, for
    every secret whose loop body raised and for no other, one entry tagged
    ERROR_COLLECTOR_COLLECTING that carries the exception and the id of
    that secret.  The body raises whenever one of its calls does (the two
    counter increments, the resolution of the secret, the creation of the
    job task, the building of the payload and of the pipeline, the lookup
    of the queue name, then validation, serialization and enqueueing or
    the in-process execution): the exception of the first such call is
    the one recorded.  (Before these entries the log holds nothing, but
    for the entry of the first [try] when nothing is selected and the job
    cannot be marked SUCCESS.) *)
Theorem collect_isolates_secret_failures :
  e_fault env ListSecrets = None ->
  handled (w_trace (collect env params w).2)
  = handled (w_trace w) ++ numbered 0 secret_ids
  /\ job_errors (collect env params w).2
     = initialize_errors env params plugin_info
       ++ loop_errors env params plugin_info created_job 0 secret_ids
  /\ forall i secret_id,
       secret_ids !! i = Some secret_id ->
       (S i, secret_id) ∈ handled (w_trace (collect env params w).2)
       /\ exists s,
            find_secret env secret_id (p_domain_id params) = Some s
            /\ forall msg,
                 first_fault env (InLoop (S i) secret_id)
                   (body_steps env params plugin_info created_job (S i) secret_id s)
                 = Some msg ->
                 {| err_code := "ERROR_COLLECTOR_COLLECTING";
                    err_cause := CollaboratorError msg;
                    err_context := CtxSecret secret_id |}
                 ∈ job_errors (collect env params w).2.
Proof.
  intros Hsel. destruct (collect_facts Hsel) as (_ & Herr & Hh & _).
  split; [exact Hh|]. split; [exact Herr|].
  intros i secret_id Hi. split.
  - rewrite Hh. apply elem_of_app. right.
    apply (numbered_lookup secret_ids 0 i secret_id Hi).
  - destruct (eligible_found env params plugin_info secret_id) as [s Hs].
    { apply list_elem_of_lookup. exists i. exact Hi. }
    exists s. split; [exact Hs|]. intros msg Hm. rewrite Herr.
    apply elem_of_app. right.
    apply (loop_errors_lookup env params plugin_info created_job secret_ids 0 i secret_id
             (CollaboratorError msg) Hi).
    cbn [Nat.add].
    rewrite (secret_failure_first_fault env params plugin_info created_job (S i) secret_id s Hs).
    rewrite Hm. reflexivity.
Qed.


(** C8, as amended.  Once the selection has succeeded with a non-empty
    result, a failure to mark the job in progress and the failures of the
    per-secret steps are absorbed: [collect] raises exactly when the
    update of the last-collected timestamp or the final update of the job
    raises, with that exception, and otherwise returns the job, whose
    error log holds the per-secret failures. *)
Theorem collect_raises_only_at_the_end :
  e_fault env ListSecrets = None ->
  nonempty secret_ids = true ->
  match e_fault env UpdateLastCollectedTime, e_fault env UpdateJob with
  | Some msg, _ => (collect env params w).1 = Raise (CollaboratorError msg)
  | None, Some msg => (collect env params w).1 = Raise (CollaboratorError msg)
  | None, None =>
      exists job,
        (collect env params w).1 = Ok job
        /\ errors job = loop_errors env params plugin_info (e_new_job_id env) 0 secret_ids
        /\ total_tasks job = loop_registered env 0 secret_ids
  end.
Proof.
  intros Hsel Hne. pose proof (collect_result Hsel Hne) as Hres.
  destruct (collect_facts Hsel) as (_ & Herr & _ & Ht & _).
  unfold initialize_errors, initialize_failure in Herr.
  rewrite Hsel, Hne in Herr. cbn [app] in Herr.
  destruct (e_fault env UpdateLastCollectedTime); [exact Hres|].
  destruct (e_fault env UpdateJob); [exact Hres|].
  destruct Hres as (j & Hr & Hj). exists j. split; [exact Hr|].
  unfold job_errors, job_total in *. rewrite Hj in *. cbn in Herr, Ht. tauto.
Qed.

(** C3, as amended.  If the secret selection raises, an error of kind
    ERROR_COLLECT_INITIALIZE is recorded on the job created before and no
    job task is created; the job is then marked ERROR and an
    initialization error goes to the caller, unless marking the job ERROR
    raises, in which case that exception goes to the caller and the job
    stays CREATED.  After the creation of the job, [collect] raises on
    two further paths and on no other: when nothing is selected and
    marking the job SUCCESS raises, which is handled as a failure of the
    selection is; and when, after a non-empty selection, the update of
    the last-collected timestamp or the final update of the job raises,
    with that exception. *)
Theorem collect_selection_failure :
  (forall msg,
     e_fault env ListSecrets = Some msg ->
     job_errors (collect env params w).2
     = [{| err_code := "ERROR_COLLECT_INITIALIZE";
           err_cause := CollaboratorError msg;
           err_context := CtxParams params |}]
     /\ w_job_tasks (collect env params w).2 = w_job_tasks w
     /\ match e_fault env MakeError with
        | None =>
            (collect env params w).1 = Raise (ERROR_COLLECT_INITIALIZE "Secret Patch")
            /\ job_state (collect env params w).2 = Some ERROR
        | Some msg' =>
            (collect env params w).1 = Raise (CollaboratorError msg')
            /\ job_state (collect env params w).2 = Some CREATED
        end)
  /\ (forall e,
        (collect env params w).1 = Raise e <->
        ((is_Some (e_fault env ListSecrets)
          \/ (e_fault env ListSecrets = None
              /\ secret_ids = []
              /\ is_Some (e_fault env MakeSuccess)))
         /\ e = initialize_abort env)
        \/ (e_fault env ListSecrets = None
            /\ nonempty secret_ids = true
            /\ exists msg,
                 e = CollaboratorError msg
                 /\ (e_fault env UpdateLastCollectedTime = Some msg
                     \/ (e_fault env UpdateLastCollectedTime = None
                         /\ e_fault env UpdateJob = Some msg)))).
Proof.
  split.
  - intros msg Hsel.
    destruct (collect_aborts (CollaboratorError msg)) as (Hr & Hs & He & _ & Hk).
    { unfold initialize_failure. rewrite Hsel. reflexivity. }
    split; [exact He|]. split; [exact Hk|].
    unfold initialize_abort in Hr. unfold aborted_state in Hs.
    destruct (e_fault env MakeError); split; assumption.
  - intros e.
    destruct (initialize_failure env params plugin_info) as [e0|] eqn:Hinit.
    + destruct (collect_aborts e0 Hinit) as (Hr & _).
      unfold initialize_failure in Hinit. split.
      * intros He. left. split; [|congruence].
        destruct (e_fault env ListSecrets) as [m|]; [left; eexists; reflexivity|].
        right. split; [reflexivity|].
        destruct secret_ids; [|discriminate].
        split; [reflexivity|].
        destruct (e_fault env MakeSuccess); [eexists; reflexivity|discriminate].
      * intros [[_ ->]|(Hsel & Hne & _)]; [exact Hr|].
        rewrite Hsel, Hne in Hinit. discriminate.
    + unfold initialize_failure in Hinit.
      destruct (e_fault env ListSecrets) as [m|] eqn:Hsel; [discriminate|].
      destruct (nonempty secret_ids) eqn:Hne.
      * pose proof (collect_result Hsel Hne) as Hres. split.
        -- intros He. right. split; [reflexivity|]. split; [reflexivity|].
           destruct (e_fault env UpdateLastCollectedTime) as [m1|].
           { exists m1. split; [congruence|left; reflexivity]. }
           destruct (e_fault env UpdateJob) as [m2|].
           { exists m2. split; [congruence|right; split; reflexivity]. }
           destruct Hres as (j & Hr & _). congruence.
        -- intros [[[[m Hm]|(_ & Hnil & _)] _]|(_ & _ & msg & -> & Hm)].
           ++ discriminate.
           ++ rewrite Hnil in Hne. discriminate.
           ++ destruct Hm as [Hm|[Hm1 Hm2]].
              ** rewrite Hm in Hres. exact Hres.
              ** rewrite Hm1, Hm2 in Hres. exact Hres.
      * destruct secret_ids as [|s l] eqn:Hids; [|discriminate].
        destruct (e_fault env MakeSuccess) as [m|] eqn:Hms; [discriminate|].
        split.
        -- intros He. rewrite collect_run in He.
           rewrite (collect_job_nothing env params collector_vo plugin_info created_job
                      started (new_job env collector_vo params) Hsel Hids Hms eq_refl)
             in He.
           discriminate.
        -- intros [[[[m Hm]|(_ & _ & [m Hm])] _]|(_ & Hne' & _)]; discriminate.
Qed.

(** C4, as amended.  When the selection yields no eligible secret and the
    job can be marked SUCCESS, [collect] returns at once (after the
    selection the only call is the one that marks the job) the job in
    state SUCCESS, with a total of tasks of 0 and an empty error log, and
    no job task has been created.  When marking the job SUCCESS raises,
    [collect] returns no job: the exception is recorded on the job under
    ERROR_COLLECT_INITIALIZE and the handler of the selection ends the
    call, still with a total of tasks of 0 and no job task. *)
Theorem collect_nothing_to_collect :
  e_fault env ListSecrets = None ->
  secret_ids = [] ->
  match e_fault env MakeSuccess with
  | None =>
      exists job,
        (collect env params w).1 = Ok job
        /\ j_state job = SUCCESS
        /\ total_tasks job = 0
        /\ errors job = []
        /\ w_job_tasks (collect env params w).2 = w_job_tasks w
        /\ w_trace (collect env params w).2
           = w_trace w1 ++ [CreateJob; ListSecrets; MakeSuccess]
  | Some msg =>
      (collect env params w).1 = Raise (initialize_abort env)
      /\ job_state (collect env params w).2 = Some (aborted_state env)
      /\ job_errors (collect env params w).2
         = [{| err_code := "ERROR_COLLECT_INITIALIZE";
               err_cause := CollaboratorError msg;
               err_context := CtxParams params |}]
      /\ job_total (collect env params w).2 = 0
      /\ w_job_tasks (collect env params w).2 = w_job_tasks w
  end.
Proof.
  intros Hsel Hids. destruct (e_fault env MakeSuccess) as [msg|] eqn:Hms.
  - apply collect_aborts. unfold initialize_failure. rewrite Hsel, Hids, Hms.
    reflexivity.
  - rewrite collect_run.
    rewrite (collect_job_nothing env params collector_vo plugin_info created_job started
               (new_job env collector_vo params) Hsel Hids Hms eq_refl).
    eexists. split; [reflexivity|].
    cbn [snd w_job_tasks w_trace set_job set_trace job_created].
    rewrite setup_tasks, <- app_assoc. repeat split; reflexivity.
Qed.

End AfterSetup.

(** ** Runs of the sample installation *)

(** Two secrets, the first of which cannot be resolved: its failure is
    logged and the second is still handled. *)
Lemma collect_isolates_secret_failures_witness :
  handled (w_trace (collect Sample.unresolved_first Sample.params Sample.world).2)
  = [(1, "secret-a"); (2, "secret-b")]
  /\ job_errors (collect Sample.unresolved_first Sample.params Sample.world).2
     = [{| err_code := "ERROR_COLLECTOR_COLLECTING";
           err_cause := CollaboratorError "timeout";
           err_context := CtxSecret "secret-a" |}].
Proof.
  destruct (collect_isolates_secret_failures Sample.unresolved_first Sample.params
              Sample.world
              (collect_setup Sample.unresolved_first Sample.params Sample.world).2
              Sample.collector Sample.plugin_info) as (Hh & He & _).
  - vm_compute. reflexivity.
  - reflexivity.
  - reflexivity.
  - rewrite Hh, He. vm_compute. split; reflexivity.
Defined.



(** C8, as stated, fails: the selection succeeds with two secrets, every
    iteration goes through, and the final update of the job raises. *)
Lemma collect_raises_at_final_update :
  e_fault Sample.failing_final_update ListSecrets = None
  /\ eligible Sample.failing_final_update Sample.params Sample.plugin_info
     = ["secret-a"; "secret-b"]
  /\ (collect Sample.failing_final_update Sample.params Sample.world).1
     = Raise (CollaboratorError "database is down").
Proof. vm_compute. repeat split; reflexivity. Qed.

(** The job cannot be marked in progress and the execution for the second
    secret crashes: [collect] still returns the job. *)
Lemma collect_raises_only_at_the_end_witness :
  exists job,
    (collect Sample.crashing_second Sample.params Sample.world).1 = Ok job
    /\ errors job = [{| err_code := "ERROR_COLLECTOR_COLLECTING";
                        err_cause := CollaboratorError "plugin crashed";
                        err_context := CtxSecret "secret-b" |}]
    /\ total_tasks job = 2.
Proof.
  pose proof (collect_raises_only_at_the_end Sample.crashing_second Sample.params
                Sample.world
                (collect_setup Sample.crashing_second Sample.params Sample.world).2
                Sample.collector Sample.plugin_info) as H.
  destruct H as (job & Hr & He & Ht).
  - vm_compute. reflexivity.
  - reflexivity.
  - reflexivity.
  - reflexivity.
  - exists job. rewrite He, Ht. split; [exact Hr|]. vm_compute. split; reflexivity.
Defined.

(** C3, as stated, fails.  In its last part: the selection succeeds, the
    job exists, and [collect] is aborted by the update of the
    last-collected timestamp; and nothing is selected, and [collect] is
    aborted because the job cannot be marked SUCCESS.  In its first
    part: the selection raises and the job cannot be marked ERROR, so
    the job stays CREATED and the exception of the marking, not the
    initialization error, goes to the caller. *)
Lemma collect_aborts_after_selection :
  e_fault Sample.failing_timestamp ListSecrets = None
  /\ job_exists (collect Sample.failing_timestamp Sample.params Sample.world).2 = true
  /\ (collect Sample.failing_timestamp Sample.params Sample.world).1
     = Raise (CollaboratorError "database is down")
  /\ e_fault Sample.failing_success ListSecrets = None
  /\ job_exists (collect Sample.failing_success Sample.params Sample.world).2 = true
  /\ (collect Sample.failing_success Sample.params Sample.world).1
     = Raise (ERROR_COLLECT_INITIALIZE "Secret Patch")
  /\ e_fault Sample.failing_marking ListSecrets = Some "secret service is down"
  /\ (collect Sample.failing_marking Sample.params Sample.world).1
     = Raise (CollaboratorError "database is down")
  /\ job_state (collect Sample.failing_marking Sample.params Sample.world).2
     = Some CREATED.
Proof. vm_compute. repeat split; reflexivity. Qed.

Lemma collect_selection_failure_witness :
  job_errors (collect Sample.failing_selection Sample.params Sample.world).2
  = [{| err_code := "ERROR_COLLECT_INITIALIZE";
        err_cause := CollaboratorError "secret service is down";
        err_context := CtxParams Sample.params |}]
  /\ w_job_tasks (collect Sample.failing_selection Sample.params Sample.world).2 = []
  /\ (collect Sample.failing_selection Sample.params Sample.world).1
     = Raise (ERROR_COLLECT_INITIALIZE "Secret Patch")
  /\ job_state (collect Sample.failing_selection Sample.params Sample.world).2
     = Some ERROR.
Proof.
  destruct (collect_selection_failure Sample.failing_selection Sample.params
              Sample.world
              (collect_setup Sample.failing_selection Sample.params Sample.world).2
              Sample.collector Sample.plugin_info) as (H & _).
  - vm_compute. reflexivity.
  - reflexivity.
  - exact (H "secret service is down" eq_refl).
Defined.

Lemma collect_nothing_to_collect_witness :
  exists job,
    (collect Sample.no_secrets Sample.params Sample.world).1 = Ok job
    /\ j_state job = SUCCESS
    /\ total_tasks job = 0
    /\ errors job = []
    /\ w_job_tasks (collect Sample.no_secrets Sample.params Sample.world).2 = []
    /\ w_trace (collect Sample.no_secrets Sample.params Sample.world).2
       = [GetCollector; GetEndpoint; CreateJob; ListSecrets; MakeSuccess].
Proof.
  exact (collect_nothing_to_collect Sample.no_secrets Sample.params Sample.world
           (collect_setup Sample.no_secrets Sample.params Sample.world).2
           Sample.collector Sample.plugin_info eq_refl eq_refl eq_refl eq_refl).
Defined.

(** C4, as stated, fails: no secret is eligible, the selection itself
    went through, and the job cannot be marked SUCCESS.  [collect] returns
    no job: it raises the initialization error, and the job is in state
    ERROR with one entry in its error log. *)
Lemma collect_nothing_marked :
  e_fault Sample.failing_success ListSecrets = None
  /\ eligible Sample.failing_success Sample.params Sample.plugin_info = []
  /\ (collect Sample.failing_success Sample.params Sample.world).1
     = Raise (ERROR_COLLECT_INITIALIZE "Secret Patch")
  /\ job_state (collect Sample.failing_success Sample.params Sample.world).2
     = Some ERROR
  /\ job_errors (collect Sample.failing_success Sample.params Sample.world).2
     = [{| err_code := "ERROR_COLLECT_INITIALIZE";
           err_cause := CollaboratorError "database is down";
           err_context := CtxParams Sample.params |}].
Proof. vm_compute. repeat split; reflexivity. Qed.

(* ===================================================================== *)
(** * The upgrade of the plugin version and the rules *)
(* ===================================================================== *)

Section ResyncFailure.

Variable env : Env.
Variable params : Params.
Variable w : World.
Variable c : Collector.
Variable version : string.
Variable metadata : Metadata.

(** [collect] finds its collector, the endpoint resolver reports a new
    version, the plugin answers with its metadata and the collector is
    updated. *)
Hypothesis Hcollector : w_collector w = Some c.
Hypothesis Hcollector_id : c_collector_id c = p_collector_id params.
Hypothesis Hdomain_id : c_domain_id c = p_domain_id params.
Hypothesis Hversion : pi_version (c_plugin_info c) = Some version.
Hypothesis Hupgrade : truthy (e_updated_version env) = true.
Hypothesis Hmetadata : e_init_metadata env = Some metadata.
Hypothesis Hget : e_fault env GetCollector = None.
Hypothesis Hendpoint : e_fault env GetEndpoint = None.
Hypothesis Hinit : e_fault env InitPlugin = None.
Hypothesis Hupdate : e_fault env UpdateCollector = None.

(** C7, as amended.  During a [collect] in which the plugin version was
    upgraded, a failure inside the resynchronisation of the MANAGED rules
    (the selection or the removal of the old rules, or the creation of one
    of the new ones) goes to the caller of [collect]: no job is created,
    no job task, nothing is put on the queue and nothing is executed. *)
Theorem collect_stops_at_resync_failure :
  is_Some (e_fault env FilterCollectorRules)
  \/ is_Some (e_fault env DeleteRules)
  \/ (exists i, i < length (default [] (collector_rules metadata))
                /\ is_Some (e_fault env (CreateCollectorRule i))) ->
  exists msg,
    (collect env params w).1 = Raise (CollaboratorError msg)
    /\ w_job (collect env params w).2 = w_job w
    /\ w_job_tasks (collect env params w).2 = w_job_tasks w
    /\ w_queue (collect env params w).2 = w_queue w
    /\ w_executions (collect env params w).2 = w_executions w.
Proof.
  intros Hfail.
  destruct (collect_setup_resync_fault env params w c version metadata
              Hcollector Hcollector_id Hdomain_id Hversion Hupgrade Hmetadata
              Hget Hendpoint Hinit Hupdate Hfail) as (msg & Hr).
  pose proof (collect_setup_untouched env params w) as Hu.
  destruct (collect_setup env params w) as [[x|e] w'] eqn:Hs;
    cbn [fst snd] in Hr, Hu; [discriminate|].
  rewrite (collect_setup_raises env params w e w' Hs). cbn [fst snd].
  exists msg. unfold untouched_by_setup in Hu.
  repeat split; congruence.
Qed.

End ResyncFailure.

(** C7, as stated, fails: the version is upgraded and the removal of the
    old MANAGED rules raises.  [collect] raises and there is no job. *)
Lemma collect_resync_failure_is_fatal :
  truthy (e_updated_version Sample.failing_resync) = true
  /\ e_fault Sample.failing_resync DeleteRules = Some "database is down"
  /\ (collect Sample.failing_resync Sample.params Sample.world).1
     = Raise (CollaboratorError "database is down")
  /\ w_job (collect Sample.failing_resync Sample.params Sample.world).2 = None
  /\ w_job_tasks (collect Sample.failing_resync Sample.params Sample.world).2 = []
  /\ w_executions (collect Sample.failing_resync Sample.params Sample.world).2 = [].
Proof. vm_compute. repeat split; reflexivity. Qed.

Lemma collect_stops_at_resync_failure_witness :
  exists msg,
    (collect Sample.failing_resync Sample.params Sample.world).1
    = Raise (CollaboratorError msg)
    /\ w_job (collect Sample.failing_resync Sample.params Sample.world).2 = None
    /\ w_job_tasks (collect Sample.failing_resync Sample.params Sample.world).2 = []
    /\ w_queue (collect Sample.failing_resync Sample.params Sample.world).2 = []
    /\ w_executions (collect Sample.failing_resync Sample.params Sample.world).2 = [].
Proof.
  apply (collect_stops_at_resync_failure Sample.failing_resync Sample.params
           Sample.world Sample.collector "1.0" Sample.metadata);
    try reflexivity.
  right. left. exists "database is down". reflexivity.
Defined.

(** C2: the code does not do what the claim says.  The sample collector
    "collector-1" of domain "domain-1" has one CUSTOM and one MANAGED rule
    and is upgraded to metadata with one rule.  The old MANAGED rule is
    removed and the CUSTOM rule stays, but the new rule is stamped with
    the collector id as its domain id and the domain id as its collector
    id: the callers pass (metadata, collector_id, domain_id) to a function
    declared with (plugin_metadata, domain_id, collector_id).  A second
    upgrade therefore does not find the rule of the first one, and leaves
    it in place. *)
Theorem collect_upgrade_swaps_rule_ids :
  w_rules (collect Sample.upgrading Sample.params Sample.world).2
  = [Sample.custom_rule;
     {| r_payload := "from-1.1";
        r_domain_id := "collector-1";
        r_collector_id := "domain-1";
        r_rule_type := MANAGED |}]
  /\ w_rules
       (collect Sample.upgrading Sample.params
          (collect Sample.upgrading Sample.params Sample.world).2).2
     = [Sample.custom_rule;
        {| r_payload := "from-1.1";
           r_domain_id := "collector-1";
           r_collector_id := "domain-1";
           r_rule_type := MANAGED |};
        {| r_payload := "from-1.1";
           r_domain_id := "collector-1";
           r_collector_id := "domain-1";
           r_rule_type := MANAGED |}].
Proof. vm_compute. split; reflexivity. Qed.

(** [create] passes its arguments in the same order, and stamps the rule
    of the new collector in the same way. *)
Example create_swaps_rule_ids :
  w_rules (create Sample.plain (Sample.create_params (Some "aws")) empty_world).2
  = [{| r_payload := "from-1.1";
        r_domain_id := "collector-1";
        r_collector_id := "domain-1";
        r_rule_type := MANAGED |}].
Proof. vm_compute. reflexivity. Qed.

(* ===================================================================== *)
(** * The dispatch of one task *)
(* ===================================================================== *)

(** Lines 262-273 on their own: the task goes to the queue exactly when a
    task pipeline was constructed and a queue name is configured. *)
Lemma dispatch_run env here task queue_name req_params w :
  let r := dispatch env here task queue_name req_params w in
  if asynchronous task queue_name then
    exists task' name,
      task = Some task'
      /\ queue_name = Some name
      /\ w_executions r.2 = w_executions w
      /\ match e_fault env (here Validate), e_fault env (here JsonDumps),
               e_fault env (here QueuePut) with
         | None, None, None =>
             r.1 = Ok tt
             /\ w_queue r.2 = w_queue w ++ [(name, e_json env task')]
             /\ w_trace r.2
                = w_trace w ++ [here Validate; here JsonDumps; here QueuePut]
         | _, _, _ =>
             (exists msg, r.1 = Raise (CollaboratorError msg))
             /\ w_queue r.2 = w_queue w
         end
  else
    w_queue r.2 = w_queue w
    /\ w_trace r.2 = w_trace w ++ [here CollectingResources]
    /\ match e_fault env (here CollectingResources) with
       | None =>
           r.1 = Ok tt
           /\ w_executions r.2 = w_executions w ++ [execution_of req_params]
       | Some msg =>
           r.1 = Raise (CollaboratorError msg)
           /\ w_executions r.2 = w_executions w
       end.
Proof.
  assert (forall w,
            let r := collecting_resources env here (rq_plugin_info req_params)
                       (rq_secret_data req_params) (rq_domain_id req_params)
                       (rq_job_id req_params) (rq_use_cache req_params) w in
            w_queue r.2 = w_queue w
            /\ w_trace r.2 = w_trace w ++ [here CollectingResources]
            /\ match e_fault env (here CollectingResources) with
               | None =>
                   r.1 = Ok tt
                   /\ w_executions r.2 = w_executions w ++ [execution_of req_params]
               | Some msg =>
                   r.1 = Raise (CollaboratorError msg)
                   /\ w_executions r.2 = w_executions w
               end) as Hsync.
  { intros [wc wr wj wt wq wx wp wtr]. unfold_managers. run_cbv.
    destruct (e_fault env (here CollectingResources)); run_cbv;
      repeat split; reflexivity. }
  unfold asynchronous, dispatch.
  destruct task as [task'|]; [|apply Hsync].
  destruct queue_name as [name|]; [|apply Hsync].
  cbn [truthy]. rewrite bool_decide_eq_true_2 by (eexists; reflexivity).
  cbn [andb]. destruct (bool_decide (name ≠ "")); [|apply Hsync].
  cbv zeta. exists task', name. split; [reflexivity|]. split; [reflexivity|].
  destruct w as [wc wr wj wt wq wx wp wtr]. unfold_managers. run_cbv.
  cbn [py_str].
  destruct (e_fault env (here Validate)) as [m1|];
    [run_cbv; split; [reflexivity|]; split; [eexists|]; reflexivity|].
  destruct (e_fault env (here JsonDumps)) as [m2|];
    [run_cbv; split; [reflexivity|]; split; [eexists|]; reflexivity|].
  destruct (e_fault env (here QueuePut)) as [m3|];
    [run_cbv; split; [reflexivity|]; split; [eexists|]; reflexivity|].
  run_cbv. rewrite <- !app_assoc. repeat split; reflexivity.
Qed.

(** The scenario of section 8: a queue is configured and the pipeline is
    constructed, so the task of the secret is enqueued once and nothing
    is executed in process. *)
Example dispatch_queued :
  let r := dispatch Sample.queued (InLoop 1 "secret-a")
             (e_task_pipeline Sample.queued Sample.request)
             (e_queue_name Sample.queued) Sample.request Sample.world in
  w_queue r.2 = [("collector_q", "{task for secret-a}")] /\ w_executions r.2 = [].
Proof. vm_compute. split; reflexivity. Qed.

Example dispatch_in_process :
  let r := dispatch Sample.plain (InLoop 1 "secret-a")
             (e_task_pipeline Sample.plain Sample.request)
             (e_queue_name Sample.plain) Sample.request Sample.world in
  w_queue r.2 = [] /\ w_executions r.2 = [execution_of Sample.request].
Proof. vm_compute. split; reflexivity. Qed.

(* ===================================================================== *)
(** * The selection of the secrets *)
(* ===================================================================== *)

(** C9.  The query of the secret selection holds at most four clauses, one
    for each of the keys 'secrets', 'service_accounts' and 'schemas' that
    the filter has and one for the requested secret id when it is given;
    the secret service combines them with AND, so that the selection
    returns the ids of the secrets of the domain that satisfy every clause
    that applies, in the order of the secret service.  When no clause
    applies the query is empty and every secret of the domain is
    returned. *)
Theorem secret_selection env (secret_filter : SecretFilter) secret_id domain_id w :
  e_fault env ListSecrets = None ->
  length (_set_secret_filter secret_filter secret_id) <= 4
  /\ (list_secret_from_secret_filter env secret_filter secret_id domain_id w).1
     = Ok (s_secret_id <$>
             List.filter
               (fun s => bool_decide (s_domain_id s = domain_id)
                         && selected_by secret_filter secret_id s)
               (e_secrets env))
  /\ (secret_filter !! "secrets" = None ->
      secret_filter !! "service_accounts" = None ->
      secret_filter !! "schemas" = None ->
      truthy secret_id = false ->
      _set_secret_filter secret_filter secret_id = []
      /\ (list_secret_from_secret_filter env secret_filter secret_id domain_id w).1
         = Ok (s_secret_id <$>
                 List.filter (fun s => bool_decide (s_domain_id s = domain_id))
                   (e_secrets env))).
Proof.
  intros Hsel.
  assert ((list_secret_from_secret_filter env secret_filter secret_id domain_id w).1
          = Ok (s_secret_id <$>
                  List.filter
                    (fun s => bool_decide (s_domain_id s = domain_id)
                              && selected_by secret_filter secret_id s)
                    (e_secrets env))) as Hrun.
  { unfold list_secret_from_secret_filter, list_secrets, select_secrets, call, log,
      modify, bind, ret. rewrite Hsel. cbn [fst snd]. do 2 f_equal.
    apply List.filter_ext. intros s.
    pose proof (query_matches_selected_by secret_filter secret_id s) as Hq.
    cbv zeta in Hq. rewrite Hq. reflexivity. }
  split; [|split; [exact Hrun|]].
  - unfold _set_secret_filter.
    destruct (secret_filter !! "secrets"), (secret_filter !! "service_accounts"),
      (secret_filter !! "schemas"), (truthy secret_id); cbn; lia.
  - intros H1 H2 H3 H4. split.
    + unfold _set_secret_filter. rewrite H1, H2, H3, H4. reflexivity.
    + rewrite Hrun. do 2 f_equal. apply List.filter_ext. intros s.
      unfold selected_by. rewrite H1, H2, H3, H4. cbn [andb].
      rewrite andb_true_r. reflexivity.
Qed.

(** The scenario of section 8: the filter names the service account
    "sa-1", which both secrets of the sample belong to. *)
Lemma secret_selection_witness :
  (list_secret_from_secret_filter Sample.plain Sample.accounts_filter None "domain-1"
     Sample.world).1
  = Ok ["secret-a"; "secret-b"].
Proof.
  destruct (secret_selection Sample.plain Sample.accounts_filter None "domain-1"
              Sample.world) as (_ & H & _).
  - reflexivity.
  - rewrite H. vm_compute. reflexivity.
Defined.

(* ===================================================================== *)
(** * The provider of a new collector *)
(* ===================================================================== *)

Section CreateProvider.

Variable env : Env.
Variable params : CreateParams.
Variable w : World.

Hypothesis Hplugin : e_fault env GetPlugin = None.

(** When the provider is refused, [create] raises before it creates
    anything. *)
Lemma create_provider_refused e :
  _get_plugin_providers (cp_provider params) (e_repo_plugin env) = Raise e ->
  (create env params w).1 = Raise e
  /\ w_collector (create env params w).2 = w_collector w.
Proof.
  intros He. unfold create, _get_plugin_from_repository, get_plugin, call, log.
  rewrite Hplugin. destruct w as [wc wr wj wt wq wx wp wtr]. run_cbv.
  rewrite He. split; reflexivity.
Qed.

(** When it is accepted, the collector that [create] returns has it, and
    [create] returns when no collaborator fails. *)
Lemma create_provider_accepted provider :
  _get_plugin_providers (cp_provider params) (e_repo_plugin env) = Ok provider ->
  (forall c, (create env params w).1 = Ok c -> c_provider c = provider)
  /\ ((forall call, e_fault env call = None) ->
      exists c, (create env params w).1 = Ok c /\ c_provider c = provider).
Proof.
  intros Hp.
  split.
  - intros c. unfold create, _get_plugin_from_repository, get_plugin.
    unfold is_supported_schedule, create_collector, get_endpoint, init_plugin,
      update_collector_by_vo, call, log.
    rewrite Hplugin. destruct w as [wc wr wj wt wq wx wp wtr]. run_cbv.
    rewrite Hp.
    destruct (cp_schedule params);
      repeat match goal with
             | |- context [match e_fault env ?x with _ => _ end] =>
                 destruct (e_fault env x); run_cbv; try discriminate
             end;
      match goal with
      | |- context [create_collector_rules_by_metadata ?e ?m ?a ?b ?x] =>
          destruct (create_collector_rules_by_metadata e m a b x) as [[[]|err] w'];
          run_cbv; try discriminate
      end;
      intros H; inversion H; reflexivity.
  - intros Hall. unfold create, _get_plugin_from_repository, get_plugin.
    unfold is_supported_schedule, create_collector, get_endpoint, init_plugin,
      update_collector_by_vo, call, log.
    rewrite !Hall.
    pose proof (fun rules d k x =>
                  create_collector_rules_returns env rules 0 d k x
                    (fun i _ => Hall (CreateCollectorRule (0 + i)))) as Hc.
    unfold create_collector_rules_by_metadata.
    destruct w as [wc wr wj wt wq wx wp wtr]. run_cbv. rewrite Hp.
    destruct (cp_schedule params); run_cbv;
      match goal with
      | |- context [create_collector_rules ?e ?l ?i ?d ?k ?x] =>
          specialize (Hc l d k x);
          destruct (create_collector_rules e l i d k x) as [[[]|err] w'];
          cbn [fst] in Hc; [|discriminate]
      end;
      eexists; split; reflexivity.
Qed.

(** C10.  When the capability of the plugin lists supported providers,
    [create] accepts the provider of the request only if it is in the
    list and otherwise, also when the request has none, raises an
    invalid-parameter error before it creates anything.  When the list is
    empty or absent, the provider is that of the request if it has one,
    else that of the plugin.  The provider of the collector that [create]
    returns is the accepted one. *)
Theorem create_checks_provider :
  let plugin := e_repo_plugin env in
  let supported :=
    default []
      (supported_providers
         (default {| supported_providers := None |} (rpl_capability plugin))) in
  let provider := cp_provider params in
  if nonempty supported then
    if py_in provider supported then
      (forall c, (create env params w).1 = Ok c -> c_provider c = provider)
      /\ ((forall call, e_fault env call = None) ->
          exists c, (create env params w).1 = Ok c /\ c_provider c = provider)
    else
      (create env params w).1
      = Raise (ERROR_INVALID_PARAMETER "provider"
                 ("Not supported provider: " +:+ py_str provider))
      /\ w_collector (create env params w).2 = w_collector w
  else
    let chosen := if truthy provider then provider else rpl_provider plugin in
    (forall c, (create env params w).1 = Ok c -> c_provider c = chosen)
    /\ ((forall call, e_fault env call = None) ->
        exists c, (create env params w).1 = Ok c /\ c_provider c = chosen).
Proof.
  cbv zeta.
  destruct (nonempty _) eqn:Hn; [destruct (py_in _ _) eqn:Hin|].
  - apply create_provider_accepted. unfold _get_plugin_providers.
    rewrite Hn, Hin. reflexivity.
  - apply create_provider_refused. unfold _get_plugin_providers.
    rewrite Hn, Hin. reflexivity.
  - apply create_provider_accepted. unfold _get_plugin_providers.
    rewrite Hn. reflexivity.
Qed.

End CreateProvider.

(** The plugin of the sample supports "aws" and "azure": a request for
    "gcp" is refused, one without provider too, one for "azure" gives a
    collector of provider "azure". *)
Lemma create_checks_provider_witness :
  (create Sample.plain (Sample.create_params (Some "gcp")) empty_world).1
  = Raise (ERROR_INVALID_PARAMETER "provider" "Not supported provider: gcp")
  /\ w_collector
       (create Sample.plain (Sample.create_params (Some "gcp")) empty_world).2
     = None.
Proof.
  apply (create_checks_provider Sample.plain (Sample.create_params (Some "gcp"))
           empty_world).
  reflexivity.
Defined.

Example create_without_provider :
  (create Sample.plain (Sample.create_params None) empty_world).1
  = Raise (ERROR_INVALID_PARAMETER "provider" "Not supported provider: None").
Proof. vm_compute. reflexivity. Qed.

Example create_with_supported_provider :
  c_provider <$> w_collector
    (create Sample.plain (Sample.create_params (Some "azure")) empty_world).2
  = Some (Some "azure").
Proof. vm_compute. reflexivity. Qed.

(* ===================================================================== *)
(** * Further properties: the selection of the secrets *)
(* ===================================================================== *)

Section Selection.

Variable env : Env.
Variable secret_filter : SecretFilter.
Variable secret_id : option string.
Variable domain_id : string.
Variable w : World.

Hypothesis Hanswer : e_fault env ListSecrets = None.

(** The secrets behind the ids that the selection returns. *)
Lemma selection_result :
  (list_secret_from_secret_filter env secret_filter secret_id domain_id w).1
  = Ok (s_secret_id <$>
          List.filter
            (fun s => bool_decide (s_domain_id s = domain_id)
                      && selected_by secret_filter secret_id s)
            (e_secrets env)).
Proof.
  unfold list_secret_from_secret_filter, list_secrets, select_secrets, call, log,
    modify, bind, ret. rewrite Hanswer. cbn [fst snd]. do 2 f_equal.
  apply List.filter_ext. intros s.
  pose proof (query_matches_selected_by secret_filter secret_id s) as Hq.
  cbv zeta in Hq. rewrite Hq. reflexivity.
Qed.

Lemma selected_elem x :
  x ∈ s_secret_id <$>
        List.filter
          (fun s => bool_decide (s_domain_id s = domain_id)
                    && selected_by secret_filter secret_id s)
          (e_secrets env) ->
  exists s, s ∈ e_secrets env /\ s_secret_id s = x /\ s_domain_id s = domain_id
            /\ selected_by secret_filter secret_id s = true.
Proof.
  intros H. apply list_elem_of_fmap in H as (s & -> & Hs).
  apply list_elem_of_In, List.filter_In in Hs as [Hin Hb].
  apply andb_true_iff in Hb as [Hd Hsel]. apply bool_decide_eq_true in Hd.
  exists s. rewrite list_elem_of_In. tauto.
Qed.

(** X1.  The selection only returns ids of secrets that the secret
    service holds in the domain of the request, and no more ids than
    there are secrets. *)
Theorem selection_within_domain :
  exists secret_ids,
    (list_secret_from_secret_filter env secret_filter secret_id domain_id w).1
    = Ok secret_ids
    /\ length secret_ids <= length (e_secrets env)
    /\ forall x, x ∈ secret_ids ->
         exists s, s ∈ e_secrets env /\ s_secret_id s = x
                   /\ s_domain_id s = domain_id.
Proof.
  eexists. split; [apply selection_result|]. split.
  - rewrite length_fmap. apply List.filter_length_le.
  - intros x Hx. destruct (selected_elem x Hx) as (s & ? & ? & ? & _).
    exists s. tauto.
Qed.

(** X2.  When a secret id is requested, the selection returns no other
    id; and it returns nothing when the filter has a 'secrets' list that
    does not hold the requested id. *)
Theorem selection_requested_only :
  truthy secret_id = true ->
  exists secret_ids,
    (list_secret_from_secret_filter env secret_filter secret_id domain_id w).1
    = Ok secret_ids
    /\ (forall x, x ∈ secret_ids -> secret_id = Some x)
    /\ (forall l, secret_filter !! "secrets" = Some l ->
                  py_str secret_id ∉ l -> secret_ids = []).
Proof.
  intros Ht. eexists. split; [apply selection_result|].
  assert (forall x,
            x ∈ s_secret_id <$>
                  List.filter
                    (fun s => bool_decide (s_domain_id s = domain_id)
                              && selected_by secret_filter secret_id s)
                    (e_secrets env) ->
            secret_id = Some x
            /\ forall l, secret_filter !! "secrets" = Some l -> x ∈ l) as Hx.
  { intros x Hx. destruct (selected_elem x Hx) as (s & _ & <- & _ & Hsel).
    unfold selected_by in Hsel. rewrite Ht in Hsel.
    apply andb_true_iff in Hsel as [Hsel Hreq].
    apply andb_true_iff in Hsel as [Hsel _].
    apply andb_true_iff in Hsel as [Hsec _].
    apply bool_decide_eq_true in Hreq. split; [congruence|].
    intros l Hl. rewrite Hl in Hsec. apply bool_decide_eq_true in Hsec. exact Hsec. }
  split.
  - intros x Hin. apply (Hx x Hin).
  - intros l Hl Hnot.
    destruct (s_secret_id <$> _) as [|x rest] eqn:E; [reflexivity|].
    exfalso. destruct (Hx x) as [Hreq Hmem]; [apply list_elem_of_here|].
    apply Hnot. rewrite Hreq. cbn [py_str]. apply (Hmem l Hl).
Qed.

End Selection.

(** A filter that accepts less selects a sublist. *)
Lemma filter_sublist {A} (f g : A -> bool) (l : list A) :
  (forall x, f x = true -> g x = true) ->
  sublist (List.filter f l) (List.filter g l).
Proof.
  intros Hfg. induction l as [|x l IH]; cbn [List.filter]; [constructor|].
  destruct (f x) eqn:Hf.
  - rewrite (Hfg x Hf). constructor. exact IH.
  - destruct (g x); [constructor|]; exact IH.
Qed.

(** X3.  Adding a key to the secret filter, or requesting a secret id,
    can only narrow the selection: what is selected then is a sublist of
    what was selected before. *)
Theorem selection_narrows env (secret_filter : SecretFilter) secret_id domain_id w
    key (l : list string) :
  e_fault env ListSecrets = None ->
  secret_filter !! key = None ->
  exists narrow wide,
    (list_secret_from_secret_filter env (<[key := l]> secret_filter) secret_id
       domain_id w).1 = Ok narrow
    /\ (list_secret_from_secret_filter env secret_filter None domain_id w).1 = Ok wide
    /\ sublist narrow wide.
Proof.
  intros Hanswer Hkey. eexists. eexists.
  split; [apply selection_result; exact Hanswer|].
  split; [apply selection_result; exact Hanswer|].
  apply fmap_sublist. apply filter_sublist. intros s Hs.
  apply andb_true_iff in Hs as [Hd Hsel]. rewrite Hd. cbn [andb].
  unfold selected_by in *. cbn [truthy]. rewrite andb_true_r.
  apply andb_true_iff in Hsel as [Hsel _].
  apply andb_true_iff in Hsel as [Hsel H3].
  apply andb_true_iff in Hsel as [H1 H2].
  assert (forall k' (P : list string -> bool),
            match <[key := l]> secret_filter !! k' with
            | Some l' => P l'
            | None => true
            end = true ->
            match secret_filter !! k' with
            | Some l' => P l'
            | None => true
            end = true) as Hweak.
  { intros k' P. rewrite lookup_insert.
    destruct (decide (key = k')) as [Heq|Hne]; [|tauto].
    rewrite <- Heq, Hkey. reflexivity. }
  rewrite (Hweak "secrets" _ H1), (Hweak "service_accounts" _ H2),
    (Hweak "schemas" _ H3). reflexivity.
Qed.

(* ===================================================================== *)
(** * Further properties: the provider and the schedule query *)
(* ===================================================================== *)

(** X4.  The provider that [_get_plugin_providers] accepts is accepted
    again, unchanged, when it is checked against the same plugin. *)
Theorem get_plugin_providers_stable provider plugin_info accepted :
  _get_plugin_providers provider plugin_info = Ok accepted ->
  _get_plugin_providers accepted plugin_info = Ok accepted.
Proof.
  unfold _get_plugin_providers.
  destruct (nonempty _) eqn:Hn.
  - destruct (py_in provider _) eqn:Hin; [|discriminate].
    intros H. inversion H; subst. rewrite Hin. reflexivity.
  - intros H. inversion H as [H1]. f_equal.
    destruct (truthy provider) eqn:Ht.
    + rewrite Ht. reflexivity.
    + destruct (truthy (rpl_provider plugin_info)); reflexivity.
Qed.



(* ===================================================================== *)
(** * Further properties: what collect leaves alone *)
(* ===================================================================== *)

Lemma preserves_compose {A B C} (f : World -> B) (g : B -> C) (c : M A) :
  preserves f c -> preserves (fun w => g (f w)) c.
Proof. intros H w. cbv beta. rewrite H. reflexivity. Qed.

(** A step that gives a fixed value, followed by what uses the value. *)
Lemma preserves_bind_ret {A B C D} (f : World -> B) (c : M A) (v : C) (g : C -> M D) :
  preserves f c -> preserves f (g v) ->
  preserves f (bind (bind c (fun _ => ret v)) g).
Proof.
  intros Hc Hg w. unfold bind, ret. specialize (Hc w).
  destruct (c w) as [[a|e] w']; cbn [fst snd] in *; [rewrite Hg|]; exact Hc.
Qed.

(** The frame tactic with the side condition left to [side]. *)
Ltac frame_step_with side :=
  match goal with
  | |- preserves _ (bind _ _) => apply preserves_bind; [|intros ?]
  | |- preserves _ (try_except _ _) => apply preserves_try_except; [|intros ?]
  | |- preserves _ (ret _) => apply preserves_ret
  | |- preserves _ (raise _) => apply preserves_raise
  | |- preserves _ (gets _) => apply preserves_gets
  | |- preserves _ (lift _) => apply preserves_lift
  | |- preserves _ read_job => apply preserves_read_job
  | |- preserves _ (modify _) => apply preserves_modify; side
  | |- preserves _ (match ?x with _ => _ end) => destruct x
  end.

Ltac frame_with side := unfold_managers; repeat (frame_step_with side).

Section Keeps.

Variable env : Env.
Context {B : Type} (f : World -> B).

(** The observation does not look at the trace, at the job, at the local
    list of projects or at the last-collected timestamp. *)
Hypothesis Htrace : forall t w, f (set_trace t w) = f w.
Hypothesis Hjob : forall j w, f (set_job j w) = f w.
Hypothesis Hprojects : forall p w, f (set_projects p w) = f w.
Hypothesis Htouch :
  forall w, f (set_collector (collector_touch <$> w_collector w) w) = f w.

Ltac keep_side :=
  intros ?; cbv beta;
  first [apply Htrace | apply Hjob | apply Hprojects | apply Htouch].

Lemma call_keeps c : preserves f (call env c).
Proof. unfold call, log. frame_with keep_side. Qed.

Lemma add_error_keeps job domain code e ctx :
  preserves f (add_error job domain code e ctx).
Proof. frame_with keep_side. Qed.

Lemma loop_keeps params plugin_info created_job :
  (forall count secret_id,
     preserves f (collect_secret env params plugin_info created_job count secret_id)) ->
  forall secret_ids count,
    preserves f (collect_loop env params plugin_info created_job count secret_ids).
Proof.
  intros Hit secret_ids.
  induction secret_ids as [|secret_id rest IH]; intros count; cbn [collect_loop].
  - apply preserves_ret.
  - apply preserves_bind; [apply Hit|intros _; apply IH].
Qed.

Lemma collect_job_keeps params collector_vo plugin_info created_job :
  (forall count secret_id,
     preserves f (collect_secret env params plugin_info created_job count secret_id)) ->
  preserves f (collect_job env params collector_vo plugin_info created_job).
Proof.
  intros Hit. unfold collect_job, list_secret_from_secret_filter.
  frame_with keep_side. apply loop_keeps. exact Hit.
Qed.

Lemma collect_keeps params :
  preserves f (collect_setup env params) ->
  (forall plugin_info created_job count secret_id,
     preserves f (collect_secret env params plugin_info created_job count secret_id)) ->
  preserves f (collect env params).
Proof.
  intros Hsetup Hit. unfold collect.
  apply preserves_bind; [exact Hsetup|intros r].
  apply preserves_bind; [frame_with keep_side|intros created_job].
  apply collect_job_keeps. apply Hit.
Qed.

End Keeps.

Section CustomRules.

Variable env : Env.

Ltac rules_side :=
  intros ?; unfold custom_rules, plugin_and_rules;
  cbn [w_collector w_rules set_collector set_rules set_job set_job_tasks set_queue
       set_executions set_projects set_trace];
  try reflexivity.

Lemma custom_after_delete collector_id domain_id (rules : list Rule) :
  List.filter (fun r => bool_decide (r_rule_type r = CUSTOM))
    (List.filter (fun r => negb (rule_selected collector_id MANAGED domain_id r)) rules)
  = List.filter (fun r => bool_decide (r_rule_type r = CUSTOM)) rules.
Proof.
  induction rules as [|r rules IH]; [reflexivity|]. cbn [List.filter].
  destruct (rule_selected collector_id MANAGED domain_id r) eqn:Hsel; cbn [negb].
  - unfold rule_selected in Hsel. apply bool_decide_eq_true in Hsel as (_ & Ht & _).
    rewrite bool_decide_eq_false_2 by (rewrite Ht; discriminate). exact IH.
  - cbn [List.filter]. destruct (bool_decide _); [f_equal|]; exact IH.
Qed.

Lemma delete_collector_rules_custom collector_id domain_id :
  preserves custom_rules (delete_collector_rules env collector_id domain_id).
Proof.
  unfold delete_collector_rules, filter_collector_rules.
  apply preserves_bind_ret.
  - unfold call, log. frame_with rules_side.
  - unfold delete_vos, call, log. frame_with rules_side.
    apply custom_after_delete.
Qed.

Lemma create_collector_rules_custom rules : forall index domain_id collector_id,
  preserves custom_rules (create_collector_rules env rules index domain_id collector_id).
Proof.
  induction rules as [|p rest IH]; intros index domain_id collector_id;
    cbn [create_collector_rules].
  - apply preserves_ret.
  - apply preserves_bind; [|intros _; apply IH].
    frame_with rules_side. rewrite List.filter_app. cbn. apply app_nil_r.
Qed.

Lemma collect_setup_custom params :
  preserves custom_rules (collect_setup env params).
Proof.
  unfold collect_setup. frame_with rules_side.
  - apply delete_collector_rules_custom.
  - apply create_collector_rules_custom.
Qed.

(** X6.  [collect] never adds, removes, changes or reorders a CUSTOM
    rule, whether it upgrades the plugin or not and whatever fails. *)
Theorem collect_keeps_custom_rules params w :
  custom_rules (collect env params w).2 = custom_rules w.
Proof.
  apply (collect_keeps env custom_rules); try reflexivity.
  - apply collect_setup_custom.
  - intros plugin_info created_job count secret_id.
    apply (preserves_compose w_rules
             (List.filter (fun r => bool_decide (r_rule_type r = CUSTOM)))).
    apply iteration_preserves_rules.
Qed.

(** X7.  [create] never adds, removes, changes or reorders a CUSTOM rule
    either. *)
Theorem create_keeps_custom_rules params w :
  custom_rules (create env params w).2 = custom_rules w.
Proof.
  revert w. change (preserves custom_rules (create env params)).
  unfold create, _get_plugin_from_repository, create_collector_rules_by_metadata.
  frame_with rules_side; apply create_collector_rules_custom.
Qed.

End CustomRules.

Lemma preserves_pair {A B C} (f : World -> B) (g : World -> C) (c : M A) :
  preserves f c -> preserves g c -> preserves (fun w => (f w, g w)) c.
Proof. intros Hf Hg w. cbv beta. rewrite Hf, Hg. reflexivity. Qed.

Section LeftAlone.

Variable env : Env.

Ltac plain_side :=
  intros ?; unfold plugin_and_rules;
  cbn [w_collector w_rules w_queue w_executions set_collector set_rules set_job
       set_job_tasks set_queue set_executions set_projects set_trace];
  try reflexivity.

(** The steps of the body up to (not including) the call that [stop]
    recognises keep the observation. *)
Ltac frame_body_until_queue_name :=
  repeat match goal with
         | |- preserves _ (bind (get_queue_name _ _) _) => fail 1
         | |- preserves _ (bind _ _) =>
             apply preserves_bind; [solve [frame_with plain_side]|intros ?]
         end.

Ltac frame_body_until_pipeline :=
  repeat match goal with
         | |- preserves _ (bind (create_task_pipeline _ _ _ _) _) => fail 1
         | |- preserves _ (bind _ _) =>
             apply preserves_bind; [solve [frame_with plain_side]|intros ?]
         end.

Lemma iteration_without_queue params plugin_info created_job count secret_id :
  truthy (e_queue_name env) = false ->
  preserves w_queue (collect_secret env params plugin_info created_job count secret_id).
Proof.
  intros Hq. unfold collect_secret.
  apply preserves_try_except; [|intros e; frame_with plain_side].
  unfold collect_secret_body, _set_secret_info. cbv zeta.
  frame_body_until_queue_name.
  unfold get_queue_name. apply preserves_bind_ret; [unfold call, log; frame_with plain_side|].
  unfold dispatch. rewrite Hq.
  match goal with |- preserves _ (match ?t with _ => _ end) => destruct t end;
    frame_with plain_side.
Qed.

Lemma iteration_with_queue params plugin_info created_job count secret_id :
  truthy (e_queue_name env) = true ->
  (forall r, is_Some (e_task_pipeline env r)) ->
  preserves w_executions
    (collect_secret env params plugin_info created_job count secret_id).
Proof.
  intros Hq Hpipe. unfold collect_secret.
  apply preserves_try_except; [|intros e; frame_with plain_side].
  unfold collect_secret_body, _set_secret_info. cbv zeta.
  frame_body_until_pipeline.
  unfold create_task_pipeline.
  apply preserves_bind_ret; [unfold call, log; frame_with plain_side|].
  unfold get_queue_name.
  apply preserves_bind_ret; [unfold call, log; frame_with plain_side|].
  unfold dispatch. rewrite Hq.
  match goal with
  | |- context [e_task_pipeline env ?r] => destruct (Hpipe r) as [t ->]
  end.
  frame_with plain_side.
Qed.

Lemma collect_setup_queue params : preserves w_queue (collect_setup env params).
Proof.
  apply (preserves_compose untouched_by_setup (fun u => u.1.2)).
  apply collect_setup_untouched.
Qed.

Lemma collect_setup_executions params :
  preserves w_executions (collect_setup env params).
Proof.
  apply (preserves_compose untouched_by_setup (fun u => u.2)).
  apply collect_setup_untouched.
Qed.

(** X8.  When no queue name is configured, [collect] puts nothing on the
    queue, whatever the task pipeline gives and whatever fails. *)
Theorem collect_without_queue params w :
  truthy (e_queue_name env) = false ->
  w_queue (collect env params w).2 = w_queue w.
Proof.
  intros Hq. apply (collect_keeps env w_queue); try reflexivity.
  - apply collect_setup_queue.
  - intros. apply iteration_without_queue. exact Hq.
Qed.

(** X9.  When a queue name is configured and the task pipeline is always
    constructed, [collect] executes nothing in process, whatever fails. *)
Theorem collect_with_queue params w :
  truthy (e_queue_name env) = true ->
  (forall r, is_Some (e_task_pipeline env r)) ->
  w_executions (collect env params w).2 = w_executions w.
Proof.
  intros Hq Hpipe. apply (collect_keeps env w_executions); try reflexivity.
  - apply collect_setup_executions.
  - intros. apply iteration_with_queue; assumption.
Qed.

Lemma collect_setup_without_upgrade params :
  truthy (e_updated_version env) = false ->
  preserves plugin_and_rules (collect_setup env params).
Proof.
  intros Hno. unfold collect_setup. cbv zeta.
  apply preserves_bind; [frame_with plain_side|intros collector_vo].
  apply preserves_bind; [frame_with plain_side|intros version].
  unfold get_endpoint. apply preserves_bind_ret.
  - unfold call, log. frame_with plain_side.
  - cbn [fst snd]. rewrite Hno. apply preserves_ret.
Qed.

(** X10.  When the endpoint resolver reports no new version, [collect]
    leaves the plugin information of the collector and the whole rule
    store as they are, whatever fails. *)
Theorem collect_without_upgrade params w :
  truthy (e_updated_version env) = false ->
  plugin_and_rules (collect env params w).2 = plugin_and_rules w.
Proof.
  intros Hno. apply (collect_keeps env plugin_and_rules); try reflexivity.
  - intros w'. unfold plugin_and_rules. cbn [w_collector w_rules set_collector].
    destruct (w_collector w'); reflexivity.
  - apply collect_setup_without_upgrade. exact Hno.
  - intros. unfold plugin_and_rules.
    apply (preserves_pair (fun w => c_plugin_info <$> w_collector w) w_rules).
    + apply (preserves_compose w_collector (fmap c_plugin_info)).
      apply iteration_preserves_collector.
    + apply iteration_preserves_rules.
Qed.

End LeftAlone.

Lemma collect_without_queue_witness :
  w_queue (collect Sample.crashing_second Sample.params Sample.world).2 = [].
Proof. apply (collect_without_queue Sample.crashing_second). reflexivity. Defined.

Lemma collect_with_queue_witness :
  w_executions (collect Sample.queued Sample.params Sample.world).2 = [].
Proof.
  apply (collect_with_queue Sample.queued); [reflexivity|].
  intros r. eexists. reflexivity.
Defined.

Lemma collect_without_upgrade_witness :
  plugin_and_rules (collect Sample.crashing_second Sample.params Sample.world).2
  = (Some Sample.plugin_info, [Sample.custom_rule; Sample.old_rule]).
Proof. apply (collect_without_upgrade Sample.crashing_second). reflexivity. Defined.

(* ===================================================================== *)
(** * Further properties: missing keys *)
(* ===================================================================== *)

Section MissingKeys.

Variable env : Env.
Variable params : Params.
Variable w : World.
Variable c : Collector.

Hypothesis Hcollector : w_collector w = Some c.
Hypothesis Hcollector_id : c_collector_id c = p_collector_id params.
Hypothesis Hdomain_id : c_domain_id c = p_domain_id params.
Hypothesis Hget : e_fault env GetCollector = None.

(** X11.  When the plugin information of the collector has no 'version',
    [collect] raises a KeyError right after it has loaded the collector:
    the endpoint is not resolved and nothing is written. *)
Theorem collect_without_version :
  pi_version (c_plugin_info c) = None ->
  collect env params w
  = (Raise (KeyError "version"), set_trace (w_trace w ++ [GetCollector]) w).
Proof.
  intros Hv. unfold collect. apply bind_raises.
  unfold collect_setup, get_collector, call, log.
  destruct w as [wc wr wj wt wq wx wp wtr]. cbn [w_collector] in Hcollector.
  subst wc. run_cbv. rewrite Hget. run_cbv.
  rewrite bool_decide_eq_true_2 by (split; assumption).
  rewrite Hv. reflexivity.
Qed.

(** X12.  When the endpoint resolver reports a new version and the answer
    of the plugin has no 'metadata', [collect] raises a KeyError: the new
    version is not stored, the rules are not touched and no job is
    created. *)
Theorem collect_upgrade_without_metadata version :
  pi_version (c_plugin_info c) = Some version ->
  e_fault env GetEndpoint = None ->
  truthy (e_updated_version env) = true ->
  e_fault env InitPlugin = None ->
  e_init_metadata env = None ->
  collect env params w
  = (Raise (KeyError "metadata"),
     set_trace (w_trace w ++ [GetCollector; GetEndpoint; InitPlugin]) w).
Proof.
  intros Hv Hendpoint Hupgrade Hinit Hmeta. unfold collect. apply bind_raises.
  unfold collect_setup, get_collector, get_endpoint, init_plugin, call, log.
  destruct w as [wc wr wj wt wq wx wp wtr]. cbn [w_collector] in Hcollector.
  subst wc. run_cbv. rewrite Hget. run_cbv.
  rewrite bool_decide_eq_true_2 by (split; assumption).
  rewrite Hv. run_cbv. rewrite Hendpoint. run_cbv. rewrite Hupgrade.
  rewrite Hinit. run_cbv. rewrite Hmeta. run_cbv.
  rewrite <- !app_assoc. reflexivity.
Qed.

End MissingKeys.

Lemma collect_without_version_witness :
  collect Sample.plain Sample.params MoreSample.unversioned_world
  = (Raise (KeyError "version"),
     set_trace [GetCollector] MoreSample.unversioned_world).
Proof.
  apply (collect_without_version Sample.plain Sample.params
           MoreSample.unversioned_world
           (collector_with_plugin_info
              (plugin_info_with None None Sample.plugin_info) Sample.collector));
    reflexivity.
Defined.

Lemma collect_upgrade_without_metadata_witness :
  collect (MoreSample.without_metadata (Some "1.1")) Sample.params Sample.world
  = (Raise (KeyError "metadata"),
     set_trace [GetCollector; GetEndpoint; InitPlugin] Sample.world).
Proof.
  apply (collect_upgrade_without_metadata (MoreSample.without_metadata (Some "1.1"))
           Sample.params Sample.world Sample.collector eq_refl eq_refl eq_refl eq_refl
           "1.0");
    reflexivity.
Defined.

Lemma create_collector_rules_keeps env {B} (f : World -> B) rules :
  (forall t w, f (set_trace t w) = f w) ->
  (forall r w, f (set_rules r w) = f w) ->
  forall index domain_id collector_id,
    preserves f (create_collector_rules env rules index domain_id collector_id).
Proof.
  intros Ht Hr. induction rules as [|p rest IH]; intros index domain_id collector_id;
    cbn [create_collector_rules].
  - apply preserves_ret.
  - apply preserves_bind; [|intros _; apply IH].
    frame_with ltac:(intros ?; cbv beta; first [apply Ht | apply Hr]).
Qed.

Section CreateResult.

Variable env : Env.
Variable params : CreateParams.
Variable w : World.
Variable provider : option string.

Hypothesis Hclean : forall call, e_fault env call = None.
Hypothesis Hprovider :
  _get_plugin_providers (cp_provider params) (e_repo_plugin env) = Ok provider.

(** X13.  When no collaborator fails and the provider is accepted,
    [create] returns the collector that it has stored, with the accepted
    provider, the version that the endpoint resolver reports (the
    requested one when it reports none) and the metadata of the answer of
    the plugin; an answer without 'metadata' counts as empty metadata.  One
    rule is added for each entry of the metadata's collector rules. *)
Theorem create_result :
  let metadata := default {| collector_rules := None |} (e_init_metadata env) in
  exists c,
    (create env params w).1 = Ok c
    /\ w_collector (create env params w).2 = Some c
    /\ c_collector_id c = e_new_collector_id env
    /\ c_domain_id c = cp_domain_id params
    /\ c_provider c = provider
    /\ pi_version (c_plugin_info c)
       = (if truthy (e_updated_version env) then e_updated_version env
          else pi_version (cp_plugin_info params))
    /\ pi_metadata (c_plugin_info c) = Some metadata
    /\ length (w_rules (create env params w).2)
       = length (w_rules w) + length (default [] (collector_rules metadata)).
Proof.
  cbv zeta. unfold create, _get_plugin_from_repository, get_plugin.
  unfold is_supported_schedule, create_collector, get_endpoint, init_plugin,
    update_collector_by_vo, call, log.
  rewrite !Hclean.
  pose proof (fun rules d k x =>
                create_collector_rules_returns env rules 0 d k x
                  (fun i _ => Hclean (CreateCollectorRule (0 + i)))) as Hc.
  pose proof (fun rules d k x => create_collector_rules_ok env rules 0 d k x) as Hok.
  pose proof (fun rules d k x =>
                create_collector_rules_keeps env w_collector rules
                  (fun _ _ => eq_refl) (fun _ _ => eq_refl) 0 d k x) as Hkeep.
  unfold create_collector_rules_by_metadata.
  destruct w as [wc wr wj wt wq wx wp wtr]. run_cbv. rewrite Hprovider.
  destruct (cp_schedule params); run_cbv;
    match goal with
    | |- context [create_collector_rules ?e ?l ?i ?d ?k ?x] =>
        specialize (Hc l d k x); specialize (Hok l d k x);
        specialize (Hkeep l d k x);
        destruct (create_collector_rules e l i d k x) as [[[]|err] w'];
        cbn [fst snd] in Hc, Hkeep; [|discriminate]
    end;
    specialize (Hok w' eq_refl); run_cbv in Hok; run_cbv in Hkeep;
    (eexists; split; [reflexivity|]);
    rewrite Hkeep, Hok, length_app, length_fmap;
    repeat split; reflexivity.
Qed.

End CreateResult.

Lemma create_result_witness :
  exists c,
    (create (MoreSample.without_metadata None) (Sample.create_params (Some "aws"))
       empty_world).1 = Ok c
    /\ pi_version (c_plugin_info c) = Some "1.0"
    /\ pi_metadata (c_plugin_info c) = Some {| collector_rules := None |}
    /\ w_rules
         (create (MoreSample.without_metadata None) (Sample.create_params (Some "aws"))
            empty_world).2 = [].
Proof.
  destruct (create_result (MoreSample.without_metadata None)
              (Sample.create_params (Some "aws")) empty_world (Some "aws"))
    as (c & Hr & _ & _ & _ & _ & Hv & Hm & Hl).
  - reflexivity.
  - reflexivity.
  - exists c. split; [exact Hr|]. split; [exact Hv|]. split; [exact Hm|].
    apply nil_length_inv. exact Hl.
Defined.

(* ===================================================================== *)
(** * Further properties: what collect returns and leaves behind *)
(* ===================================================================== *)

Section IterationMore.

Variable env : Env.
Variable params : Params.
Variable plugin_info : PluginInfo.
Variable created_job : string.

Abbreviation iteration' := (collect_secret env params plugin_info created_job).
Abbreviation loop' := (collect_loop env params plugin_info created_job).

Ltac more_side :=
  intros ?; unfold dispatched;
  cbn [w_collector w_rules w_job w_job_tasks w_queue w_executions w_projects
       set_collector set_rules set_job set_job_tasks set_queue set_executions
       set_projects set_trace];
  try reflexivity.

(** The steps up to the addition of the project, followed by anything
    that leaves the list of projects alone. *)
Lemma resolution_projects count secret_id (rest : SecretInfo -> M unit) w :
  (forall secret_info, preserves w_projects (rest secret_info)) ->
  let here := InLoop count secret_id in
  w_projects
    ((increase_total_tasks_by_vo env here created_job ;;
      increase_remained_tasks_by_vo env here created_job ;;
      secret_info <- _set_secret_info env here secret_id (p_domain_id params) ;;
      match si_project_id secret_info with
      | Some project_id =>
          modify (fun w => set_projects (w_projects w ++ [project_id]) w)
      | None => ret tt
      end ;;
      rest secret_info) w).2
  = w_projects w ++ resolved_project env params count secret_id.
Proof.
  intros Hrest here. unfold resolved_project. fold here.
  unfold _set_secret_info. unfold_managers. unfold preserves in Hrest.
  destruct w as [wc wr wj wt wq wx wp wtr]. run_cbv. run_cbv in Hrest.
  destruct (e_fault env (here IncreaseTotalTasks)); [run_cbv; symmetry; apply app_nil_r|].
  destruct (e_fault env (here IncreaseRemainedTasks));
    [run_cbv; symmetry; apply app_nil_r|].
  destruct (e_fault env (here GetSecret)); [run_cbv; symmetry; apply app_nil_r|].
  destruct (find_secret env secret_id (p_domain_id params));
    [|run_cbv; symmetry; apply app_nil_r].
  run_cbv. destruct (if_truthy (s_project_id s)); rewrite Hrest;
    [reflexivity|symmetry; apply app_nil_r].
Qed.

Lemma iteration_projects count secret_id w :
  w_projects (iteration' count secret_id w).2
  = w_projects w ++ resolved_project env params count secret_id.
Proof.
  unfold collect_secret, try_except.
  assert (w_projects (collect_secret_body env params plugin_info created_job count
                        secret_id w).2
          = w_projects w ++ resolved_project env params count secret_id) as Hb.
  { unfold collect_secret_body. apply resolution_projects.
    intros secret_info. unfold dispatch. frame_with more_side. }
  destruct (collect_secret_body _ _ _ _ _ _ w) as [[[]|e] w'];
    cbn [fst snd] in *; [exact Hb|].
  rewrite <- Hb.
  assert (preserves w_projects
    (add_error created_job (p_domain_id params) "ERROR_COLLECTOR_COLLECTING" e
       (CtxSecret secret_id))) as Hadd by frame_with more_side.
  apply Hadd.
Qed.

Lemma loop_projects secret_ids : forall count w,
  w_projects (loop' count secret_ids w).2
  = w_projects w ++ over_loop (resolved_project env params) count secret_ids.
Proof.
  induction secret_ids as [|secret_id rest IH]; intros count w.
  - cbn. symmetry. apply app_nil_r.
  - rewrite loop_cons. cbn [over_loop]. rewrite IH, iteration_projects.
    symmetry. apply app_assoc.
Qed.

End IterationMore.

Section Finish.

Variable env : Env.
Variable collector_vo : Collector.
Variable created_job : string.

(** Lines 281-282. *)
Abbreviation last_calls :=
  (update_last_collected_time env collector_vo ;;
   projects <- gets w_projects ;;
   update_job_by_vo env (list_to_set projects) created_job).

(** The job that the last two calls give: the job of the invocation with
    the projects gathered by the loop, as a set. *)
Lemma last_calls_return w :
  e_fault env UpdateLastCollectedTime = None ->
  e_fault env UpdateJob = None ->
  job_exists w = true ->
  exists j, w_job w = Some j
            /\ (last_calls w).1 = Ok (job_with_projects (list_to_set (w_projects w)) j).
Proof.
  intros Hts Huj Hj. apply bool_decide_eq_true in Hj. destruct Hj as [j Hj].
  exists j. split; [exact Hj|].
  unfold_managers. destruct w as [wc wr wj wt wq wx wp wtr].
  cbn [w_job] in Hj. subst wj. rewrite Hts, Huj. reflexivity.
Qed.

Lemma last_calls_collector w :
  e_fault env UpdateLastCollectedTime = None ->
  w_collector (last_calls w).2 = collector_touch <$> w_collector w.
Proof.
  intros Hts. unfold_managers. destruct w as [wc wr wj wt wq wx wp wtr].
  rewrite Hts. run_cbv. destruct (e_fault env UpdateJob); [reflexivity|].
  destruct wj; reflexivity.
Qed.

End Finish.

(** No iteration adds an empty project id. *)
Lemma resolved_project_truthy env params count secret_id project_id :
  project_id ∈ resolved_project env params count secret_id -> project_id ≠ "".
Proof.
  unfold resolved_project. intros H.
  repeat match type of H with
         | context [match ?x with _ => _ end] => destruct x eqn:?
         end;
    try (apply elem_of_nil in H; destruct H).
  apply list_elem_of_singleton in H. subst.
  match goal with
  | E : if_truthy ?x = Some _ |- _ =>
      unfold if_truthy in E; destruct (truthy x) eqn:Ht; [|discriminate];
      destruct x as [v|]; [|discriminate]; inversion E; subst;
      apply bool_decide_eq_true in Ht; exact Ht
  end.
Qed.

Lemma over_loop_resolved env params secret_ids : forall count,
  "" ∉ over_loop (resolved_project env params) count secret_ids.
Proof.
  induction secret_ids as [|secret_id rest IH]; intros count; cbn [over_loop].
  - apply not_elem_of_nil.
  - rewrite elem_of_app. intros [H|H]; [|exact (IH _ H)].
    apply resolved_project_truthy in H. apply H. reflexivity.
Qed.

Section Returned.

Variable env : Env.
Variable params : Params.
Variable w w1 : World.
Variable collector_vo : Collector.
Variable plugin_info : PluginInfo.

Hypothesis Hsetup : collect_setup env params w = (Ok (collector_vo, plugin_info), w1).
Hypothesis Hjob : e_fault env CreateJob = None.
Hypothesis Hsel : e_fault env ListSecrets = None.

Abbreviation selected := (eligible env params plugin_info).
Abbreviation started := (job_created env collector_vo params w1).
Abbreviation looped := (after_loop env params plugin_info (e_new_job_id env) started).

Lemma collect_through_loop :
  nonempty selected = true ->
  collect env params w
  = (update_last_collected_time env collector_vo ;;
     projects <- gets w_projects ;;
     update_job_by_vo env (list_to_set projects) (e_new_job_id env)) looped.
Proof.
  intros Hne. rewrite (collect_after_setup env params w collector_vo plugin_info w1 Hsetup Hjob).
  apply collect_job_nonempty; [exact Hsel|exact Hne|reflexivity].
Qed.

Lemma looped_exists : job_exists looped = true.
Proof.
  destruct (after_loop_facts env params plugin_info (e_new_job_id env) started) as (H & _);
    [reflexivity|exact H].
Qed.

Lemma looped_projects :
  w_projects looped = over_loop (resolved_project env params) 0 selected.
Proof. unfold after_loop. rewrite loop_projects. reflexivity. Qed.

Lemma looped_state :
  job_state looped
  = Some (match e_fault env MakeInprogress with
          | Some _ => CREATED
          | None => IN_PROGRESS
          end).
Proof.
  unfold after_loop.
  destruct (loop_run env params plugin_info (e_new_job_id env) selected 0
              (before_loop env (e_new_job_id env) started))
    as (_ & _ & _ & _ & _ & _ & Hs & _).
  { destruct (before_loop_facts env (e_new_job_id env) started) as (-> & _). reflexivity. }
  rewrite Hs. unfold before_loop, job_created, make_inprogress_by_vo, call, log,
    modify_job, job_state.
  destruct w1 as [wc wr wj wt wq wx wp wtr]. run_cbv.
  destruct (e_fault env MakeInprogress); reflexivity.
Qed.

Lemma looped_collector : w_collector looped = w_collector w1.
Proof.
  unfold after_loop.
  destruct (loop_run env params plugin_info (e_new_job_id env) selected 0
              (before_loop env (e_new_job_id env) started))
    as (_ & _ & _ & _ & _ & _ & _ & Hc & _).
  { destruct (before_loop_facts env (e_new_job_id env) started) as (-> & _). reflexivity. }
  rewrite Hc. unfold before_loop, job_created, make_inprogress_by_vo, call, log,
    modify_job.
  destruct w1 as [wc wr wj wt wq wx wp wtr]. run_cbv.
  destruct (e_fault env MakeInprogress); reflexivity.
Qed.

(** X14.  The job that [collect] returns after a non-empty selection
    carries, as its projects, exactly the non-empty project ids of the
    secrets whose iteration got as far as resolving the secret, whether
    what came after in the iteration failed or not; it never holds an
    empty project id. *)
Theorem collect_projects :
  nonempty selected = true ->
  e_fault env UpdateLastCollectedTime = None ->
  e_fault env UpdateJob = None ->
  exists job,
    (collect env params w).1 = Ok job
    /\ projects job = list_to_set (over_loop (resolved_project env params) 0 selected)
    /\ "" ∉ projects job.
Proof.
  intros Hne Hts Huj. rewrite (collect_through_loop Hne).
  destruct (last_calls_return env collector_vo (e_new_job_id env) looped Hts Huj
              looped_exists) as (j & _ & Hr).
  eexists. split; [exact Hr|]. cbn [projects job_with_projects].
  rewrite looped_projects. split; [reflexivity|].
  rewrite elem_of_list_to_set. apply over_loop_resolved.
Qed.

(** X15.  The job that [collect] returns after a non-empty selection is
    not finished: its state is IN_PROGRESS, or still CREATED when the
    transition to IN_PROGRESS could not be stored; [collect] itself never
    marks such a job SUCCESS or ERROR, whatever fails in the loop. *)
Theorem collect_returns_unfinished :
  nonempty selected = true ->
  e_fault env UpdateLastCollectedTime = None ->
  e_fault env UpdateJob = None ->
  exists job,
    (collect env params w).1 = Ok job
    /\ j_state job = match e_fault env MakeInprogress with
                     | Some _ => CREATED
                     | None => IN_PROGRESS
                     end.
Proof.
  intros Hne Hts Huj. rewrite (collect_through_loop Hne).
  destruct (last_calls_return env collector_vo (e_new_job_id env) looped Hts Huj
              looped_exists) as (j & Hj & Hr).
  eexists. split; [exact Hr|]. cbn [j_state job_with_projects].
  pose proof looped_state as Hs. unfold job_state in Hs. rewrite Hj in Hs.
  cbn in Hs. congruence.
Qed.


End Returned.

Section HandedOver.

Variable env : Env.
Variable params : Params.
Variable plugin_info : PluginInfo.
Variable created_job : string.

Lemma body_hands_over count secret_id w :
  let w' := (collect_secret_body env params plugin_info created_job count secret_id w).2 in
  w_job_tasks w' = w_job_tasks w ++ task_for env params created_job count secret_id
  /\ w_queue w'
     = w_queue w ++ enqueued_for env params plugin_info created_job count secret_id
  /\ w_executions w'
     = w_executions w ++ execution_for env params plugin_info created_job count secret_id.
Proof.
  cbv zeta.
  unfold task_for, enqueued_for, execution_for, completes, body_steps, body_request,
    asynchronous.
  unfold collect_secret_body, _set_secret_info, dispatch. unfold_managers.
  destruct w as [wc wr wj wt wq wx wp wtr]. run_cbv.
  cbn [first_fault app].
  destruct (find_secret env secret_id (p_domain_id params)) as [s|].
  - repeat match goal with
           | _ => progress (run_cbv; cbn [jt_job_task_id first_fault andb negb])
           | |- context [match e_fault env (InLoop count secret_id ?x) with _ => _ end] =>
               destruct (e_fault env (InLoop count secret_id x));
               [run_cbv; cbn [jt_job_task_id first_fault andb negb];
                rewrite ?bool_decide_eq_false_2 by discriminate; cbn [andb];
                repeat match goal with
                       | |- context [match e_task_pipeline env ?r with _ => _ end] =>
                           destruct (e_task_pipeline env r)
                       end;
                rewrite ?app_nil_r; repeat split; reflexivity|]
           | |- context [match if_truthy ?x with _ => _ end] =>
               destruct (if_truthy x)
           | |- context [match e_task_pipeline env ?r with _ => _ end] =>
               destruct (e_task_pipeline env r);
               [rewrite ?(bool_decide_eq_true_2 (is_Some (Some _)))
                  by (eexists; reflexivity)
               |rewrite ?(bool_decide_eq_false_2 (is_Some None))
                  by (intros [? H]; discriminate)];
               cbn [andb]
           | |- context [truthy (e_queue_name env)] =>
               destruct (truthy (e_queue_name env))
           end.
    all: rewrite ?bool_decide_eq_true_2 by reflexivity; cbn [andb negb];
      rewrite ?app_nil_r; repeat split; reflexivity.
  - repeat match goal with
           | |- context [match e_fault env (InLoop count secret_id ?x) with _ => _ end] =>
               destruct (e_fault env (InLoop count secret_id x))
           | _ => progress run_cbv
           end;
      rewrite ?app_nil_r; repeat split; reflexivity.
Qed.

(** The calls of the body, and what it ends with. *)
Lemma body_calls count secret_id s w :
  find_secret env secret_id (p_domain_id params) = Some s ->
  let here := InLoop count secret_id in
  let steps := body_steps env params plugin_info created_job count secret_id s in
  (collect_secret_body env params plugin_info created_job count secret_id w).1
  = match first_fault env here steps with
    | Some msg => Raise (CollaboratorError msg)
    | None => Ok tt
    end
  /\ w_trace (collect_secret_body env params plugin_info created_job count secret_id w).2
     = w_trace w ++ (here <$> attempted env here steps).
Proof.
  intros Hs. cbv zeta. unfold body_steps, body_request, asynchronous.
  unfold collect_secret_body, _set_secret_info, dispatch. unfold_managers.
  rewrite Hs. destruct w as [wc wr wj wt wq wx wp wtr]. run_cbv.
  cbn [first_fault attempted app fmap list_fmap].
  repeat match goal with
         | _ => progress (run_cbv;
                          cbn [jt_job_task_id first_fault attempted app list_fmap andb])
         | |- context [match e_fault env (InLoop count secret_id ?x) with _ => _ end] =>
             destruct (e_fault env (InLoop count secret_id x));
             [run_cbv; cbn [jt_job_task_id first_fault attempted app list_fmap andb];
              rewrite <- ?app_assoc; cbn [app]; split; reflexivity|]
         | |- context [match if_truthy ?x with _ => _ end] =>
             destruct (if_truthy x)
         | |- context [match e_task_pipeline env ?r with _ => _ end] =>
             destruct (e_task_pipeline env r);
             [rewrite ?(bool_decide_eq_true_2 (is_Some (Some _)))
                by (eexists; reflexivity)
             |rewrite ?(bool_decide_eq_false_2 (is_Some None))
                by (intros [? H]; discriminate)];
             cbn [andb]
         | |- context [truthy (e_queue_name env)] =>
             destruct (truthy (e_queue_name env))
         end.
  all: rewrite <- ?app_assoc; cbn [app]; split; reflexivity.
Qed.

Lemma iteration_trace count secret_id s w :
  find_secret env secret_id (p_domain_id params) = Some s ->
  w_trace (collect_secret env params plugin_info created_job count secret_id w).2
  = w_trace w ++ iteration_calls env params plugin_info created_job count secret_id s.
Proof.
  intros Hs. destruct (body_calls count secret_id s w Hs) as [Hr Ht]. cbv zeta in Hr, Ht.
  unfold collect_secret, try_except, iteration_calls.
  destruct (collect_secret_body _ _ _ _ _ _ w) as [[[]|e] w'];
    cbn [fst snd] in *;
    destruct (first_fault env _ _); try discriminate.
  - rewrite Ht, app_nil_r. reflexivity.
  - unfold add_error, log, modify_job. destruct w' as [wc wr wj wt wq wx wp wtr].
    run_cbv. cbn [w_trace] in Ht. rewrite Ht, <- app_assoc. reflexivity.
Qed.

Ltac handed_side :=
  intros ?;
  cbn [w_job_tasks w_queue w_executions set_collector set_rules set_job set_job_tasks
       set_queue set_executions set_projects set_trace];
  try reflexivity.

Lemma iteration_hands_over count secret_id w :
  let w' := (collect_secret env params plugin_info created_job count secret_id w).2 in
  w_job_tasks w' = w_job_tasks w ++ task_for env params created_job count secret_id
  /\ w_queue w'
     = w_queue w ++ enqueued_for env params plugin_info created_job count secret_id
  /\ w_executions w'
     = w_executions w ++ execution_for env params plugin_info created_job count secret_id.
Proof.
  cbv zeta. pose proof (body_hands_over count secret_id w) as Hb. cbv zeta in Hb.
  unfold collect_secret, try_except.
  destruct (collect_secret_body _ _ _ _ _ _ w) as [[[]|e] w'];
    cbn [fst snd] in *; [exact Hb|].
  destruct Hb as (Ht & Hq & Hx). rewrite <- Ht, <- Hq, <- Hx.
  assert (preserves w_job_tasks
            (add_error created_job (p_domain_id params) "ERROR_COLLECTOR_COLLECTING" e
               (CtxSecret secret_id))) as H1 by frame_with handed_side.
  assert (preserves w_queue
            (add_error created_job (p_domain_id params) "ERROR_COLLECTOR_COLLECTING" e
               (CtxSecret secret_id))) as H2 by frame_with handed_side.
  assert (preserves w_executions
            (add_error created_job (p_domain_id params) "ERROR_COLLECTOR_COLLECTING" e
               (CtxSecret secret_id))) as H3 by frame_with handed_side.
  rewrite H1, H2, H3. tauto.
Qed.

Lemma loop_hands_over secret_ids : forall count w,
  let w' := (collect_loop env params plugin_info created_job count secret_ids w).2 in
  w_job_tasks w'
  = w_job_tasks w ++ over_loop (task_for env params created_job) count secret_ids
  /\ w_queue w'
     = w_queue w
       ++ over_loop (enqueued_for env params plugin_info created_job) count secret_ids
  /\ w_executions w'
     = w_executions w
       ++ over_loop (execution_for env params plugin_info created_job) count secret_ids.
Proof.
  induction secret_ids as [|secret_id rest IH]; intros count w; cbv zeta.
  - cbn. rewrite !app_nil_r. tauto.
  - rewrite loop_cons. cbn [over_loop].
    destruct (IH (S count)
                (collect_secret env params plugin_info created_job (S count) secret_id
                   w).2) as (Ht & Hq & Hx).
    destruct (iteration_hands_over (S count) secret_id w) as (Ht' & Hq' & Hx').
    rewrite Ht, Hq, Hx, Ht', Hq', Hx', <- !app_assoc. tauto.
Qed.

(** A secret is handed over at most once, to the queue or to the
    in-process execution and not to both, and only when its job task was
    stored. *)
Lemma handed_over_once count secret_id :
  length (enqueued_for env params plugin_info created_job count secret_id)
  + length (execution_for env params plugin_info created_job count secret_id)
  <= length (task_for env params created_job count secret_id)
  /\ length (task_for env params created_job count secret_id) <= 1.
Proof.
  unfold enqueued_for, execution_for, task_for, completes, body_steps, asynchronous.
  cbn [first_fault app].
  destruct (find_secret env secret_id (p_domain_id params)) as [s|].
  - repeat match goal with
           | |- context [match e_fault env (InLoop count secret_id ?x) with _ => _ end] =>
               destruct (e_fault env (InLoop count secret_id x));
               [rewrite ?bool_decide_eq_false_2 by discriminate; cbn [andb];
                repeat match goal with
                       | |- context [match ?y with _ => _ end] => destruct y
                       end; cbn [length]; lia|]
           end.
    destruct (e_task_pipeline env _);
      [rewrite (bool_decide_eq_true_2 (is_Some (Some _))) by (eexists; reflexivity)
      |rewrite (bool_decide_eq_false_2 (is_Some None)) by (intros [? H]; discriminate)];
      cbn [andb negb]; destruct (truthy (e_queue_name env)); cbn [andb negb];
      rewrite ?andb_true_r, ?andb_false_r;
      repeat match goal with
             | |- context [if ?b then _ else _] => destruct b
             end; cbn [length]; lia.
  - repeat match goal with
           | |- context [match ?y with _ => _ end] => destruct y
           end; cbn [length]; lia.
Qed.

Lemma over_loop_handed_over secret_ids : forall count,
  length (over_loop (enqueued_for env params plugin_info created_job) count secret_ids)
  + length (over_loop (execution_for env params plugin_info created_job) count secret_ids)
  <= length (over_loop (task_for env params created_job) count secret_ids)
  /\ length (over_loop (task_for env params created_job) count secret_ids)
     <= length secret_ids.
Proof.
  induction secret_ids as [|secret_id rest IH]; intros count; cbn [over_loop length].
  - lia.
  - rewrite !length_app. destruct (IH (S count)) as [H1 H2].
    destruct (handed_over_once (S count) secret_id) as [H3 H4]. lia.
Qed.

(** Without a fault in the iteration, the secret gets its job task and one
    hand-over. *)
Lemma handed_over_clean count secret_id s :
  find_secret env secret_id (p_domain_id params) = Some s ->
  (forall step, e_fault env (InLoop count secret_id step) = None) ->
  length (task_for env params created_job count secret_id) = 1
  /\ length (enqueued_for env params plugin_info created_job count secret_id)
     + length (execution_for env params plugin_info created_job count secret_id) = 1.
Proof.
  intros Hs Hclean.
  unfold enqueued_for, execution_for, task_for, completes, body_steps, asynchronous.
  rewrite Hs, !Hclean. split; [reflexivity|].
  assert (forall steps, first_fault env (InLoop count secret_id) steps = None) as Hnone.
  { induction steps as [|step steps IH]; cbn [first_fault]; [reflexivity|].
    rewrite Hclean. exact IH. }
  rewrite Hnone, bool_decide_eq_true_2 by reflexivity. cbn [andb].
  destruct (e_task_pipeline env _);
    [rewrite (bool_decide_eq_true_2 (is_Some (Some _))) by (eexists; reflexivity)
    |rewrite (bool_decide_eq_false_2 (is_Some None)) by (intros [? H]; discriminate)];
    cbn [andb negb]; [destruct (truthy (e_queue_name env))|]; reflexivity.
Qed.

(** What the iteration for a secret hands over, by the mode of its
    dispatch. *)
Lemma contribution_mode count secret_id s :
  find_secret env secret_id (p_domain_id params) = Some s ->
  let req_params := body_request env params plugin_info created_job count secret_id s in
  let task := e_task_pipeline env req_params in
  let queue_name := e_queue_name env in
  let steps := body_steps env params plugin_info created_job count secret_id s in
  let done := completes env params plugin_info created_job count secret_id s in
  if asynchronous task queue_name then
    exists task' name,
      task = Some task'
      /\ queue_name = Some name
      /\ steps = [IncreaseTotalTasks; IncreaseRemainedTasks; GetSecret; CreateJobTask;
                  MakeCollectingParameters; CreateTaskPipeline; GetQueueName;
                  Validate; JsonDumps; QueuePut]
      /\ enqueued_for env params plugin_info created_job count secret_id
         = (if done then [(name, e_json env task')] else [])
      /\ execution_for env params plugin_info created_job count secret_id = []
  else
    steps = [IncreaseTotalTasks; IncreaseRemainedTasks; GetSecret; CreateJobTask;
             MakeCollectingParameters; CreateTaskPipeline; GetQueueName;
             CollectingResources]
    /\ enqueued_for env params plugin_info created_job count secret_id = []
    /\ execution_for env params plugin_info created_job count secret_id
       = (if done then [execution_of req_params] else []).
Proof.
  intros Hs. cbv zeta. unfold enqueued_for, execution_for, body_steps. rewrite Hs.
  destruct (asynchronous _ _) eqn:Hmode.
  - unfold asynchronous in Hmode. apply andb_true_iff in Hmode as [Ht Hq].
    apply bool_decide_eq_true in Ht as [task' Ht].
    destruct (e_queue_name env) as [name|] eqn:Hn; [|discriminate].
    exists task', name. rewrite Ht, Hq, andb_true_r, andb_false_r.
    repeat split; reflexivity.
  - cbn [negb]. rewrite andb_true_r. split; [reflexivity|]. split; [|reflexivity].
    unfold asynchronous in Hmode. apply andb_false_iff in Hmode as [Ht|Hq].
    + apply bool_decide_eq_false in Ht.
      destruct (e_task_pipeline env _) as [task'|]; [|reflexivity].
      exfalso. apply Ht. eexists. reflexivity.
    + rewrite Hq, andb_false_r. destruct (e_task_pipeline env _); reflexivity.
Qed.

Lemma over_loop_clean secret_ids : forall count,
  (forall secret_id, secret_id ∈ secret_ids ->
     is_Some (find_secret env secret_id (p_domain_id params))) ->
  (forall count secret_id step, e_fault env (InLoop count secret_id step) = None) ->
  length (over_loop (task_for env params created_job) count secret_ids)
  = length secret_ids
  /\ length (over_loop (enqueued_for env params plugin_info created_job) count secret_ids)
     + length (over_loop (execution_for env params plugin_info created_job) count
                 secret_ids)
     = length secret_ids.
Proof.
  induction secret_ids as [|secret_id rest IH]; intros count Hfound Hclean;
    cbn [over_loop length]; [split; reflexivity|].
  rewrite !length_app.
  destruct (Hfound secret_id) as [s Hs]; [apply list_elem_of_here|].
  destruct (handed_over_clean (S count) secret_id s Hs (Hclean (S count) secret_id))
    as [H1 H2].
  destruct (IH (S count)) as [H3 H4]; [|exact Hclean|lia].
  intros x Hx. apply Hfound. apply list_elem_of_further. exact Hx.
Qed.

End HandedOver.

Section Dispatch.

Variable env : Env.
Variable params : Params.
Variable w w1 : World.
Variable collector_vo : Collector.
Variable plugin_info : PluginInfo.

Hypothesis Hsetup : collect_setup env params w = (Ok (collector_vo, plugin_info), w1).
Hypothesis Hjob : e_fault env CreateJob = None.
Hypothesis Hsel : e_fault env ListSecrets = None.

Abbreviation chosen := (eligible env params plugin_info).
Abbreviation the_job := (e_new_job_id env).

Ltac handed_side :=
  intros ?;
  cbn [w_job_tasks w_queue w_executions set_collector set_rules set_job set_job_tasks
       set_queue set_executions set_projects set_trace];
  try reflexivity.

Lemma setup_hands_over_nothing :
  w_job_tasks w1 = w_job_tasks w /\ w_queue w1 = w_queue w
  /\ w_executions w1 = w_executions w.
Proof.
  pose proof (collect_setup_untouched env params w) as Hu.
  rewrite Hsetup in Hu. cbn [snd] in Hu. unfold untouched_by_setup in Hu.
  inversion Hu. tauto.
Qed.

Lemma before_loop_hands_over_nothing w0 :
  w_job_tasks (before_loop env the_job w0) = w_job_tasks w0
  /\ w_queue (before_loop env the_job w0) = w_queue w0
  /\ w_executions (before_loop env the_job w0) = w_executions w0.
Proof.
  unfold before_loop, make_inprogress_by_vo, call, log, modify_job.
  destruct w0 as [wc wr wj wt wq wx wp wtr]. run_cbv.
  destruct (e_fault env MakeInprogress); cbn; tauto.
Qed.

Lemma collect_handed_over :
  w_job_tasks (collect env params w).2
  = w_job_tasks w ++ over_loop (task_for env params the_job) 0 chosen
  /\ w_queue (collect env params w).2
     = w_queue w ++ over_loop (enqueued_for env params plugin_info the_job) 0 chosen
  /\ w_executions (collect env params w).2
     = w_executions w ++ over_loop (execution_for env params plugin_info the_job) 0 chosen.
Proof.
  destruct setup_hands_over_nothing as (Ht1 & Hq1 & Hx1).
  destruct (nonempty chosen) eqn:Hne.
  - rewrite (collect_through_loop env params w w1 collector_vo plugin_info Hsetup Hjob
               Hsel Hne).
    assert (forall w0,
      w_job_tasks ((update_last_collected_time env collector_vo ;;
                    projects <- gets w_projects ;;
                    update_job_by_vo env (list_to_set projects) the_job) w0).2
      = w_job_tasks w0) as H1.
    { change (preserves w_job_tasks
                (update_last_collected_time env collector_vo ;;
                 projects <- gets w_projects ;;
                 update_job_by_vo env (list_to_set projects) the_job)).
      frame_with handed_side. }
    assert (forall w0,
      w_queue ((update_last_collected_time env collector_vo ;;
                projects <- gets w_projects ;;
                update_job_by_vo env (list_to_set projects) the_job) w0).2
      = w_queue w0) as H2.
    { change (preserves w_queue
                (update_last_collected_time env collector_vo ;;
                 projects <- gets w_projects ;;
                 update_job_by_vo env (list_to_set projects) the_job)).
      frame_with handed_side. }
    assert (forall w0,
      w_executions ((update_last_collected_time env collector_vo ;;
                     projects <- gets w_projects ;;
                     update_job_by_vo env (list_to_set projects) the_job) w0).2
      = w_executions w0) as H3.
    { change (preserves w_executions
                (update_last_collected_time env collector_vo ;;
                 projects <- gets w_projects ;;
                 update_job_by_vo env (list_to_set projects) the_job)).
      frame_with handed_side. }
    rewrite H1, H2, H3. unfold after_loop.
    destruct (loop_hands_over env params plugin_info the_job chosen 0
                (before_loop env the_job (job_created env collector_vo params w1)))
      as (Ht & Hq & Hx).
    destruct (before_loop_hands_over_nothing (job_created env collector_vo params w1))
      as (Ht0 & Hq0 & Hx0).
    rewrite Ht, Hq, Hx, Ht0, Hq0, Hx0.
    cbn [job_created w_job_tasks w_queue w_executions set_job set_trace].
    rewrite Ht1, Hq1, Hx1. tauto.
  - assert (chosen = []) as Hnil by (destruct chosen; [reflexivity|discriminate]).
    destruct (collect_nothing_world env params w w1 collector_vo plugin_info Hsetup
                Hjob Hsel Hnil) as (job & trace & ->).
    rewrite Hnil. cbn [over_loop]. rewrite !app_nil_r.
    cbn [w_job_tasks w_queue w_executions set_job set_trace].
    tauto.
Qed.

(** C6.  For each secret in the loop of [collect], the iteration runs in
    the asynchronous mode exactly when the task pipeline of its
    collecting parameters was constructed and a queue name is configured.
    In that mode the calls of the iteration, after the seven that
    register the task and build the payload, are validation,
    serialization and enqueueing, in this order and up to the first that
    raises; when none of the calls raises, the serialized task is put
    on the queue under the queue name, and in no case is anything
    executed in process.  Otherwise the only call after the seven is the
    in-process execution, with the plugin information, the secret data,
    the domain id, the job id and the cache flag of the collecting
    parameters; it is recorded when no call raises, and nothing is put on
    the queue.  What the queue and the in-process execution have received
    when [collect] ends is what the iterations have handed over, in the
    order of the selection. *)
Theorem collect_dispatch_mode :
  w_queue (collect env params w).2
  = w_queue w ++ over_loop (enqueued_for env params plugin_info the_job) 0 chosen
  /\ w_executions (collect env params w).2
     = w_executions w ++ over_loop (execution_for env params plugin_info the_job) 0 chosen
  /\ forall i secret_id,
       chosen !! i = Some secret_id ->
       exists s,
         find_secret env secret_id (p_domain_id params) = Some s
         /\ let here := InLoop (S i) secret_id in
            let req_params :=
              body_request env params plugin_info the_job (S i) secret_id s in
            let task := e_task_pipeline env req_params in
            let queue_name := e_queue_name env in
            let steps := body_steps env params plugin_info the_job (S i) secret_id s in
            let done := completes env params plugin_info the_job (S i) secret_id s in
            (forall w0,
               let r := collect_secret env params plugin_info the_job (S i) secret_id w0 in
               w_trace r.2
               = w_trace w0
                 ++ (here <$> attempted env here steps)
                 ++ (if done then [] else [AddError])
               /\ w_queue r.2
                  = w_queue w0
                    ++ enqueued_for env params plugin_info the_job (S i) secret_id
               /\ w_executions r.2
                  = w_executions w0
                    ++ execution_for env params plugin_info the_job (S i) secret_id)
            /\ if asynchronous task queue_name then
                 exists task' name,
                   task = Some task'
                   /\ queue_name = Some name
                   /\ steps
                      = [IncreaseTotalTasks; IncreaseRemainedTasks; GetSecret;
                         CreateJobTask; MakeCollectingParameters; CreateTaskPipeline;
                         GetQueueName; Validate; JsonDumps; QueuePut]
                   /\ enqueued_for env params plugin_info the_job (S i) secret_id
                      = (if done then [(name, e_json env task')] else [])
                   /\ execution_for env params plugin_info the_job (S i) secret_id = []
               else
                 steps
                 = [IncreaseTotalTasks; IncreaseRemainedTasks; GetSecret;
                    CreateJobTask; MakeCollectingParameters; CreateTaskPipeline;
                    GetQueueName; CollectingResources]
                 /\ enqueued_for env params plugin_info the_job (S i) secret_id = []
                 /\ execution_for env params plugin_info the_job (S i) secret_id
                    = (if done then [execution_of req_params] else []).
Proof.
  destruct collect_handed_over as (_ & Hq & Hx).
  split; [exact Hq|]. split; [exact Hx|].
  intros i secret_id Hi.
  destruct (eligible_found env params plugin_info secret_id) as [s Hs].
  { apply list_elem_of_lookup. exists i. exact Hi. }
  exists s. split; [exact Hs|]. cbv zeta. split.
  - intros w0.
    destruct (iteration_hands_over env params plugin_info the_job (S i) secret_id w0)
      as (_ & Hq0 & Hx0).
    split; [|split; assumption].
    rewrite (iteration_trace env params plugin_info the_job (S i) secret_id s w0 Hs).
    unfold iteration_calls, completes. rewrite app_assoc.
    destruct (first_fault env _ _) as [msg|].
    + rewrite bool_decide_eq_false_2 by discriminate. rewrite <- app_assoc. reflexivity.
    + rewrite bool_decide_eq_true_2 by reflexivity. rewrite <- app_assoc. reflexivity.
  - apply (contribution_mode env params plugin_info the_job (S i) secret_id s Hs).
Qed.

(** X17.  What [collect] stores and hands over follows the selection, in
    its order: the job tasks are those of the secrets whose iteration got
    as far as creating one, the queue receives the serialized pipeline of
    every secret whose iteration completed in the asynchronous mode, and
    the in-process execution is run, with the data of that secret, for
    every secret whose iteration completed in the synchronous mode. *)
Theorem collect_hands_over :
  w_job_tasks (collect env params w).2
  = w_job_tasks w ++ over_loop (task_for env params the_job) 0 chosen
  /\ w_queue (collect env params w).2
     = w_queue w ++ over_loop (enqueued_for env params plugin_info the_job) 0 chosen
  /\ w_executions (collect env params w).2
     = w_executions w ++ over_loop (execution_for env params plugin_info the_job) 0 chosen.
Proof. exact collect_handed_over. Qed.

(** X18.  [collect] never hands over more tasks than it has stored job
    tasks, and never stores more job tasks than there are selected
    secrets, whatever fails in the loop. *)
Theorem collect_dispatch_bound :
  dispatched (collect env params w).2 + length (w_job_tasks w)
  <= dispatched w + length (w_job_tasks (collect env params w).2)
  /\ length (w_job_tasks (collect env params w).2)
     <= length (w_job_tasks w) + length chosen.
Proof.
  destruct collect_handed_over as (Ht & Hq & Hx). unfold dispatched.
  rewrite Ht, Hq, Hx, !length_app.
  destruct (over_loop_handed_over env params plugin_info the_job chosen 0) as [H1 H2].
  lia.
Qed.

(** X19.  When no call of the loop fails, every selected secret gets
    exactly one job task and is handed over exactly once. *)
Theorem collect_clean_run :
  (forall count secret_id step, e_fault env (InLoop count secret_id step) = None) ->
  length (w_job_tasks (collect env params w).2)
  = length (w_job_tasks w) + length chosen
  /\ dispatched (collect env params w).2 = dispatched w + length chosen.
Proof.
  intros Hclean. destruct collect_handed_over as (Ht & Hq & Hx). unfold dispatched.
  rewrite Ht, Hq, Hx, !length_app.
  destruct (over_loop_clean env params plugin_info the_job chosen 0) as [H1 H2];
    [|exact Hclean|lia].
  intros secret_id Hin. apply (eligible_found env params plugin_info). exact Hin.
Qed.

End Dispatch.

(* ===================================================================== *)
(** * Further properties: verify_plugin *)
(* ===================================================================== *)

Section Verify.

Variable env : Env.
Variable secret_filter_of : PluginInfo -> option SecretFilter.
Variable get_secret_data : string -> string -> Res (option string).
Variable plugin_verify : string -> string -> option string -> Res unit.
Variable params : Params.
Variable w : World.

Abbreviation verify :=
  (verify_plugin env secret_filter_of get_secret_data plugin_verify params).

(** X20.  [verify_plugin] stores nothing: the collector, its plugin
    version and its rules, the jobs and the queue are as before, also
    when the endpoint resolver reports a new version and whatever the
    plugin answers. *)
Theorem verify_plugin_stores_nothing :
  stores (verify w).2 = stores w.
Proof.
  revert w. change (preserves stores verify).
  unfold verify_plugin, list_secret_from_secret_filter.
  frame_with ltac:(intros ?; reflexivity).
Qed.

Variable c : Collector.

Hypothesis Hcollector : w_collector w = Some c.
Hypothesis Hcollector_id : c_collector_id c = p_collector_id params.
Hypothesis Hdomain_id : c_domain_id c = p_domain_id params.
Hypothesis Hget : e_fault env GetCollector = None.
Hypothesis Hendpoint : e_fault env GetEndpoint = None.
Hypothesis Hsecrets : e_fault env ListSecrets = None.

(** X21.  [verify_plugin] asks the plugin about the first selected secret
    only, with the endpoint of the plugin, the options of the collector
    and the data of that secret; when no secret is selected it returns
    without asking the plugin at all. *)
Theorem verify_plugin_first_secret :
  (verify w).1
  = match List.filter
            (fun s => bool_decide (s_domain_id s = p_domain_id params)
                      && selected_by (default ∅ (secret_filter_of (c_plugin_info c)))
                           (p_secret_id params) s)
            (e_secrets env) with
    | [] => Ok tt
    | s :: _ =>
        match get_secret_data (s_secret_id s) (p_domain_id params) with
        | Ok secret_data =>
            plugin_verify (e_endpoint env) (pi_options (c_plugin_info c)) secret_data
        | Raise e => Raise e
        end
    end.
Proof.
  unfold verify_plugin. cbv zeta.
  assert (get_collector env (p_collector_id params) (p_domain_id params) w
          = (Ok c, set_trace (w_trace w ++ [GetCollector]) w)) as H1.
  { unfold get_collector, call, log. destruct w as [wc wr wj wt wq wx wp wtr].
    cbn [w_collector] in Hcollector. subst wc. run_cbv. rewrite Hget. run_cbv.
    rewrite bool_decide_eq_true_2 by (split; assumption). reflexivity. }
  rewrite (bind_returns _ _ _ _ _ H1).
  match goal with
  | |- context [get_endpoint env ?a ?b ?d ?e] =>
      assert (get_endpoint env a b d e (set_trace (w_trace w ++ [GetCollector]) w)
              = (Ok (e_endpoint env, e_updated_version env),
                 set_trace (w_trace (set_trace (w_trace w ++ [GetCollector]) w)
                            ++ [GetEndpoint])
                   (set_trace (w_trace w ++ [GetCollector]) w))) as H2
  end.
  { unfold get_endpoint, call, log, modify, bind, ret. rewrite Hendpoint. reflexivity. }
  rewrite (bind_returns _ _ _ _ _ H2). cbn [fst].
  match goal with
  | |- (bind ?sel ?k ?w0).1 = _ =>
      pose proof (selection_result env (default ∅ (secret_filter_of (c_plugin_info c)))
                    (p_secret_id params) (p_domain_id params) w0 Hsecrets) as H3;
      destruct (sel w0) as [r w3] eqn:E3
  end.
  cbn [fst] in H3. subst r. rewrite (bind_returns _ _ _ _ _ E3).
  destruct (List.filter _ (e_secrets env)) as [|s rest]; cbn [fmap list_fmap];
    [reflexivity|].
  unfold bind, lift, ret, raise.
  destruct (get_secret_data _ _) as [d|e]; cbn [fst snd]; [|reflexivity].
  destruct (plugin_verify _ _ _); reflexivity.
Qed.

End Verify.

(* ===================================================================== *)
(** * The further properties on the small installation *)
(* ===================================================================== *)

Lemma selection_within_domain_witness :
  exists secret_ids,
    (list_secret_from_secret_filter Sample.plain Sample.accounts_filter None "domain-1"
       Sample.world).1 = Ok secret_ids
    /\ length secret_ids <= 2
    /\ forall x, x ∈ secret_ids ->
         exists s, s ∈ Sample.two_secrets /\ s_secret_id s = x
                   /\ s_domain_id s = "domain-1".
Proof.
  apply (selection_within_domain Sample.plain Sample.accounts_filter None "domain-1"
           Sample.world).
  reflexivity.
Defined.

Lemma selection_requested_only_witness :
  exists secret_ids,
    (list_secret_from_secret_filter Sample.plain Sample.accounts_filter
       (Some "secret-b") "domain-1" Sample.world).1 = Ok secret_ids
    /\ (forall x, x ∈ secret_ids -> Some "secret-b" = Some x)
    /\ (forall l, Sample.accounts_filter !! "secrets" = Some l ->
                  "secret-b" ∉ l -> secret_ids = []).
Proof.
  apply (selection_requested_only Sample.plain Sample.accounts_filter (Some "secret-b")
           "domain-1" Sample.world);
    reflexivity.
Defined.

Lemma selection_narrows_witness :
  exists narrow wide,
    (list_secret_from_secret_filter Sample.plain
       (<["secrets" := ["secret-b"]]> Sample.accounts_filter) None "domain-1"
       Sample.world).1 = Ok narrow
    /\ (list_secret_from_secret_filter Sample.plain Sample.accounts_filter None
          "domain-1" Sample.world).1 = Ok wide
    /\ sublist narrow wide.
Proof.
  apply (selection_narrows Sample.plain Sample.accounts_filter None "domain-1"
           Sample.world "secrets" ["secret-b"]);
    reflexivity.
Defined.

Lemma get_plugin_providers_stable_witness :
  _get_plugin_providers (Some "aws") (e_repo_plugin Sample.plain) = Ok (Some "aws").
Proof.
  apply (get_plugin_providers_stable (Some "aws") (e_repo_plugin Sample.plain)
           (Some "aws")).
  reflexivity.
Defined.

Lemma collect_projects_witness :
  exists job,
    (collect MoreSample.failing_after_resolution Sample.params Sample.world).1 = Ok job
    /\ "project-1" ∈ projects job
    /\ "" ∉ projects job.
Proof.
  destruct (collect_projects MoreSample.failing_after_resolution Sample.params
              Sample.world
              (collect_setup MoreSample.failing_after_resolution Sample.params
                 Sample.world).2
              Sample.collector Sample.plugin_info) as (job & Hr & Hp & He).
  - vm_compute. reflexivity.
  - reflexivity.
  - reflexivity.
  - vm_compute. reflexivity.
  - reflexivity.
  - reflexivity.
  - exists job. split; [exact Hr|]. split; [|exact He].
    rewrite Hp. apply elem_of_list_to_set.
    assert (over_loop (resolved_project MoreSample.failing_after_resolution Sample.params)
              0
              (eligible MoreSample.failing_after_resolution Sample.params
                 Sample.plugin_info)
            = ["project-1"]) as -> by (vm_compute; reflexivity).
    apply list_elem_of_here.
Defined.

Lemma collect_returns_unfinished_witness :
  exists job,
    (collect Sample.crashing_second Sample.params Sample.world).1 = Ok job
    /\ j_state job = CREATED.
Proof.
  apply (collect_returns_unfinished Sample.crashing_second Sample.params Sample.world
           (collect_setup Sample.crashing_second Sample.params Sample.world).2
           Sample.collector Sample.plugin_info).
  - vm_compute. reflexivity.
  - reflexivity.
  - reflexivity.
  - vm_compute. reflexivity.
  - reflexivity.
  - reflexivity.
Defined.


Lemma collect_hands_over_witness :
  length (w_job_tasks (collect Sample.crashing_second Sample.params Sample.world).2) = 2
  /\ w_queue (collect Sample.crashing_second Sample.params Sample.world).2 = []
  /\ w_executions (collect Sample.crashing_second Sample.params Sample.world).2
     = [{| x_plugin_info := Sample.plugin_info;
           x_secret_data := "key-of-secret-a";
           x_domain_id := "domain-1";
           x_job_id := "job-1";
           x_use_cache := true |}].
Proof.
  destruct (collect_hands_over Sample.crashing_second Sample.params Sample.world
              (collect_setup Sample.crashing_second Sample.params Sample.world).2
              Sample.collector Sample.plugin_info) as (Ht & Hq & Hx).
  - vm_compute. reflexivity.
  - reflexivity.
  - reflexivity.
  - rewrite Ht, Hq, Hx. vm_compute. repeat split; reflexivity.
Defined.

Lemma collect_dispatch_bound_witness :
  dispatched (collect Sample.crashing_second Sample.params Sample.world).2 + 0
  <= 0 + length (w_job_tasks (collect Sample.crashing_second Sample.params
                                Sample.world).2)
  /\ length (w_job_tasks (collect Sample.crashing_second Sample.params Sample.world).2)
     <= 0 + 2.
Proof.
  apply (collect_dispatch_bound Sample.crashing_second Sample.params Sample.world
           (collect_setup Sample.crashing_second Sample.params Sample.world).2
           Sample.collector Sample.plugin_info).
  - vm_compute. reflexivity.
  - reflexivity.
  - reflexivity.
Defined.

Lemma collect_clean_run_witness :
  length (w_job_tasks (collect Sample.queued Sample.params Sample.world).2) = 0 + 2
  /\ dispatched (collect Sample.queued Sample.params Sample.world).2 = 0 + 2.
Proof.
  apply (collect_clean_run Sample.queued Sample.params Sample.world
           (collect_setup Sample.queued Sample.params Sample.world).2
           Sample.collector Sample.plugin_info).
  - vm_compute. reflexivity.
  - reflexivity.
  - reflexivity.
  - intros count secret_id step. reflexivity.
Defined.

Lemma verify_plugin_first_secret_witness :
  (verify_plugin Sample.plain MoreSample.no_secret_filter MoreSample.secret_data_of
     (MoreSample.accepts_only "key-of-secret-a") Sample.params Sample.world).1
  = Ok tt.
Proof.
  rewrite (verify_plugin_first_secret Sample.plain MoreSample.no_secret_filter
             MoreSample.secret_data_of (MoreSample.accepts_only "key-of-secret-a")
             Sample.params Sample.world Sample.collector);
    reflexivity.
Defined.

(** The scenario of section 8 with two secrets: a queue is configured and
    the pipeline is constructed, so the task of each secret is enqueued
    once, in the order of the selection, and nothing is executed in
    process. *)
Lemma collect_dispatch_mode_witness :
  w_queue (collect Sample.queued Sample.params Sample.world).2
  = [("collector_q", e_json Sample.queued
                       {| t_params := body_request Sample.queued Sample.params
                                        Sample.plugin_info "job-1" 1 "secret-a"
                                        (Sample.secret "secret-a" (Some "project-1")) |});
     ("collector_q", e_json Sample.queued
                       {| t_params := body_request Sample.queued Sample.params
                                        Sample.plugin_info "job-1" 2 "secret-b"
                                        (Sample.secret "secret-b" None) |})]
  /\ w_executions (collect Sample.queued Sample.params Sample.world).2 = [].
Proof.
  destruct (collect_dispatch_mode Sample.queued Sample.params Sample.world
              (collect_setup Sample.queued Sample.params Sample.world).2
              Sample.collector Sample.plugin_info) as (Hq & Hx & _).
  - vm_compute. reflexivity.
  - reflexivity.
  - reflexivity.
  - rewrite Hq, Hx. vm_compute. split; reflexivity.
Defined.
